(** * node-ai-integration: the bio-generation service and its callers

    A shallow embedding of [src/services/aiService.js] (the [AIService]
    class: provider wrappers, retry loop, fallback policy, status report)
    and of the three handlers of [src/controllers/userController.js] that
    use it ([createUser], [updateUser], [getAIStatus]).

    JavaScript values are embedded as a small dynamically typed universe
    ([JsValue]); objects are finite maps from property names to values.
    Every interaction with a collaborator (provider SDKs, timers, logger,
    Mongoose models, the Express response) is recorded in a trace and is
    answered by an oracle, so that "how many calls were made" and "how long
    did the loop wait" are statements about the trace. *)

From Stdlib Require Import ZArith List String Ascii Bool Lia.
From stdpp Require Import base option strings gmap pretty.

#[local] Set Warnings "-register-all".

#[local] Open Scope Z_scope.

(* ===================================================================== *)
(** ** JavaScript values *)
(* ===================================================================== *)

Module Js.

(** Numbers are the integers the program manipulates (status codes, attempt
    counters, delays in milliseconds, clock readings); they are exact in
    JavaScript below 2^53.  Strings are sequences of 8-bit code units. *)
Inductive JsValue : Type :=
| JsUndefined
| JsNull
| JsBool (b : bool)
| JsNumber (n : Z)
| JsString (s : string)
| JsObject (fields : gmap string JsValue).

(** [!!v]: the truthiness test of [if (v)], [!v], [a && b], [a || b]. *)
Definition truthy (v : JsValue) : bool :=
  match v with
  | JsUndefined | JsNull => false
  | JsBool b => b
  | JsNumber n => negb (n =? 0)
  | JsString s => negb (String.eqb s "")
  | JsObject _ => true
  end.

(** [a || b] *)
Definition js_or (a b : JsValue) : JsValue := if truthy a then a else b.

(** [a && b] *)
Definition js_and (a b : JsValue) : JsValue := if truthy a then b else a.

(** [v === n] for a number literal [n]. *)
Definition strict_eq_number (v : JsValue) (n : Z) : bool :=
  match v with
  | JsNumber m => m =? n
  | _ => false
  end.

(** [v === s] for a string literal [s]. *)
Definition strict_eq_string (v : JsValue) (s : string) : bool :=
  match v with
  | JsString t => String.eqb t s
  | _ => false
  end.

(** [`${v}`]: the string a template literal renders a value as. *)
Definition to_string (v : JsValue) : string :=
  match v with
  | JsUndefined => "undefined"
  | JsNull => "null"
  | JsBool true => "true"
  | JsBool false => "false"
  | JsNumber n => pretty n
  | JsString s => s
  | JsObject _ => "[object Object]"
  end.

(** An environment variable read, [process.env.NAME]: a string or
    [undefined]. *)
Definition of_env (o : option string) : JsValue :=
  match o with
  | Some s => JsString s
  | None => JsUndefined
  end.

(** [new Error(message)] and the engine's [TypeError]; [name] lives on the
    prototype in JavaScript and is flattened into the object here, the
    [stack] is left out. *)
Definition new_Error (message : string) : JsValue :=
  JsObject (<["name" := JsString "Error"]> (<["message" := JsString message]> ∅)).

Definition new_TypeError (message : string) : JsValue :=
  JsObject (<["name" := JsString "TypeError"]> (<["message" := JsString message]> ∅)).

(** [v.key]: reading a property throws on [undefined] and [null], and is
    [undefined] where the property does not exist. *)
Definition prop (v : JsValue) (key : string) : JsValue + JsValue :=
  match v with
  | JsUndefined =>
      inr (new_TypeError ("Cannot read properties of undefined (reading '" +:+ key +:+ "')"))
  | JsNull =>
      inr (new_TypeError ("Cannot read properties of null (reading '" +:+ key +:+ "')"))
  | JsObject fields => inl (default JsUndefined (fields !! key))
  | _ => inl JsUndefined
  end.

(** The two values a property read throws on. *)
Definition nullish (v : JsValue) : bool :=
  match v with
  | JsUndefined | JsNull => true
  | _ => false
  end.

(** Property read that cannot throw (the receiver is known to be an
    object). *)
Definition get (v : JsValue) (key : string) : JsValue :=
  match v with
  | JsObject fields => default JsUndefined (fields !! key)
  | _ => JsUndefined
  end.

(** *** [String.prototype] methods used by the program *)

(** White space and line terminators of ECMAScript among the 8-bit code
    units: TAB, LF, VT, FF, CR, SP and NBSP. *)
Definition isWhiteSpace (c : ascii) : bool :=
  let n := N_of_ascii c in
  ((n =? 9) || (n =? 10) || (n =? 11) || (n =? 12) || (n =? 13) || (n =? 32) || (n =? 160))%N.

Fixpoint trimStart (s : string) : string :=
  match s with
  | EmptyString => EmptyString
  | String c s' => if isWhiteSpace c then trimStart s' else s
  end.

Fixpoint trimEnd (s : string) : string :=
  match s with
  | EmptyString => EmptyString
  | String c s' =>
      match trimEnd s' with
      | EmptyString => if isWhiteSpace c then EmptyString else String c EmptyString
      | t => String c t
      end
  end.

Definition trim (s : string) : string := trimEnd (trimStart s).

(** [toLowerCase] on 8-bit code units: A-Z and the Latin-1 capitals
    (U+00C0-U+00DE except the multiplication sign U+00D7). *)
Definition lower_char (c : ascii) : ascii :=
  let n := N_of_ascii c in
  if ((65 <=? n) && (n <=? 90))%N then ascii_of_N (n + 32)
  else if ((192 <=? n) && (n <=? 222) && negb (n =? 215))%N then ascii_of_N (n + 32)
  else c.

Fixpoint toLowerCase (s : string) : string :=
  match s with
  | EmptyString => EmptyString
  | String c s' => String (lower_char c) (toLowerCase s')
  end.

End Js.

(* ===================================================================== *)
(** ** Collaborators: what they are asked and what they answer *)
(* ===================================================================== *)

Module Sdk.
Import Js.

(** [new OpenAI({ apiKey })] *)
Record OpenAIClient := { apiKey : string }.

(** [new GoogleGenerativeAI(key)] and [getGenerativeModel({ model })] *)
Record GoogleGenerativeAI := { gemini_apiKey : string }.

Record GenerativeModel := { model_owner : GoogleGenerativeAI; model_name : string }.

Record ChatMessage := { role : string; content : string }.

(** The argument of [chat.completions.create]; the sampling parameters are
    decimal literals, kept as fractions. *)
Record ChatRequest := {
  model : string;
  messages : list ChatMessage;
  max_tokens : Z;
  temperature : Z * Z;
  top_p : Z * Z;
  frequency_penalty : Z * Z;
  presence_penalty : Z * Z
}.

(** A chat completion as far as the program reads it: for every choice the
    [message.content], a string or [null]. *)
Record ChatCompletion := { choices : list (option string) }.

(** [result.response.text()] returns the text or throws. *)
Inductive GenerateContentResult : Type :=
| ResponseText (text : string)
| ResponseTextThrows (reason : JsValue).

(** Mongoose documents of the two collections. *)
Record RoleDoc := { role__id : string; role_name : string; role_description : string }.

Record UserDoc := {
  user__id : string;
  user_name : string;
  user_email : string;
  user_role : JsValue;
  user_status : string;
  user_bio : string;
  user_createdAt : JsValue;
  user_updatedAt : JsValue
}.

(** A promise settles one way or the other. *)
Inductive Outcome (A : Type) : Type :=
| Resolves (a : A)
| Rejects (reason : JsValue).

Arguments Resolves {A} a.
Arguments Rejects {A} reason.

Inductive LogLevel : Type := Info | Warn | Error.

(** One interaction with a collaborator.  A log record keeps its level and
    its message; the metadata object passed next to it is evaluated (which
    may throw) but not recorded. *)
Inductive Event : Type :=
| EvLog (level : LogLevel) (message : string)
| EvOpenAICreate (client : OpenAIClient) (request : ChatRequest)
| EvGeminiGenerate (gmodel : GenerativeModel) (prompt : string)
| EvSleep (ms : Z)
| EvDateNow
| EvRoleFindById (id : JsValue)
| EvUserFindOne (pattern flags : string)
| EvUserCreate (name : JsValue) (email : string) (role_id : string) (bio : string)
| EvUserPopulate (user : UserDoc)
| EvUserFindByIdAndUpdate (id : JsValue) (update : gmap string JsValue)
| EvUserSave (user : UserDoc)
| EvRespond (status : Z) (body : JsValue)
| EvNext (error : JsValue).

Abbreviation Trace := (list Event).

(** The provider clients answer their n-th call, n counted from 0 over the
    whole trace: a run asks for every number at most once, so that any
    behaviour of a provider during a run is such a sequence of answers.  The
    database and the clock answer from the history. *)
Record Oracles := {
  openai_create : nat -> OpenAIClient -> ChatRequest -> Outcome ChatCompletion;
  gemini_generateContent : nat -> GenerativeModel -> string -> Outcome GenerateContentResult;
  Date_now : Trace -> Z;
  Role_findById : Trace -> JsValue -> Outcome (option RoleDoc);
  User_findOne : Trace -> string -> string -> Outcome (option UserDoc);
  User_create : Trace -> JsValue -> string -> string -> string -> Outcome UserDoc;
  user_populate : Trace -> UserDoc -> Outcome UserDoc;
  User_findByIdAndUpdate : Trace -> JsValue -> gmap string JsValue -> Outcome (option UserDoc);
  user_save : Trace -> UserDoc -> Outcome unit
}.

(** *** Reading a trace *)

Definition openai_requests (tr : Trace) : list ChatRequest :=
  omap (fun e => match e with EvOpenAICreate _ r => Some r | _ => None end) tr.

Definition gemini_prompts (tr : Trace) : list string :=
  omap (fun e => match e with EvGeminiGenerate _ p => Some p | _ => None end) tr.

Definition sleeps (tr : Trace) : list Z :=
  omap (fun e => match e with EvSleep ms => Some ms | _ => None end) tr.

Definition openai_calls (tr : Trace) : nat := length (openai_requests tr).

Definition gemini_calls (tr : Trace) : nat := length (gemini_prompts tr).

Definition user_creations (tr : Trace) : nat :=
  length (omap (fun e => match e with EvUserCreate _ _ _ _ => Some tt | _ => None end) tr).

Definition user_saves (tr : Trace) : nat :=
  length (omap (fun e => match e with EvUserSave _ => Some tt | _ => None end) tr).

Definition responses (tr : Trace) : list (Z * JsValue) :=
  omap (fun e => match e with EvRespond s b => Some (s, b) | _ => None end) tr.

Definition passed_to_next (tr : Trace) : list JsValue :=
  omap (fun e => match e with EvNext err => Some err | _ => None end) tr.

End Sdk.

(* ===================================================================== *)
(** ** Effects: a trace-writing computation that may throw *)
(* ===================================================================== *)

Module Eff.
Import Js Sdk.

Inductive Result (A : Type) : Type :=
| Ok (a : A)
| Throw (thrown : JsValue).

Arguments Ok {A} a.
Arguments Throw {A} thrown.

Definition M (A : Type) : Type := Trace -> Result A * Trace.

#[export] Instance M_ret : MRet M := fun A a w => (Ok a, w).

#[export] Instance M_bind : MBind M := fun A B f m w =>
  match m w with
  | (Ok a, w') => f a w'
  | (Throw t, w') => (Throw t, w')
  end.

(** [throw t] *)
Definition throw {A : Type} (t : JsValue) : M A := fun w => (Throw t, w).

(** [try { body } catch (error) { handler }]: what the handler throws is
    not caught again. *)
Definition try_catch {A : Type} (body : M A) (handler : JsValue -> M A) : M A :=
  fun w =>
    match body w with
    | (Ok a, w') => (Ok a, w')
    | (Throw t, w') => handler t w'
    end.

(** The body's completion as a value: for blocks whose [catch] falls
    through to the code after the [try]. *)
Definition attempt {A : Type} (body : M A) : M (Result A) :=
  fun w =>
    match body w with
    | (Ok a, w') => (Ok (Ok a), w')
    | (Throw t, w') => (Ok (Throw t), w')
    end.

Definition emit (e : Event) : M unit := fun w => (Ok tt, w ++ [e]).

(** [await] on a collaborator's promise: the call is recorded, then the
    promise settles. *)
Definition await {A : Type} (e : Event) (answer : Trace -> Outcome A) : M A :=
  fun w =>
    match answer w with
    | Resolves a => (Ok a, w ++ [e])
    | Rejects reason => (Throw reason, w ++ [e])
    end.

(** [v.key] inside a computation. *)
Definition read (v : JsValue) (key : string) : M JsValue :=
  match Js.prop v key with
  | inl x => mret x
  | inr type_error => throw type_error
  end.

Definition log (level : LogLevel) (message : string) : M unit := emit (EvLog level message).

End Eff.

(* ===================================================================== *)
(** ** src/services/aiService.js *)
(* ===================================================================== *)

Module AIService.
Import Js Sdk Eff.

(** The fields of the [AIService] instance: each client is an object or
    [null]. *)
Record AIService := {
  openai : option OpenAIClient;
  gemini : option GoogleGenerativeAI;
  geminiModel : option GenerativeModel
}.

(** An object-or-null field as a value, for [&&], [!] and [if]. *)
Definition ref {A : Type} (field : option A) : JsValue :=
  match field with
  | Some _ => JsObject ∅
  | None => JsNull
  end.

Definition nl : string := String (ascii_of_N 10) EmptyString.

Definition openai_prompt (name role : string) : string :=
  "Generate a comprehensive, professional bio (100-200 words) for a person named " +:+ name
  +:+ " who works as a " +:+ role
  +:+ ". The bio should be engaging, professional, and highlight their expertise, experience, and passion for their field. Include details about their skills, approach to work, and commitment to excellence. Do not include any personal information beyond what's provided.".

Definition openai_request (name role : string) : ChatRequest :=
  {| model := "gpt-3.5-turbo";
     messages :=
       [ {| role := "system";
            content := "You are a professional bio writer. Create detailed, engaging professional bios between 100-200 words that highlight expertise, experience, and passion without being overly promotional. Focus on professional qualities, skills, and work approach." |};
         {| role := "user"; content := openai_prompt name role |} ];
     max_tokens := 250;
     temperature := (7, 10);
     top_p := (1, 1);
     frequency_penalty := (0, 1);
     presence_penalty := (0, 1) |}.

Definition gemini_prompt (name role : string) : string :=
  "Generate a professional bio for " +:+ name +:+ " who is a " +:+ role +:+ ". " +:+ nl
  +:+ "      " +:+ nl
  +:+ "      Requirements:" +:+ nl
  +:+ "      - Write in third person" +:+ nl
  +:+ "      - Length: 100-200 words" +:+ nl
  +:+ "      - Professional tone" +:+ nl
  +:+ "      - Include expertise, experience, and key qualities" +:+ nl
  +:+ "      - Focus on professional achievements and skills" +:+ nl
  +:+ "      - Make it engaging and well-structured" +:+ nl
  +:+ "      " +:+ nl
  +:+ "      Do not include any formatting, just return the bio text.".

Section Service.
Context (orc : Oracles) (penv : gmap string string).

(** [constructor()] *)
Definition constructor : M AIService :=
  let openai_key := penv !! "OPENAI_API_KEY" in
  let gemini_key := penv !! "GEMINI_API_KEY" in
  openai ← (if truthy (of_env openai_key)
            then mret (Some {| apiKey := default "" openai_key |})
            else log Warn "OpenAI API key not provided. OpenAI features will be disabled.";;
                 mret None);
  if truthy (js_and (of_env gemini_key)
                    (JsBool (negb (strict_eq_string (of_env gemini_key) "your_gemini_api_key_here"))))
  then
    let g := {| gemini_apiKey := default "" gemini_key |} in
    mret {| openai := openai;
            gemini := Some g;
            geminiModel := Some {| model_owner := g; model_name := "gemini-2.5-flash" |} |}
  else
    log Warn "Gemini API key not provided. Gemini features will be disabled.";;
    mret {| openai := openai; gemini := None; geminiModel := None |}.

(** [this.openai.chat.completions.create(request)] *)
Definition chat_completions_create (client : OpenAIClient) (request : ChatRequest)
  : M ChatCompletion :=
  await (EvOpenAICreate client request)
        (fun w => openai_create orc (openai_calls w) client request).

(** [this.geminiModel.generateContent(prompt)] *)
Definition generateContent (gm : GenerativeModel) (prompt : string) : M GenerateContentResult :=
  await (EvGeminiGenerate gm prompt)
        (fun w => gemini_generateContent orc (gemini_calls w) gm prompt).

(** [this.sleep(ms)] *)
Definition sleep (ms : Z) : M unit := emit (EvSleep ms).

(** [completion.choices[0].message.content.trim()]: an empty [choices]
    makes [choices[0]] undefined, a [null] content has no [trim]. *)
Definition first_content_trimmed (completion : ChatCompletion) : M string :=
  match choices completion with
  | [] => throw (new_TypeError "Cannot read properties of undefined (reading 'message')")
  | None :: _ => throw (new_TypeError "Cannot read properties of null (reading 'trim')")
  | Some text :: _ => mret (trim text)
  end.

(** [generateBioWithOpenAI(name, role)] *)
Definition generateBioWithOpenAI (this : AIService) (name role : string) : M string :=
  try_catch
    (client ← match openai this with
              | None => throw (new_Error "OpenAI client not initialized")
              | Some c => mret c
              end;
     completion ← chat_completions_create client (openai_request name role);
     bio ← first_content_trimmed completion;
     log Info ("Generated bio using OpenAI for " +:+ name +:+ " (" +:+ role +:+ ")");;
     mret bio)
    (fun error =>
       read error "message";;
       log Error "OpenAI bio generation failed:";;
       throw error).

(** [generateBioWithGemini(name, role)] *)
Definition generateBioWithGemini (this : AIService) (name role : string) : M string :=
  match geminiModel this with
  | None => throw (new_Error "Gemini API is not configured")
  | Some gm =>
      try_catch
        (result ← generateContent gm (gemini_prompt name role);
         text ← match result with
                | ResponseText t => mret t
                | ResponseTextThrows reason => throw reason
                end;
         let bio := trim text in
         log Info ("Generated bio using Gemini for " +:+ name +:+ " (" +:+ role +:+ ")");;
         mret bio)
        (fun error =>
           read error "message";;
           log Error "Gemini bio generation failed:";;
           throw error)
  end.

(** The test of line 160: [error.status === 401 || error.status === 403 ||
    error.code === 'invalid_api_key']. *)
Definition is_authentication_error (error : JsValue) : bool :=
  strict_eq_number (get error "status") 401
  || strict_eq_number (get error "status") 403
  || strict_eq_string (get error "code") "invalid_api_key".

(** The [for] loop of [generateBioWithRetry] from [attempt] on, followed by
    the code after the loop.  [fuel] bounds the number of iterations; the
    loop needs [maxRetries - attempt + 1] of them. *)
Fixpoint retry_from (this : AIService) (name role : string) (maxRetries baseDelay : Z)
    (fuel : nat) (attempt : Z) (lastError : JsValue) : M string :=
  let after_loop : M string :=
    log Error ("All " +:+ pretty maxRetries +:+ " OpenAI bio generation attempts failed");;
    throw lastError in
  match fuel with
  | O => after_loop
  | S fuel' =>
      if attempt <=? maxRetries then
        try_catch
          (log Info ("OpenAI bio generation attempt " +:+ pretty attempt +:+ "/"
                     +:+ pretty maxRetries +:+ " for " +:+ name +:+ " (" +:+ role +:+ ")");;
           generateBioWithOpenAI this name role)
          (fun error =>
             read error "message";;
             log Error ("OpenAI bio generation attempt " +:+ pretty attempt +:+ " failed:");;
             (if is_authentication_error error
              then log Error "Authentication error - not retrying";; throw error
              else mret tt);;
             (if attempt <? maxRetries
              then
                let delay := baseDelay * 2 ^ (attempt - 1) in
                log Info ("Retrying in " +:+ pretty delay +:+ "ms...");;
                sleep delay
              else mret tt);;
             retry_from this name role maxRetries baseDelay fuel' (attempt + 1) error)
      else after_loop
  end.

(** [generateBioWithRetry(name, role, maxRetries = 3, baseDelay = 1000)] *)
Definition generateBioWithRetry (this : AIService) (name role : string)
    (maxRetries baseDelay : Z) : M string :=
  retry_from this name role maxRetries baseDelay (Z.to_nat maxRetries) 1 JsUndefined.

(** [generateBio(name, role)] *)
Definition generateBio (this : AIService) (name role : string) : M string :=
  if truthy (js_and (of_env (penv !! "OPENAI_API_KEY")) (ref (openai this))) then
    try_catch
      (log Info "Attempting bio generation with OpenAI";;
       generateBioWithRetry this name role 3 1000)
      (fun error =>
         read error "message";;
         log Warn "OpenAI bio generation failed after retries, attempting Gemini fallback:";;
         if truthy (ref (geminiModel this)) then
           try_catch
             (log Info "Falling back to Gemini for bio generation";;
              generateBioWithGemini this name role)
             (fun geminiError =>
                openaiMessage ← read error "message";
                geminiMessage ← read geminiError "message";
                log Error "Both OpenAI and Gemini failed:";;
                throw (new_Error ("Bio generation failed: OpenAI (" +:+ to_string openaiMessage
                                  +:+ ") and Gemini (" +:+ to_string geminiMessage
                                  +:+ ") both failed")))
         else
           log Error "OpenAI failed and Gemini not configured";;
           throw error)
  else if truthy (ref (geminiModel this)) then
    log Info "OpenAI not configured, using Gemini for bio generation";;
    generateBioWithGemini this name role
  else
    let error :=
      new_Error "No AI service is configured. Please set either OPENAI_API_KEY or GEMINI_API_KEY environment variable." in
    log Error "No AI service configured";;
    throw error.

(** [getServiceStatus()] *)
Definition getServiceStatus (this : AIService) : JsValue :=
  let openaiConfigured :=
    truthy (js_and (of_env (penv !! "OPENAI_API_KEY")) (ref (openai this))) in
  let geminiConfigured :=
    truthy (js_and (js_and (of_env (penv !! "GEMINI_API_KEY"))
                           (JsBool (negb (strict_eq_string (of_env (penv !! "GEMINI_API_KEY"))
                                                           "your_gemini_api_key_here"))))
                   (ref (geminiModel this))) in
  JsObject (<["openai" := JsBool openaiConfigured]>
           (<["gemini" := JsBool geminiConfigured]>
           (<["hasAnyService" := js_or (JsBool openaiConfigured) (JsBool geminiConfigured)]>
           (<["fallback" := JsBool geminiConfigured]> ∅)))).

End Service.

(** [module.exports = new AIService()]: the instance the rest of the program
    uses is the one the constructor builds from the environment. *)
Definition instance (penv : gmap string string) : AIService :=
  match constructor penv [] with
  | (Ok this, _) => this
  | (Throw _, _) => {| openai := None; gemini := None; geminiModel := None |}
  end.

End AIService.

(* ===================================================================== *)
(** ** src/controllers/userController.js *)
(* ===================================================================== *)

Module UserController.
Import Js Sdk Eff AIService.

(** *** The regular expressions of [createUser] *)

Definition char_in (c : ascii) (set : string) : bool :=
  existsb (Ascii.eqb c) (list_ascii_of_string set).

(** [[a-zA-Z0-9]] *)
Definition is_alnum (c : ascii) : bool :=
  let n := N_of_ascii c in
  (((97 <=? n) && (n <=? 122)) || ((65 <=? n) && (n <=? 90)) || ((48 <=? n) && (n <=? 57)))%N.

(** The class of the local part: letters, digits and [.!#$%&'*+/=?^_`{|}~-]. *)
Definition is_local_char (c : ascii) : bool :=
  is_alnum c || char_in c ".!#$%&'*+/=?^_`{|}~-".

(** [[a-zA-Z0-9](?:[a-zA-Z0-9-]{0,61}[a-zA-Z0-9])?]: one to 63 letters,
    digits and hyphens, no hyphen at either end. *)
Definition is_label (l : string) : bool :=
  let cs := list_ascii_of_string l in
  match cs with
  | [] => false
  | first :: _ =>
      (length cs <=? 63)%nat
      && is_alnum first
      && is_alnum (List.last cs first)
      && forallb (fun c => is_alnum c || Ascii.eqb c "-") cs
  end.

(** The text before the first [sep] and the text after it. *)
Fixpoint break_at (sep : ascii) (s : string) : option (string * string) :=
  match s with
  | EmptyString => None
  | String c s' =>
      if Ascii.eqb c sep then Some (EmptyString, s')
      else match break_at sep s' with
           | Some (before, after) => Some (String c before, after)
           | None => None
           end
  end.

Fixpoint split_on (sep : ascii) (s : string) : list string :=
  match s with
  | EmptyString => [EmptyString]
  | String c s' =>
      if Ascii.eqb c sep then EmptyString :: split_on sep s'
      else match split_on sep s' with
           | [] => [String c EmptyString]
           | piece :: pieces => String c piece :: pieces
           end
  end.

(** [emailRegex.test(s)]: a non-empty local part, [@], and labels joined by
    dots.  The local class has no [@] and a label has no dot, so the string
    can only be cut at its first [@] and at every dot after it. *)
Definition emailRegex_test (s : string) : bool :=
  match break_at "@" s with
  | None => false
  | Some (local, domain) =>
      negb (String.eqb local "")
      && forallb is_local_char (list_ascii_of_string local)
      && forallb is_label (split_on "." domain)
  end.

(** [s.replace(/[.*+?^${}()|[\]\\]/g, '\\$&')] *)
Fixpoint escapeRegExp (s : string) : string :=
  match s with
  | EmptyString => EmptyString
  | String c s' =>
      if char_in c ".*+?^${}()|[]\" then String "\" (String c (escapeRegExp s'))
      else String c (escapeRegExp s')
  end.

Definition dquote : string := String (ascii_of_N 34) EmptyString.

(** *** Documents and bodies *)

(** [user.getPublicProfile()] of models/User.js *)
Definition getPublicProfile (u : UserDoc) : JsValue :=
  JsObject (<["id" := JsString (user__id u)]>
           (<["name" := JsString (user_name u)]>
           (<["role" := user_role u]>
           (<["email" := JsString (user_email u)]>
           (<["status" := JsString (user_status u)]>
           (<["bio" := JsString (user_bio u)]>
           (<["createdAt" := user_createdAt u]>
           (<["updatedAt" := user_updatedAt u]> ∅)))))))).

(** [user.bio = newBio] *)
Definition set_bio (u : UserDoc) (newBio : string) : UserDoc :=
  {| user__id := user__id u; user_name := user_name u; user_email := user_email u;
     user_role := user_role u; user_status := user_status u; user_bio := newBio;
     user_createdAt := user_createdAt u; user_updatedAt := user_updatedAt u |}.

Definition failure_body (error : string) : JsValue :=
  JsObject (<["success" := JsBool false]> (<["error" := JsString error]> ∅)).

Definition success_body (message : string) (data : JsValue) : JsValue :=
  JsObject (<["success" := JsBool true]>
           (<["message" := JsString message]>
           (<["data" := data]> ∅))).

(** [body.key] of a parsed request body *)
Definition field (body : gmap string JsValue) (key : string) : JsValue :=
  default JsUndefined (body !! key).

Section Handlers.
Context (orc : Oracles) (penv : gmap string string) (aiService : AIService).

(** [res.status(status).json(body)] *)
Definition respond (status : Z) (body : JsValue) : M unit := emit (EvRespond status body).

(** [next(error)] *)
Definition next (error : JsValue) : M unit := emit (EvNext error).

(** [Date.now()] *)
Definition now : M Z := fun w => (Ok (Date_now orc w), (w ++ [EvDateNow])%list).

(** [email.trim()] on a truthy value: only a string has the method. *)
Definition email_trim (email : JsValue) : M string :=
  match email with
  | JsString s => mret (trim s)
  | _ => throw (new_TypeError "email.trim is not a function")
  end.

(** [return res.status(status).json(body)] in the part of a handler that
    hands a value to the rest: [None] says that the handler has answered and
    returned. *)
Definition answered {A : Type} (status : Z) (body : JsValue) : M (option A) :=
  respond status body;; mret None.

(** Lines 14-107 of [createUser]: the checks on the email and on the role.
    The result is [None] when a check has answered the request, and the
    normalized email, the role and the reading of the clock when the [try]
    block of line 109 is entered. *)
Definition createUser_prepare (body : gmap string JsValue)
  : M (option (string * RoleDoc * Z)) :=
  log Info "=== Starting user creation process ===";;
  let name := field body "name" in
  let email := field body "email" in
  let role := field body "role" in
  log Info "Request data received:";;
  log Info "Starting comprehensive email validation...";;
  trimmed ← (if truthy email then email_trim email else mret "");
  if negb (truthy email) || String.eqb trimmed "" then
    log Error "Email validation failed: Email is required but not provided";;
    answered 400 (failure_body "Email is required and cannot be empty")
  else
    let normalizedEmail := toLowerCase trimmed in
    log Info ("Email normalized: " +:+ dquote +:+ to_string email +:+ dquote +:+ " -> "
              +:+ dquote +:+ normalizedEmail +:+ dquote);;
    if negb (emailRegex_test normalizedEmail) then
      log Error ("Email validation failed: Invalid email format - " +:+ normalizedEmail);;
      answered 400 (failure_body "Please provide a valid email address format")
    else if (254 <? String.length normalizedEmail)%nat then
      log Error ("Email validation failed: Email too long ("
                 +:+ pretty (String.length normalizedEmail) +:+ " characters, max 254)");;
      answered 400 (failure_body "Email address is too long (maximum 254 characters)")
    else
      log Info ("✓ Email format validation passed for: " +:+ normalizedEmail);;
      log Info ("Checking email uniqueness for: " +:+ normalizedEmail);;
      let pattern := "^" +:+ escapeRegExp normalizedEmail +:+ "$" in
      existingUser ← await (EvUserFindOne pattern "i")
                           (fun w => User_findOne orc w pattern "i");
      match existingUser with
      | Some _ =>
          log Warn "User creation failed: Email already exists in database";;
          answered 409
            (JsObject (<["success" := JsBool false]>
                      (<["error" := JsString "A user with this email address already exists"]>
                      (<["details" :=
                           JsObject (<["conflictField" := JsString "email"]>
                                    (<["conflictValue" := JsString normalizedEmail]> ∅))]> ∅))))
      | None =>
          log Info ("✓ Email uniqueness verified: " +:+ normalizedEmail
                    +:+ " is available for new user");;
          log Info ("Validating role ID: " +:+ to_string role);;
          roleInfo ← await (EvRoleFindById role) (fun w => Role_findById orc w role);
          match roleInfo with
          | None =>
              log Error ("Role validation failed: Invalid role ID provided - "
                         +:+ to_string role);;
              answered 400 (failure_body "Invalid role ID provided")
          | Some roleInfo =>
              log Info "✓ Role validated successfully:";;
              log Info ("Starting AI bio generation for user: " +:+ to_string name
                        +:+ " with role: " +:+ role_name roleInfo);;
              bioStartTime ← now;
              mret (Some (normalizedEmail, roleInfo, bioStartTime))
          end
      end.

(** Lines 109-180 of [createUser], the inner [try] block and its [catch]:
    generate the bio, then store the user and answer 201; whatever is thrown
    in between is logged and thrown again. *)
Definition createUser_generate_and_store (name : JsValue) (normalizedEmail : string)
    (roleInfo : RoleDoc) (bioStartTime : Z) : M unit :=
  try_catch
    (bio ← generateBio orc penv aiService (to_string name) (role_name roleInfo);
     bioEndTime ← now;
     log Info ("✓ AI bio generated successfully in " +:+ pretty (bioEndTime - bioStartTime)
               +:+ "ms:");;
     log Info "Creating user in database with data:";;
     userCreationStartTime ← now;
     user ← await (EvUserCreate name normalizedEmail (role__id roleInfo) bio)
                  (fun w => User_create orc w name normalizedEmail (role__id roleInfo) bio);
     userCreationEndTime ← now;
     log Info ("✓ User created in database successfully in "
               +:+ pretty (userCreationEndTime - userCreationStartTime) +:+ "ms:");;
     log Info "Populating role information for response...";;
     user ← await (EvUserPopulate user) (fun w => user_populate orc w user);
     log Info "✓ Role information populated:";;
     let publicProfile := getPublicProfile user in
     log Info "✓ Public profile generated:";;
     now;;
     log Info "=== User creation completed successfully ===";;
     respond 201 (success_body "User created successfully" publicProfile))
    (fun bioError =>
       read bioError "message";;
       log Error "AI bio generation failed:";;
       throw bioError).

(** [createUser(req, res, next)] with [body = req.body] *)
Definition createUser (body : gmap string JsValue) : M unit :=
  try_catch
    (prepared ← createUser_prepare body;
     match prepared with
     | None => mret tt
     | Some (normalizedEmail, roleInfo, bioStartTime) =>
         createUser_generate_and_store (field body "name") normalizedEmail roleInfo
                                       bioStartTime
     end)
    (fun error =>
       read error "message";;
       log Error "=== User creation process failed ===";;
       next error).

(** Lines 373-406 of [updateUser]: the role lookup and the update itself.
    The result is [None] when the handler has answered (unknown role,
    unknown user), and otherwise the updated document with
    [shouldRegenerateBio] and [roleInfo]. *)
Definition updateUser_lookup (id : JsValue) (body : gmap string JsValue)
  : M (option (UserDoc * bool * option RoleDoc)) :=
  let updates := delete "createdAt" (delete "__v" (delete "_id" body)) in
  let update_then (shouldRegenerateBio : bool) (roleInfo : option RoleDoc)
    : M (option (UserDoc * bool * option RoleDoc)) :=
    timestamp ← now;
    let update := <["updatedAt" := JsNumber timestamp]> updates in
    user ← await (EvUserFindByIdAndUpdate id update)
                 (fun w => User_findByIdAndUpdate orc w id update);
    match user with
    | None => answered 404 (failure_body "User not found")
    | Some user => mret (Some (user, shouldRegenerateBio, roleInfo))
    end in
  if truthy (field updates "role") then
    roleInfo ← await (EvRoleFindById (field updates "role"))
                     (fun w => Role_findById orc w (field updates "role"));
    match roleInfo with
    | None => answered 400 (failure_body "Invalid role ID provided")
    | Some roleInfo => update_then true (Some roleInfo)
    end
  else update_then false None.

(** Lines 408-419 of [updateUser]: the bio is regenerated when the role
    changed; a failure is logged as a warning and the handler goes on.  The
    result is the document as the handler holds it afterwards: [user.bio]
    is assigned before [user.save()] is awaited. *)
Definition updateUser_regenerate (user : UserDoc) (shouldRegenerateBio : bool)
    (roleInfo : option RoleDoc) : M UserDoc :=
  let failed (bioError : JsValue) (held : UserDoc) : M UserDoc :=
    read bioError "message";;
    log Warn "Failed to regenerate bio:";;
    mret held in
  match roleInfo with
  | Some roleInfo =>
      if shouldRegenerateBio then
        generated ← attempt
          (log Info ("Regenerating bio for user: " +:+ user_name user +:+ " ("
                     +:+ role_name roleInfo +:+ ")");;
           generateBio orc penv aiService (user_name user) (role_name roleInfo));
        match generated with
        | Ok newBio =>
            let user' := set_bio user newBio in
            try_catch
              (await (EvUserSave user') (fun w => user_save orc w user');; mret user')
              (fun bioError => failed bioError user')
        | Throw bioError => failed bioError user
        end
      else mret user
  | None => mret user
  end.

(** [updateUser(req, res, next)] with [id = req.params.id], [body = req.body] *)
Definition updateUser (id : JsValue) (body : gmap string JsValue) : M unit :=
  try_catch
    (found ← updateUser_lookup id body;
     match found with
     | None => mret tt
     | Some (user, shouldRegenerateBio, roleInfo) =>
         user ← updateUser_regenerate user shouldRegenerateBio roleInfo;
         log Info ("User updated successfully: " +:+ user__id user);;
         respond 200 (success_body "User updated successfully" (getPublicProfile user))
     end)
    (fun error =>
       read error "message";;
       log Error "Error updating user:";;
       next error).

(** [getAIStatus(req, res, next)] *)
Definition getAIStatus : M unit :=
  try_catch
    (let status := getServiceStatus penv aiService in
     respond 200
       (success_body "AI service status retrieved"
          (JsObject (<["services" := status]>
                    (<["configured" := js_or (get status "openai") (get status "huggingface")]>
                     ∅)))))
    (fun error =>
       read error "message";;
       log Error "Error getting AI status:";;
       next error).

End Handlers.

End UserController.

(* ===================================================================== *)
(** ** Vocabulary of the statements *)
(* ===================================================================== *)

Module Policy.
Import Js Sdk Eff AIService.

(** A credential is present when the environment variable is set to a
    non-empty string. *)
Definition credential_present (setting : option string) : Prop :=
  exists key, setting = Some key /\ key <> "".

(** The placeholder value of the Gemini credential. *)
Definition placeholder : string := "your_gemini_api_key_here".

(** Provider A (OpenAI) is configured: the test [generateBio] and
    [getServiceStatus] make. *)
Definition providerA_configured (penv : gmap string string) (this : AIService) : Prop :=
  truthy (js_and (of_env (penv !! "OPENAI_API_KEY")) (ref (openai this))) = true.

(** Provider B (Gemini) is configured: the test [generateBio] makes. *)
Definition providerB_configured (this : AIService) : Prop :=
  truthy (ref (geminiModel this)) = true.

(** A failure the retry loop retries: an error value (not [undefined] or
    [null]) that is not of the authentication class. *)
Definition retryable (e : JsValue) : Prop :=
  nullish e = false /\ is_authentication_error e = false.

(** Provider B's single call fails with [e]: the promise rejects, or the
    response's [text()] throws. *)
Definition gemini_fails_with (answer : Outcome GenerateContentResult) (e : JsValue) : Prop :=
  answer = Rejects e \/ answer = Resolves (ResponseTextThrows e).

(** Provider A, asked [attempts] more times from its call number [index]
    on, fails with [e]: by an authentication-class error on some attempt, or
    by a retryable error on the last one after retryable errors on all
    earlier ones. *)
Inductive primary_fails (orc : Oracles) (client : OpenAIClient) (request : ChatRequest)
  : nat -> nat -> JsValue -> Prop :=
| fails_non_retryable index attempts e :
    openai_create orc index client request = Rejects e ->
    is_authentication_error e = true ->
    primary_fails orc client request index (S attempts) e
| fails_exhausted index e :
    openai_create orc index client request = Rejects e ->
    retryable e ->
    primary_fails orc client request index 1 e
| fails_later index attempts e' e :
    openai_create orc index client request = Rejects e' ->
    retryable e' ->
    primary_fails orc client request (S index) (S attempts) e ->
    primary_fails orc client request index (S (S attempts)) e.

(** [needle] occurs in [text]. *)
Definition occurs_in (needle text : string) : Prop :=
  exists before after, text = before +:+ needle +:+ after.

(** The message of the error [generateBio] throws when no provider is
    configured. *)
Definition no_provider_message : string :=
  "No AI service is configured. Please set either OPENAI_API_KEY or GEMINI_API_KEY environment variable.".

(** The message of the error [generateBio] throws when both providers
    failed. *)
Definition both_failed_message (openaiMessage geminiMessage : string) : string :=
  "Bio generation failed: OpenAI (" +:+ openaiMessage +:+ ") and Gemini (" +:+ geminiMessage
  +:+ ") both failed".

(** What the service does to the outside, in the order it does it: it asks
    Provider A, it asks Provider B, it waits. *)
Inductive Action : Type :=
| AskA
| AskB
| Wait (ms : Z).

Definition actions (tr : Trace) : list Action :=
  omap (fun e => match e with
                 | EvOpenAICreate _ _ => Some AskA
                 | EvGeminiGenerate _ _ => Some AskB
                 | EvSleep ms => Some (Wait ms)
                 | _ => None
                 end) tr.

Definition asks_A (acts : list Action) : nat :=
  length (omap (fun a => match a with AskA => Some tt | _ => None end) acts).

Definition asks_B (acts : list Action) : nat :=
  length (omap (fun a => match a with AskB => Some tt | _ => None end) acts).

Definition waits (acts : list Action) : list Z :=
  omap (fun a => match a with Wait ms => Some ms | _ => None end) acts.

(** The schedule of a loop whose attempts [first], [first + 1], ... all fail
    with retryable errors: after each of the [retried] attempts that are not
    the last, a wait of [baseDelay * 2^(attempt - 1)]; then the last
    attempt. *)
Definition backoff_schedule (baseDelay : Z) (first retried : nat) : list Action :=
  flat_map (fun attempt => [AskA; Wait (baseDelay * 2 ^ (Z.of_nat attempt - 1))])
           (seq first retried)
  ++ [AskA].

(** The events of the bio-generation service: log records, provider calls
    and waits; nothing of the database or of the HTTP exchange. *)
Definition service_event (e : Event) : bool :=
  match e with
  | EvLog _ _ | EvOpenAICreate _ _ | EvGeminiGenerate _ _ | EvSleep _ => true
  | _ => false
  end.

(** A run that started at [w] and ended as [out] stayed within the service:
    it appended only events of the service, and if it threw, it threw an
    error value (not [undefined], not [null]). *)
Definition service_run {A : Type} (w : Trace) (out : Result A * Trace) : Prop :=
  (forall t, fst out = Throw t -> nullish t = false)
  /\ exists delta, snd out = w ++ delta /\ forallb service_event delta = true.

(** Between the traces [w] and [w'] the program went on from [w] and did
    exactly [acts] to the outside, in this order. *)
Definition performed (w w' : Trace) (acts : list Action) : Prop :=
  exists delta, w' = w ++ delta /\ actions delta = acts.

End Policy.

(* ===================================================================== *)
(** ** Scripted collaborators *)
(* ===================================================================== *)

(** Test doubles: provider clients that answer from a script, a database
    with one role and one user, and a clock that counts the events so far. *)
Module Scenario.
Import Js Sdk Eff AIService.

(** An error of the provider SDKs: an object with [status], [code] and
    [message]. *)
Definition api_error (status : Z) (code message : string) : JsValue :=
  JsObject (<["name" := JsString "Error"]>
           (<["status" := JsNumber status]>
           (<["code" := JsString code]>
           (<["message" := JsString message]> ∅)))).

Definition unauthorized : JsValue :=
  api_error 401 "invalid_api_key" "Incorrect API key provided".

Definition rate_limited : JsValue :=
  api_error 429 "rate_limit_exceeded" "Rate limit reached".

Definition overloaded : JsValue :=
  api_error 503 "server_error" "The server is overloaded".

Definition quota_exhausted : JsValue :=
  api_error 429 "RESOURCE_EXHAUSTED" "Quota exceeded".

Definition completion (text : string) : Outcome ChatCompletion :=
  Resolves {| choices := [Some text] |}.

Definition engineer : RoleDoc :=
  {| role__id := "64b000000000000000000001"; role_name := "ENGINEER";
     role_description := "Builds things" |}.

Definition ada : UserDoc :=
  {| user__id := "64a000000000000000000001"; user_name := "Ada";
     user_email := "ada@example.com"; user_role := JsString (role__id engineer);
     user_status := "ACTIVE"; user_bio := "An earlier bio.";
     user_createdAt := JsNumber 1; user_updatedAt := JsNumber 2 |}.

(** Provider A answers its n-th call with the n-th entry of [primary] and
    is rate limited afterwards; Provider B always answers [fallback]. *)
Definition scripted (primary : list (Outcome ChatCompletion))
    (fallback : Outcome GenerateContentResult) : Oracles :=
  {| openai_create := fun n _ _ => default (Rejects rate_limited) (primary !! n);
     gemini_generateContent := fun _ _ _ => fallback;
     Date_now := fun w => Z.of_nat (length w);
     Role_findById := fun _ id =>
       Resolves (if strict_eq_string id (role__id engineer) then Some engineer else None);
     User_findOne := fun _ _ _ => Resolves None;
     User_create := fun w name email role_id bio =>
       Resolves {| user__id := "64a000000000000000000002"; user_name := to_string name;
                   user_email := email; user_role := JsString role_id;
                   user_status := "ACTIVE"; user_bio := bio;
                   user_createdAt := JsNumber (Z.of_nat (length w));
                   user_updatedAt := JsNumber (Z.of_nat (length w)) |};
     user_populate := fun _ u => Resolves u;
     User_findByIdAndUpdate := fun _ id _ =>
       Resolves (if strict_eq_string id (user__id ada) then Some ada else None);
     user_save := fun _ _ => Resolves tt |}.

(** Two transient failures, then a bio. *)
Definition third_time_lucky : Oracles :=
  scripted [Rejects rate_limited; Rejects overloaded; completion "  Ada builds things.  "]
           (Rejects quota_exhausted).

(** Both providers fail every call. *)
Definition all_down : Oracles :=
  scripted [Rejects rate_limited; Rejects overloaded; Rejects rate_limited]
           (Rejects quota_exhausted).

(** Provider A rejects the key; Provider B answers. *)
Definition key_revoked : Oracles :=
  scripted [Rejects unauthorized] (Resolves (ResponseText " Ada, by Gemini. ")).

(** Provider A answers at once. *)
Definition healthy : Oracles :=
  scripted [completion "  Ada builds things.  "] (Resolves (ResponseText " Ada, by Gemini. ")).

(** The body of a POST /api/users and the id and body of a PUT
    /api/users/:id that changes the role. *)
Definition create_request : gmap string JsValue :=
  <["name" := JsString "Ada"]>
  (<["email" := JsString "  Ada@Example.com "]>
  (<["role" := JsString (role__id engineer)]> ∅)).

Definition update_id : JsValue := JsString (user__id ada).

Definition update_request : gmap string JsValue :=
  <["role" := JsString (role__id engineer)]> ∅.

Definition env_both : gmap string string :=
  <["OPENAI_API_KEY" := "sk-test"]> (<["GEMINI_API_KEY" := "g-test"]> ∅).

Definition env_openai_only : gmap string string :=
  <["OPENAI_API_KEY" := "sk-test"]> ∅.

Definition env_gemini_only : gmap string string :=
  <["GEMINI_API_KEY" := "g-test"]> ∅.

Definition env_placeholder : gmap string string :=
  <["OPENAI_API_KEY" := "sk-test"]> (<["GEMINI_API_KEY" := "your_gemini_api_key_here"]> ∅).

Definition env_none : gmap string string := ∅.

Definition test_client : OpenAIClient := {| apiKey := "sk-test" |}.

Definition test_model : GenerativeModel :=
  {| model_owner := {| gemini_apiKey := "g-test" |}; model_name := "gemini-2.5-flash" |}.

End Scenario.

(* ===================================================================== *)
(** ** src/controllers/userController.js, the other handlers *)
(* ===================================================================== *)

Module UserControllerRest.
Import Js Sdk Eff AIService UserController.

Section Handlers.
Context (orc : Oracles) (penv : gmap string string) (aiService : AIService).


End Handlers.

End UserControllerRest.

(* ===================================================================== *)
(** ** Vocabulary of the further statements *)
(* ===================================================================== *)

Module Conduct.
Import Js Sdk Eff AIService UserController Policy.

(** The database rejects with error values only, never with [undefined] or
    [null]. *)
Definition errors_only (orc : Oracles) : Prop :=
  (forall tr id r, Role_findById orc tr id = Rejects r -> nullish r = false)
  /\ (forall tr pattern flags r, User_findOne orc tr pattern flags = Rejects r -> nullish r = false)
  /\ (forall tr name email role bio r,
        User_create orc tr name email role bio = Rejects r -> nullish r = false)
  /\ (forall tr user r, user_populate orc tr user = Rejects r -> nullish r = false)
  /\ (forall tr id update r,
        User_findByIdAndUpdate orc tr id update = Rejects r -> nullish r = false)
  /\ (forall tr user r, user_save orc tr user = Rejects r -> nullish r = false).

(** What a handler did about its request in the events [delta]: it answered
    with one response of status [status], or it handed one error to
    [next]. *)
Inductive Settled : Type :=
| Answered (status : Z)
| Forwarded (error : JsValue).

Definition settled (delta : Trace) (how : Settled) : Prop :=
  match how with
  | Answered status =>
      exists body, responses delta = [(status, body)] /\ passed_to_next delta = []
  | Forwarded error => responses delta = [] /\ passed_to_next delta = [error]
  end.

(** The emails and role ids of the users that the events [delta] create. *)
Definition created (delta : Trace) : list (JsValue * string * string * string) :=
  omap (fun e => match e with
                 | EvUserCreate name email role_id bio => Some (name, email, role_id, bio)
                 | _ => None
                 end) delta.

(** The updates that the events [delta] send to the database. *)
Definition updates_sent (delta : Trace) : list (gmap string JsValue) :=
  omap (fun e => match e with
                 | EvUserFindByIdAndUpdate _ update => Some update
                 | _ => None
                 end) delta.

(** An attempt on Provider A fails transiently with [e]: the client rejects
    with a retryable error [e], or it answers with a completion the program
    cannot read (no choice at all, or a first choice without content), which
    makes the engine throw the [TypeError] [e]. *)
Definition transient (answer : Outcome ChatCompletion) (e : JsValue) : Prop :=
  (answer = Rejects e /\ retryable e)
  \/ (exists completion, answer = Resolves completion /\ choices completion = []
       /\ e = new_TypeError "Cannot read properties of undefined (reading 'message')")
  \/ (exists completion more, answer = Resolves completion
       /\ choices completion = None :: more
       /\ e = new_TypeError "Cannot read properties of null (reading 'trim')").

End Conduct.

(* ===================================================================== *)
(** ** Further scripted collaborators *)
(* ===================================================================== *)

Module Outages.
Import Js Sdk Eff AIService Scenario.

(** Provider A answers with a completion without choices, then with a
    choice without content, then is overloaded, then answers with a bio. *)
Definition garbled_then_fine : Oracles :=
  scripted [Resolves {| choices := [] |}; Resolves {| choices := [None] |};
            Rejects overloaded; completion "  Ada builds things.  "]
           (Rejects quota_exhausted).

(** Provider A is rate limited once, then rejects the key. *)
Definition revoked_midway : Oracles :=
  scripted [Rejects rate_limited; Rejects unauthorized]
           (Resolves (ResponseText " Ada, by Gemini. ")).

(** The providers answer at once, but the database refuses every write:
    [User.create] and [user.save()] reject with an error. *)
Definition storage_refuses : Oracles :=
  {| openai_create := openai_create healthy;
     gemini_generateContent := gemini_generateContent healthy;
     Date_now := Date_now healthy;
     Role_findById := Role_findById healthy;
     User_findOne := User_findOne healthy;
     User_create := fun _ _ _ _ _ =>
       Rejects (new_Error "E11000 duplicate key error collection: users index: email_1");
     user_populate := user_populate healthy;
     User_findByIdAndUpdate := User_findByIdAndUpdate healthy;
     user_save := fun _ _ => Rejects (new_Error "No matching document found for id") |}.

(** The body of a PUT /api/users/:id that changes the name only. *)
Definition rename_request : gmap string JsValue :=
  <["name" := JsString "Ada Lovelace"]> ∅.

End Outages.

(* ===================================================================== *)
(** ** Facts about the string methods *)
(* ===================================================================== *)

Module JsFacts.
Import Js UserController.

Example trim_example : trim "  Ada builds things.  " = "Ada builds things.".
Proof. reflexivity. Qed.

Example trim_inner_space_kept :
  trim (String (ascii_of_N 9) "a b" +:+ String (ascii_of_N 10) "") = "a b".
Proof. reflexivity. Qed.

Example toLowerCase_example : toLowerCase "Ada@Example.COM" = "ada@example.com".
Proof. reflexivity. Qed.

Example emailRegex_accepts :
  map emailRegex_test ["ada@example.com"; "a@b"; "x.y+z@sub.example.org"] = [true; true; true].
Proof. reflexivity. Qed.

Example emailRegex_rejects :
  map emailRegex_test [""; "ada"; "@b.com"; "a@-b.com"; "a@b..com"; "a b@c.com"; "a@b.c-"; "a@@b"]
  = [false; false; false; false; false; false; false; false].
Proof. reflexivity. Qed.

Example escapeRegExp_example : escapeRegExp "a.b+c@x.y" = "a\.b\+c@x\.y".
Proof. reflexivity. Qed.

Lemma append_assoc (s1 s2 s3 : string) : (s1 +:+ s2) +:+ s3 = s1 +:+ (s2 +:+ s3).
Proof.
  induction s1 as [| c s1 IH]; [reflexivity |].
  change (String c ((s1 +:+ s2) +:+ s3) = String c (s1 +:+ (s2 +:+ s3))). now rewrite IH.
Qed.

(** What [trimStart] leaves does not start with white space. *)
Lemma trimStart_head (s : string) (c : ascii) (rest : string) :
  trimStart s = String c rest -> isWhiteSpace c = false.
Proof.
  induction s as [| a s IH]; simpl; [discriminate |].
  destruct (isWhiteSpace a) eqn:Ha; [exact IH |].
  now intros [= <- _].
Qed.

(** [trimEnd] keeps the first character of what it leaves. *)
Lemma trimEnd_head (a : ascii) (s : string) :
  trimEnd (String a s) = EmptyString \/ exists rest, trimEnd (String a s) = String a rest.
Proof.
  simpl. destruct (trimEnd s); [destruct (isWhiteSpace a) |]; eauto.
Qed.

(** What [trimEnd] leaves does not end with white space. *)
Lemma trimEnd_last (s before : string) (c : ascii) :
  trimEnd s = before +:+ String c EmptyString -> isWhiteSpace c = false.
Proof.
  revert before. induction s as [| a s IH]; intros before; simpl.
  - destruct before; discriminate.
  - destruct (trimEnd s) as [| b r] eqn:E.
    + destruct (isWhiteSpace a) eqn:Ha.
      * destruct before; discriminate.
      * destruct before as [| a' before]; simpl.
        { now intros [= <-]. }
        { intros [= _ H]. destruct before; discriminate. }
    + destruct before as [| a' before]; simpl.
      * discriminate.
      * intros [= _ H]. exact (IH before H).
Qed.

Lemma trimEnd_idempotent (s : string) : trimEnd (trimEnd s) = trimEnd s.
Proof.
  induction s as [| a s IH]; [reflexivity |]. simpl.
  destruct (trimEnd s) as [| b r] eqn:E.
  - destruct (isWhiteSpace a) eqn:Ha; simpl; [reflexivity | now rewrite Ha].
  - change (trimEnd (String a (String b r))) with
      (match trimEnd (String b r) with
       | EmptyString => if isWhiteSpace a then EmptyString else String a EmptyString
       | t => String a t
       end).
    now rewrite IH.
Qed.

(** Trimming what is trimmed changes nothing. *)
Lemma trim_idempotent (s : string) : trim (trim s) = trim s.
Proof.
  unfold trim.
  assert (H : trimStart (trimEnd (trimStart s)) = trimEnd (trimStart s)).
  { destruct (trimStart s) as [| a x] eqn:E; [reflexivity |].
    pose proof (trimStart_head _ _ _ E) as Ha.
    destruct (trimEnd_head a x) as [-> | [rest ->]]; [reflexivity |].
    simpl. now rewrite Ha. }
  rewrite H. apply trimEnd_idempotent.
Qed.

(** A trimmed text has no white space at either end. *)
Lemma trim_ends (s : string) :
  (forall c rest, trim s = String c rest -> isWhiteSpace c = false)
  /\ (forall before c, trim s = before +:+ String c EmptyString -> isWhiteSpace c = false).
Proof.
  split.
  - intros c rest H. unfold trim in H.
    destruct (trimStart s) as [| a x] eqn:E; [discriminate |].
    pose proof (trimStart_head _ _ _ E) as Ha.
    destruct (trimEnd_head a x) as [H' | [r H']]; rewrite H' in H; [discriminate |].
    now injection H as <- _.
  - intros before c H. exact (trimEnd_last _ _ _ H).
Qed.

End JsFacts.

(* ===================================================================== *)
(** ** Facts about traces and about running a computation *)
(* ===================================================================== *)

Module TraceFacts.
Import Js Sdk Eff.

Lemma openai_calls_app (tr1 tr2 : Trace) :
  openai_calls (tr1 ++ tr2) = (openai_calls tr1 + openai_calls tr2)%nat.
Proof. unfold openai_calls, openai_requests. now rewrite omap_app, length_app. Qed.

Lemma gemini_calls_app (tr1 tr2 : Trace) :
  gemini_calls (tr1 ++ tr2) = (gemini_calls tr1 + gemini_calls tr2)%nat.
Proof. unfold gemini_calls, gemini_prompts. now rewrite omap_app, length_app. Qed.

Lemma sleeps_app (tr1 tr2 : Trace) : sleeps (tr1 ++ tr2) = sleeps tr1 ++ sleeps tr2.
Proof. apply omap_app. Qed.

Lemma user_creations_app (tr1 tr2 : Trace) :
  user_creations (tr1 ++ tr2) = (user_creations tr1 + user_creations tr2)%nat.
Proof. unfold user_creations. now rewrite omap_app, length_app. Qed.

Lemma user_saves_app (tr1 tr2 : Trace) :
  user_saves (tr1 ++ tr2) = (user_saves tr1 + user_saves tr2)%nat.
Proof. unfold user_saves. now rewrite omap_app, length_app. Qed.

Lemma responses_app (tr1 tr2 : Trace) : responses (tr1 ++ tr2) = responses tr1 ++ responses tr2.
Proof. apply omap_app. Qed.

Lemma passed_to_next_app (tr1 tr2 : Trace) :
  passed_to_next (tr1 ++ tr2) = passed_to_next tr1 ++ passed_to_next tr2.
Proof. apply omap_app. Qed.

End TraceFacts.

Module EffFacts.
Import Js Sdk Eff.

(** The laws of the monad, at every trace. *)
Lemma bind_ret_l {A B : Type} (a : A) (f : A -> M B) (w : Trace) : (mret a ≫= f) w = f a w.
Proof. reflexivity. Qed.

Lemma bind_ret_r {A : Type} (m : M A) (w : Trace) : (m ≫= mret) w = m w.
Proof. unfold mbind, M_bind. now destruct (m w) as [[a | t] w']. Qed.

Lemma bind_assoc {A B C : Type} (m : M A) (f : A -> M B) (g : B -> M C) (w : Trace) :
  ((m ≫= f) ≫= g) w = (m ≫= (fun a => f a ≫= g)) w.
Proof. unfold mbind, M_bind. now destruct (m w) as [[a | t] w']. Qed.

(** A handler is not run when the body returns, and sees what the body
    threw and the trace it left. *)
Lemma try_catch_returns {A : Type} (body : M A) (handler : JsValue -> M A) (w w' : Trace)
    (a : A) :
  body w = (Ok a, w') -> try_catch body handler w = (Ok a, w').
Proof. intros H. unfold try_catch. now rewrite H. Qed.

Lemma try_catch_throws {A : Type} (body : M A) (handler : JsValue -> M A) (w w' : Trace)
    (t : JsValue) :
  body w = (Throw t, w') -> try_catch body handler w = handler t w'.
Proof. intros H. unfold try_catch. now rewrite H. Qed.

Lemma read_not_nullish (v : JsValue) (key : string) (w : Trace) :
  nullish v = false -> read v key w = (Ok (get v key), w).
Proof. destruct v; simpl; intros H; try discriminate; reflexivity. Qed.

End EffFacts.

(* ===================================================================== *)
(** ** The bio-generation service *)
(* ===================================================================== *)

Module AIServiceFacts.
Import Js Sdk Eff AIService Policy TraceFacts EffFacts.

#[local] Arguments String.append : simpl never.
#[local] Arguments pretty : simpl never.

(** Unfold the combinators of one step of a computation. *)
Ltac run :=
  cbv beta iota zeta delta
    [mbind mret M_bind M_ret try_catch throw log emit await sleep attempt
     chat_completions_create generateContent first_content_trimmed].

(** Count the calls of a trace that ends in known events. *)
Ltac count :=
  rewrite ?openai_calls_app, ?gemini_calls_app, ?sleeps_app; simpl;
  rewrite ?Nat.add_0_r, ?app_nil_r.

(** The events a step appended are known: read the actions off them. *)
Ltac performed_now :=
  rewrite <- ?app_assoc; eexists; split; [reflexivity | reflexivity].

Lemma actions_app (tr1 tr2 : Trace) : actions (tr1 ++ tr2) = actions tr1 ++ actions tr2.
Proof. apply omap_app. Qed.

Lemma openai_calls_actions (tr : Trace) : openai_calls tr = asks_A (actions tr).
Proof.
  induction tr as [| e tr IH]; [reflexivity |].
  destruct e; simpl; try exact IH. unfold openai_calls, asks_A in *. simpl. now rewrite IH.
Qed.

Lemma gemini_calls_actions (tr : Trace) : gemini_calls tr = asks_B (actions tr).
Proof.
  induction tr as [| e tr IH]; [reflexivity |].
  destruct e; simpl; try exact IH. unfold gemini_calls, asks_B in *. simpl. now rewrite IH.
Qed.

Lemma sleeps_actions (tr : Trace) : sleeps tr = waits (actions tr).
Proof.
  induction tr as [| e tr IH]; [reflexivity |].
  destruct e; simpl; try exact IH. unfold sleeps, waits in *. simpl. now rewrite IH.
Qed.

Lemma asks_A_app (a b : list Action) : asks_A (a ++ b) = (asks_A a + asks_A b)%nat.
Proof. unfold asks_A. now rewrite omap_app, length_app. Qed.

Lemma asks_B_app (a b : list Action) : asks_B (a ++ b) = (asks_B a + asks_B b)%nat.
Proof. unfold asks_B. now rewrite omap_app, length_app. Qed.

Lemma performed_nothing (w : Trace) : performed w w [].
Proof. exists []. now rewrite app_nil_r. Qed.

Lemma performed_then (w1 w2 w3 : Trace) (a b : list Action) :
  performed w1 w2 a -> performed w2 w3 b -> performed w1 w3 (a ++ b).
Proof.
  intros (d1 & -> & <-) (d2 & -> & <-).
  exists (d1 ++ d2). now rewrite app_assoc, actions_app.
Qed.

(** What a run did, counted. *)
Lemma performed_calls (w w' : Trace) (acts : list Action) :
  performed w w' acts ->
  openai_calls w' = (openai_calls w + asks_A acts)%nat
  /\ gemini_calls w' = (gemini_calls w + asks_B acts)%nat
  /\ sleeps w' = sleeps w ++ waits acts.
Proof.
  intros (d & -> & <-).
  now rewrite openai_calls_app, gemini_calls_app, sleeps_app, (openai_calls_actions d),
    (gemini_calls_actions d), (sleeps_actions d).
Qed.

Lemma is_authentication_error_not_nullish (e : JsValue) :
  is_authentication_error e = true -> nullish e = false.
Proof. destruct e; simpl; try reflexivity; discriminate. Qed.

Section Service.
Context (orc : Oracles) (penv : gmap string string) (this : AIService).
Context (name role : string) (client : OpenAIClient).
Hypothesis Hclient : openai this = Some client.

Let request : ChatRequest := openai_request name role.

(** One call of the wrapper that the provider rejects: the rejection is
    logged and thrown again as it is. *)
Lemma generateBioWithOpenAI_rejected (e : JsValue) (w : Trace) :
  openai_create orc (openai_calls w) client request = Rejects e ->
  nullish e = false ->
  generateBioWithOpenAI orc this name role w
  = (Throw e, w ++ [EvOpenAICreate client request; EvLog Error "OpenAI bio generation failed:"]).
Proof.
  intros Ho Hn. unfold generateBioWithOpenAI. rewrite Hclient. run.
  fold request. rewrite Ho.
  rewrite (read_not_nullish _ _ _ Hn). now rewrite <- app_assoc.
Qed.

(** One call of the wrapper that the provider answers with a text: the
    trimmed text is returned. *)
Lemma generateBioWithOpenAI_resolved (text : string) (more : list (option string)) (w : Trace) :
  openai_create orc (openai_calls w) client request
  = Resolves {| choices := Some text :: more |} ->
  generateBioWithOpenAI orc this name role w
  = (Ok (trim text),
     w ++ [EvOpenAICreate client request;
           EvLog Info ("Generated bio using OpenAI for " +:+ name +:+ " (" +:+ role +:+ ")")]).
Proof.
  intros Ho. unfold generateBioWithOpenAI. rewrite Hclient. run. fold request. rewrite Ho.
  simpl. now rewrite <- app_assoc.
Qed.

Section Loop.
Context (maxRetries baseDelay : Z).

(** The loop is over: the last error is thrown. *)
Lemma retry_from_over (fuel : nat) (attempt : Z) (lastError : JsValue) (w : Trace) :
  maxRetries < attempt \/ fuel = 0%nat ->
  exists w',
    retry_from orc this name role maxRetries baseDelay fuel attempt lastError w
    = (Throw lastError, w') /\ performed w w' [].
Proof.
  intros H.
  exists (w ++ [EvLog Error ("All " +:+ pretty maxRetries
                             +:+ " OpenAI bio generation attempts failed")]).
  split; [| performed_now].
  destruct fuel as [| fuel]; [reflexivity |].
  destruct H as [H | H]; [| discriminate]. cbn [retry_from].
  apply Z.leb_gt in H. now rewrite H.
Qed.

(** An attempt that succeeds ends the loop with the trimmed text. *)
Lemma retry_from_succeeds (fuel : nat) (attempt : Z) (lastError : JsValue) (w : Trace)
    (text : string) (more : list (option string)) :
  attempt <= maxRetries ->
  openai_create orc (openai_calls w) client request
  = Resolves {| choices := Some text :: more |} ->
  exists w',
    retry_from orc this name role maxRetries baseDelay (S fuel) attempt lastError w
    = (Ok (trim text), w') /\ performed w w' [AskA].
Proof.
  intros Hle Ho. cbn [retry_from]. apply Z.leb_le in Hle. rewrite Hle. run.
  erewrite generateBioWithOpenAI_resolved by (count; exact Ho).
  eexists. split; [reflexivity | performed_now].
Qed.

(** An authentication-class error ends the loop at once: it is thrown
    again, and nothing is waited for. *)
Lemma retry_from_aborts (fuel : nat) (attempt : Z) (lastError e : JsValue) (w : Trace) :
  attempt <= maxRetries ->
  openai_create orc (openai_calls w) client request = Rejects e ->
  is_authentication_error e = true ->
  exists w',
    retry_from orc this name role maxRetries baseDelay (S fuel) attempt lastError w
    = (Throw e, w') /\ performed w w' [AskA].
Proof.
  intros Hle Ho Ha. cbn [retry_from]. apply Z.leb_le in Hle. rewrite Hle. run.
  pose proof (is_authentication_error_not_nullish _ Ha) as Hn.
  erewrite generateBioWithOpenAI_rejected by (count; eassumption).
  rewrite (read_not_nullish _ _ _ Hn). rewrite Ha.
  eexists. split; [reflexivity | performed_now].
Qed.

(** A retryable error before the last attempt: the loop waits
    [baseDelay * 2^(attempt - 1)] and goes on with the next attempt. *)
Lemma retry_from_waits (fuel : nat) (attempt : Z) (lastError e : JsValue) (w : Trace) :
  attempt < maxRetries ->
  openai_create orc (openai_calls w) client request = Rejects e ->
  retryable e ->
  exists w',
    retry_from orc this name role maxRetries baseDelay (S fuel) attempt lastError w
    = retry_from orc this name role maxRetries baseDelay fuel (attempt + 1) e w'
    /\ performed w w' [AskA; Wait (baseDelay * 2 ^ (attempt - 1))].
Proof.
  intros Hlt Ho [Hn Ha]. cbn [retry_from].
  assert (Hle : (attempt <=? maxRetries) = true) by (apply Z.leb_le; lia).
  apply Z.ltb_lt in Hlt. rewrite Hle. run.
  erewrite generateBioWithOpenAI_rejected by (count; eassumption).
  rewrite (read_not_nullish _ _ _ Hn). rewrite Ha, Hlt.
  eexists. split; [reflexivity | performed_now].
Qed.

(** A retryable error on the last attempt: no wait, the loop is left with
    this error as the last one. *)
Lemma retry_from_last (fuel : nat) (lastError e : JsValue) (w : Trace) :
  openai_create orc (openai_calls w) client request = Rejects e ->
  retryable e ->
  exists w',
    retry_from orc this name role maxRetries baseDelay (S fuel) maxRetries lastError w
    = (Throw e, w') /\ performed w w' [AskA].
Proof.
  intros Ho [Hn Ha]. cbn [retry_from].
  rewrite Z.leb_refl. run.
  erewrite generateBioWithOpenAI_rejected by (count; eassumption).
  rewrite (read_not_nullish _ _ _ Hn). rewrite Ha, Z.ltb_irrefl.
  match goal with |- context [retry_from _ _ _ _ _ _ fuel ?a ?l ?tr] =>
    destruct (retry_from_over fuel a l tr) as (w' & -> & Hp); [left; lia |] end.
  exists w'. split; [reflexivity |].
  refine (performed_then _ _ _ [AskA] [] _ Hp). performed_now.
Qed.

(** However Provider A fails within [attempts] more attempts, the loop
    throws the value it failed with, without touching Provider B. *)
Lemma retry_from_fails (index attempts : nat) (e : JsValue) :
  primary_fails orc client request index attempts e ->
  forall (fuel : nat) (attempt : Z) (lastError : JsValue) (w : Trace),
    openai_calls w = index ->
    (attempts <= fuel)%nat ->
    attempt = maxRetries - Z.of_nat attempts + 1 ->
    exists w' acts,
      retry_from orc this name role maxRetries baseDelay fuel attempt lastError w = (Throw e, w')
      /\ performed w w' acts /\ asks_B acts = 0%nat /\ (1 <= asks_A acts <= attempts)%nat.
Proof.
  induction 1 as [index attempts e Ho Ha | index e Ho Hr | index attempts e' e Ho Hr Hrest IH];
    intros fuel attempt lastError w Hw Hfuel Hattempt; subst index.
  - destruct fuel as [| fuel]; [lia |].
    destruct (retry_from_aborts fuel attempt lastError e w) as (w' & E & P); [lia | done | done |].
    exists w', [AskA]. split_and!; [done | done | done | change (asks_A [AskA]) with 1%nat; lia ..].
  - destruct fuel as [| fuel]; [lia |].
    assert (attempt = maxRetries) as -> by lia.
    destruct (retry_from_last fuel lastError e w) as (w' & E & P); [done | done |].
    exists w', [AskA]. split_and!; [done | done | done | change (asks_A [AskA]) with 1%nat; lia ..].
  - destruct fuel as [| fuel]; [lia |].
    destruct (retry_from_waits fuel attempt lastError e' w) as (w1 & E1 & P1);
      [lia | done | done |].
    destruct (performed_calls _ _ _ P1) as (Hc1 & _ & _).
    change (asks_A [AskA; Wait _]) with 1%nat in Hc1.
    destruct (IH fuel (attempt + 1) e' w1) as (w' & acts & E & P & HB & HA);
      [lia | lia | lia |].
    exists w', ([AskA; Wait (baseDelay * 2 ^ (attempt - 1))] ++ acts).
    split_and!; [congruence | exact (performed_then _ _ _ _ _ P1 P) | exact HB | |];
      rewrite asks_A_app;
      change (asks_A [AskA; Wait (baseDelay * 2 ^ (attempt - 1))]) with 1%nat; lia.
Qed.

(** When every attempt fails with a retryable error, the loop has waited
    [baseDelay * 2^(attempt - 1)] after every attempt but the last, and
    throws the error of the last attempt. *)
Lemma retry_from_exhausts (remaining : nat) :
  forall (first : nat) (fuel : nat) (lastError : JsValue) (w : Trace),
    maxRetries = Z.of_nat (first + remaining) ->
    (S remaining <= fuel)%nat ->
    (forall k, (k <= remaining)%nat ->
       exists e, openai_create orc (openai_calls w + k) client request = Rejects e /\ retryable e) ->
    exists e w',
      retry_from orc this name role maxRetries baseDelay fuel (Z.of_nat first) lastError w
      = (Throw e, w')
      /\ openai_create orc (openai_calls w + remaining) client request = Rejects e
      /\ performed w w' (backoff_schedule baseDelay first remaining).
Proof.
  induction remaining as [| remaining IH]; intros first fuel lastError w Hmax Hfuel Hall;
    (destruct fuel as [| fuel]; [lia |]).
  - destruct (Hall 0%nat) as (e & Ho & Hr); [lia |]. rewrite Nat.add_0_r in *.
    assert (Z.of_nat first = maxRetries) as -> by lia.
    destruct (retry_from_last fuel lastError e w) as (w' & E & P); [done | done |].
    now exists e, w'.
  - destruct (Hall 0%nat) as (e & Ho & Hr); [lia |]. rewrite Nat.add_0_r in Ho.
    destruct (retry_from_waits fuel (Z.of_nat first) lastError e w) as (w1 & E1 & P1);
      [lia | done | done |].
    destruct (performed_calls _ _ _ P1) as (Hc1 & _ & _).
    change (asks_A [AskA; Wait _]) with 1%nat in Hc1.
    destruct (IH (S first) fuel e w1) as (e' & w' & E & Ho' & P); [lia | lia | |].
    { intros k Hk. destruct (Hall (S k)) as (ek & Hek & Hrk); [lia |].
      exists ek. split; [| done]. rewrite Hc1.
      now replace (openai_calls w + 1 + k)%nat with (openai_calls w + S k)%nat by lia. }
    exists e', w'. split_and!.
    + rewrite E1. now replace (Z.of_nat first + 1) with (Z.of_nat (S first)) by lia.
    + rewrite Hc1 in Ho'.
      now replace (openai_calls w + S remaining)%nat
        with (openai_calls w + 1 + remaining)%nat by lia.
    + exact (performed_then _ _ _ _ _ P1 P).
Qed.

(** The loop of the model runs as long as the loop of the program: fuel
    beyond the attempts that are left changes nothing. *)
Lemma retry_from_enough_fuel (fuel : nat) :
  forall (fuel' : nat) (attempt : Z) (lastError : JsValue) (w : Trace),
    (Z.to_nat (maxRetries - attempt + 1) <= fuel)%nat ->
    (Z.to_nat (maxRetries - attempt + 1) <= fuel')%nat ->
    retry_from orc this name role maxRetries baseDelay fuel attempt lastError w
    = retry_from orc this name role maxRetries baseDelay fuel' attempt lastError w.
Proof.
  induction fuel as [| fuel IH]; intros fuel' attempt lastError w Hfuel Hfuel'.
  - destruct fuel' as [| fuel']; [reflexivity |]. cbn [retry_from].
    assert (H : (attempt <=? maxRetries) = false) by (apply Z.leb_gt; lia).
    now rewrite H.
  - cbn [retry_from]. destruct (attempt <=? maxRetries) eqn:Hle.
    + apply Z.leb_le in Hle. destruct fuel' as [| fuel']; [lia |].
      cbn [retry_from]. apply Z.leb_le in Hle. rewrite Hle. apply Z.leb_le in Hle. run.
      match goal with |- context [generateBioWithOpenAI _ _ _ _ ?tr] =>
        destruct (generateBioWithOpenAI orc this name role tr) as [[bio | error] w1] end;
        [reflexivity |].
      destruct (read error "message" w1) as [[x | t] w2]; [| reflexivity].
      destruct (is_authentication_error error); [reflexivity |].
      destruct (attempt <? maxRetries); apply IH; lia.
    + destruct fuel' as [| fuel']; [reflexivity |]. cbn [retry_from]. now rewrite Hle.
Qed.

End Loop.

(** [generateBioWithRetry] gives its loop all the iterations it needs. *)
Lemma generateBioWithRetry_unfold (maxRetries baseDelay : Z) (w : Trace) :
  generateBioWithRetry orc this name role maxRetries baseDelay w
  = retry_from orc this name role maxRetries baseDelay (Z.to_nat maxRetries) 1 JsUndefined w.
Proof. reflexivity. Qed.

(** Without a single attempt the loop throws its initial [lastError],
    [undefined]. *)
Lemma generateBioWithRetry_no_attempts (maxRetries baseDelay : Z) (w : Trace) :
  maxRetries <= 0 ->
  generateBioWithRetry orc this name role maxRetries baseDelay w
  = (Throw JsUndefined,
     w ++ [EvLog Error ("All " +:+ pretty maxRetries
                        +:+ " OpenAI bio generation attempts failed")]).
Proof.
  intros H. rewrite generateBioWithRetry_unfold.
  assert (Z.to_nat maxRetries = 0%nat) as -> by lia. reflexivity.
Qed.

(** The number of iterations [generateBioWithRetry] allows its loop is the
    number the loop needs. *)
Lemma generateBioWithRetry_fuel (maxRetries baseDelay : Z) (fuel : nat) (w : Trace) :
  (Z.to_nat maxRetries <= fuel)%nat ->
  retry_from orc this name role maxRetries baseDelay fuel 1 JsUndefined w
  = generateBioWithRetry orc this name role maxRetries baseDelay w.
Proof.
  intros H. rewrite generateBioWithRetry_unfold.
  apply retry_from_enough_fuel; lia.
Qed.

Example backoff_schedule_default :
  backoff_schedule 1000 1 2 = [AskA; Wait 1000; AskA; Wait 2000; AskA].
Proof. reflexivity. Qed.

Example backoff_schedule_four_attempts :
  backoff_schedule 1000 1 3 = [AskA; Wait 1000; AskA; Wait 2000; AskA; Wait 4000; AskA].
Proof. reflexivity. Qed.

(** The backoff schedule of the whole loop, for any number of attempts. *)
Lemma generateBioWithRetry_backoff (attempts : nat) (baseDelay : Z) (w : Trace) :
  (1 <= attempts)%nat ->
  (forall k, (k < attempts)%nat ->
     exists e, openai_create orc (openai_calls w + k) client request = Rejects e /\ retryable e) ->
  exists e w',
    generateBioWithRetry orc this name role (Z.of_nat attempts) baseDelay w = (Throw e, w')
    /\ openai_create orc (openai_calls w + (attempts - 1)) client request = Rejects e
    /\ performed w w' (backoff_schedule baseDelay 1 (attempts - 1)).
Proof.
  intros Hpos Hall. rewrite generateBioWithRetry_unfold, Nat2Z.id.
  destruct (retry_from_exhausts (Z.of_nat attempts) baseDelay (attempts - 1) 1 attempts
              JsUndefined w) as (e & w' & E & Ho & P); [lia | lia | |].
  { intros k Hk. apply Hall. lia. }
  now exists e, w'.
Qed.

(** With the default parameters: three attempts, however Provider A fails. *)
Lemma generateBioWithRetry_fails (e : JsValue) (w : Trace) :
  primary_fails orc client request (openai_calls w) 3 e ->
  exists w' acts,
    generateBioWithRetry orc this name role 3 1000 w = (Throw e, w')
    /\ performed w w' acts /\ asks_B acts = 0%nat /\ (1 <= asks_A acts <= 3)%nat.
Proof.
  intros H. rewrite generateBioWithRetry_unfold.
  apply (retry_from_fails 3 1000 _ _ _ H); [done | done | done].
Qed.

End Service.

Section Fallback.
Context (orc : Oracles) (this : AIService) (name role : string) (gm : GenerativeModel).
Hypothesis Hmodel : geminiModel this = Some gm.

(** Provider B answers with a text: the trimmed text is returned. *)
Lemma generateBioWithGemini_text (text : string) (w : Trace) :
  gemini_generateContent orc (gemini_calls w) gm (gemini_prompt name role)
  = Resolves (ResponseText text) ->
  exists w', generateBioWithGemini orc this name role w = (Ok (trim text), w')
             /\ performed w w' [AskB].
Proof.
  intros Ho. unfold generateBioWithGemini. rewrite Hmodel. run. rewrite Ho.
  eexists. split; [reflexivity | performed_now].
Qed.

(** Provider B fails with an error value: the value is thrown again. *)
Lemma generateBioWithGemini_fails (e : JsValue) (w : Trace) :
  gemini_fails_with
    (gemini_generateContent orc (gemini_calls w) gm (gemini_prompt name role)) e ->
  nullish e = false ->
  exists w', generateBioWithGemini orc this name role w = (Throw e, w')
             /\ performed w w' [AskB].
Proof.
  intros [Ho | Ho] Hn; unfold generateBioWithGemini; rewrite Hmodel; run; rewrite Ho;
    rewrite (read_not_nullish _ _ _ Hn);
    (eexists; split; [reflexivity | performed_now]).
Qed.

(** Whatever Provider B answers, the wrapper asks it exactly once. *)
Lemma generateBioWithGemini_once (w : Trace) :
  exists r w', generateBioWithGemini orc this name role w = (r, w') /\ performed w w' [AskB].
Proof.
  unfold generateBioWithGemini. rewrite Hmodel. run.
  destruct (gemini_generateContent orc (gemini_calls w) gm (gemini_prompt name role))
    as [[text | reason] | reason]; try destruct reason;
    (do 2 eexists; split; [reflexivity | performed_now]).
Qed.

End Fallback.
End AIServiceFacts.

(* ===================================================================== *)
(** ** The retry-then-fallback policy of [generateBio] *)
(* ===================================================================== *)

Module AIServiceSpec.
Import Js Sdk Eff AIService Policy JsFacts TraceFacts EffFacts AIServiceFacts.

#[local] Arguments String.append : simpl never.
#[local] Arguments pretty : simpl never.

Lemma providerB_configured_Some (this : AIService) :
  providerB_configured this <-> exists gm, geminiModel this = Some gm.
Proof.
  unfold providerB_configured. destruct (geminiModel this) as [gm |]; simpl; split.
  - intros _. now exists gm.
  - done.
  - done.
  - intros [gm H]. discriminate.
Qed.

Lemma providerB_not_configured (this : AIService) :
  ~ providerB_configured this -> geminiModel this = None.
Proof.
  intros H. destruct (geminiModel this) as [gm |] eqn:E; [| done].
  exfalso. apply H. unfold providerB_configured. now rewrite E.
Qed.

(** The test of line 160, in words. *)
Lemma is_authentication_error_spec (e : JsValue) :
  is_authentication_error e = true
  <-> get e "status" = JsNumber 401 \/ get e "status" = JsNumber 403
      \/ get e "code" = JsString "invalid_api_key".
Proof.
  unfold is_authentication_error. rewrite !orb_true_iff.
  assert (Hnum : forall v n, strict_eq_number v n = true <-> v = JsNumber n).
  { intros v n. destruct v; simpl; try (split; [discriminate | congruence]).
    rewrite Z.eqb_eq. split; congruence. }
  assert (Hstr : forall v s, strict_eq_string v s = true <-> v = JsString s).
  { intros v s. destruct v; simpl; try (split; [discriminate | congruence]).
    rewrite String.eqb_eq. split; congruence. }
  rewrite !Hnum, Hstr. tauto.
Qed.

Lemma has_message_not_nullish (e : JsValue) (m : string) :
  get e "message" = JsString m -> nullish e = false.
Proof. destruct e; simpl; try reflexivity; discriminate. Qed.

Lemma primary_fails_not_nullish (orc : Oracles) (client : OpenAIClient) (request : ChatRequest)
    (index attempts : nat) (e : JsValue) :
  primary_fails orc client request index attempts e -> nullish e = false.
Proof.
  induction 1 as [? ? ? _ Ha | ? ? _ [Hn _] | ]; [| done | done].
  now apply is_authentication_error_not_nullish.
Qed.

Lemma occurs_in_both_failed_message (mA mB : string) :
  occurs_in mA (both_failed_message mA mB) /\ occurs_in mB (both_failed_message mA mB).
Proof.
  unfold occurs_in, both_failed_message. split.
  - exists "Bio generation failed: OpenAI (", (") and Gemini (" +:+ mB +:+ ") both failed").
    reflexivity.
  - exists ("Bio generation failed: OpenAI (" +:+ mA +:+ ") and Gemini ("), ") both failed".
    now rewrite !append_assoc.
Qed.

Section GenerateBio.
Context (orc : Oracles) (penv : gmap string string) (this : AIService).
Context (name role : string).

Let request : ChatRequest := openai_request name role.

(** With Provider A configured, a successful primary call is the result. *)
Lemma generateBio_primary_returns (bio : string) (w w' : Trace) :
  providerA_configured penv this ->
  generateBioWithRetry orc this name role 3 1000
    (w ++ [EvLog Info "Attempting bio generation with OpenAI"]) = (Ok bio, w') ->
  generateBio orc penv this name role w = (Ok bio, w').
Proof.
  intros HA E. unfold generateBio. rewrite HA. run. now rewrite E.
Qed.

(** With Provider A configured and Provider B not, a failed primary call's
    error is thrown on. *)
Lemma generateBio_primary_throws_alone (e : JsValue) (w w' : Trace) :
  providerA_configured penv this ->
  geminiModel this = None ->
  nullish e = false ->
  generateBioWithRetry orc this name role 3 1000
    (w ++ [EvLog Info "Attempting bio generation with OpenAI"]) = (Throw e, w') ->
  exists w'', generateBio orc penv this name role w = (Throw e, w'')
              /\ performed w' w'' [].
Proof.
  intros HA HB Hn E. unfold generateBio. rewrite HA. run. rewrite E.
  rewrite (read_not_nullish _ _ _ Hn), HB. simpl.
  eexists. split; [reflexivity | performed_now].
Qed.

(** With both configured, a failed primary call is followed by the
    fallback call, whose completion decides. *)
Lemma generateBio_primary_throws_fallback (gm : GenerativeModel) (e : JsValue) (w w' : Trace) :
  providerA_configured penv this ->
  geminiModel this = Some gm ->
  nullish e = false ->
  generateBioWithRetry orc this name role 3 1000
    (w ++ [EvLog Info "Attempting bio generation with OpenAI"]) = (Throw e, w') ->
  exists w1, performed w' w1 [] /\
    generateBio orc penv this name role w
    = match generateBioWithGemini orc this name role w1 with
      | (Ok bio, w2) => (Ok bio, w2)
      | (Throw geminiError, w2) =>
          if nullish geminiError
          then (Throw (new_TypeError
                         ("Cannot read properties of "
                          +:+ to_string geminiError +:+ " (reading 'message')")), w2)
          else (Throw (new_Error (both_failed_message (to_string (get e "message"))
                                    (to_string (get geminiError "message")))),
                w2 ++ [EvLog Error "Both OpenAI and Gemini failed:"])
      end.
Proof.
  intros HA HB Hn E. unfold generateBio. rewrite HA. run. rewrite E.
  rewrite (read_not_nullish _ _ _ Hn), HB. simpl.
  exists (w' ++ [EvLog Warn "OpenAI bio generation failed after retries, attempting Gemini fallback:";
                 EvLog Info "Falling back to Gemini for bio generation"]).
  split; [performed_now |]. rewrite <- ?app_assoc. simpl.
  match goal with |- context [generateBioWithGemini _ _ _ _ ?tr] =>
    destruct (generateBioWithGemini orc this name role tr) as [[bio | geminiError] w2] end;
    [reflexivity |].
  rewrite (read_not_nullish _ _ _ Hn).
  destruct geminiError; reflexivity.
Qed.

Lemma performed_after_log (level : LogLevel) (message : string) (w w' : Trace)
    (acts : list Action) :
  performed (w ++ [EvLog level message]) w' acts -> performed w w' acts.
Proof.
  intros P. refine (performed_then _ _ _ [] acts _ P). performed_now.
Qed.

Lemma openai_calls_log (level : LogLevel) (message : string) (w : Trace) :
  openai_calls (w ++ [EvLog level message]) = openai_calls w.
Proof. now count. Qed.

Lemma gemini_calls_performed (w w' : Trace) (acts : list Action) :
  performed w w' acts -> asks_B acts = 0%nat -> gemini_calls w' = gemini_calls w.
Proof. intros P H. destruct (performed_calls _ _ _ P) as (_ & -> & _). lia. Qed.

Section Primary.
Context (client : OpenAIClient).
Hypothesis Hclient : openai this = Some client.

(** Two retryable failures with the default parameters: the loop has waited
    1000 ms and 2000 ms and is about to make its third and last attempt. *)
Lemma generateBioWithRetry_two_retries (e1 e2 : JsValue) (w : Trace) :
  openai_create orc (openai_calls w) client request = Rejects e1 -> retryable e1 ->
  openai_create orc (S (openai_calls w)) client request = Rejects e2 -> retryable e2 ->
  exists w2,
    generateBioWithRetry orc this name role 3 1000 w
    = retry_from orc this name role 3 1000 1 3 e2 w2
    /\ performed w w2 [AskA; Wait 1000; AskA; Wait 2000]
    /\ openai_calls w2 = S (S (openai_calls w)).
Proof.
  intros H1 R1 H2 R2. rewrite generateBioWithRetry_unfold.
  change (Z.to_nat 3) with 3%nat.
  destruct (retry_from_waits orc this name role client Hclient 3 1000 2 1 JsUndefined e1 w)
    as (w1 & E1 & P1); [lia | done | done |].
  destruct (performed_calls _ _ _ P1) as (C1 & _ & _).
  change (asks_A [AskA; Wait _]) with 1%nat in C1.
  destruct (retry_from_waits orc this name role client Hclient 3 1000 1 2 e1 e2 w1)
    as (w2 & E2 & P2); [lia | | done |].
  { rewrite C1, Nat.add_1_r. exact H2. }
  destruct (performed_calls _ _ _ P2) as (C2 & _ & _).
  change (asks_A [AskA; Wait _]) with 1%nat in C2.
  exists w2. split_and!.
  - rewrite E1. exact E2.
  - exact (performed_then _ _ _ _ _ P1 P2).
  - lia.
Qed.

(** Success on the third attempt. *)
Lemma generateBioWithRetry_third_time (e1 e2 : JsValue) (text : string)
    (more : list (option string)) (w : Trace) :
  openai_create orc (openai_calls w) client request = Rejects e1 -> retryable e1 ->
  openai_create orc (S (openai_calls w)) client request = Rejects e2 -> retryable e2 ->
  openai_create orc (S (S (openai_calls w))) client request
  = Resolves {| choices := Some text :: more |} ->
  exists w',
    generateBioWithRetry orc this name role 3 1000 w = (Ok (trim text), w')
    /\ performed w w' [AskA; Wait 1000; AskA; Wait 2000; AskA].
Proof.
  intros H1 R1 H2 R2 H3.
  destruct (generateBioWithRetry_two_retries e1 e2 w) as (w2 & E & P & C); [done .. |].
  destruct (retry_from_succeeds orc this name role client Hclient 3 1000 0 3 e2 w2 text more)
    as (w' & E' & P'); [lia | now rewrite C |].
  exists w'. split; [congruence |].
  exact (performed_then _ _ _ _ _ P P').
Qed.

(** Three retryable failures: the third error leaves the loop, and there
    was no third wait. *)
Lemma generateBioWithRetry_exhausted (e1 e2 e3 : JsValue) (w : Trace) :
  openai_create orc (openai_calls w) client request = Rejects e1 -> retryable e1 ->
  openai_create orc (S (openai_calls w)) client request = Rejects e2 -> retryable e2 ->
  openai_create orc (S (S (openai_calls w))) client request = Rejects e3 -> retryable e3 ->
  exists w',
    generateBioWithRetry orc this name role 3 1000 w = (Throw e3, w')
    /\ performed w w' [AskA; Wait 1000; AskA; Wait 2000; AskA].
Proof.
  intros H1 R1 H2 R2 H3 R3.
  destruct (generateBioWithRetry_two_retries e1 e2 w) as (w2 & E & P & C); [done .. |].
  destruct (retry_from_last orc this name role client Hclient 3 1000 0 e2 e3 w2)
    as (w' & E' & P'); [now rewrite C | done |].
  exists w'. split; [congruence |].
  exact (performed_then _ _ _ _ _ P P').
Qed.

(** An authentication-class error on the first attempt. *)
Lemma generateBioWithRetry_aborts (e : JsValue) (w : Trace) :
  openai_create orc (openai_calls w) client request = Rejects e ->
  is_authentication_error e = true ->
  exists w',
    generateBioWithRetry orc this name role 3 1000 w = (Throw e, w') /\ performed w w' [AskA].
Proof.
  intros H1 Ha. rewrite generateBioWithRetry_unfold. change (Z.to_nat 3) with 3%nat.
  apply (retry_from_aborts orc this name role client Hclient 3 1000 2 1 JsUndefined e w);
    [lia | done | done].
Qed.

(** Success on the first attempt. *)
Lemma generateBioWithRetry_first_time (text : string) (more : list (option string))
    (w : Trace) :
  openai_create orc (openai_calls w) client request
  = Resolves {| choices := Some text :: more |} ->
  exists w',
    generateBioWithRetry orc this name role 3 1000 w = (Ok (trim text), w')
    /\ performed w w' [AskA].
Proof.
  intros H1. rewrite generateBioWithRetry_unfold. change (Z.to_nat 3) with 3%nat.
  apply (retry_from_succeeds orc this name role client Hclient 3 1000 2 1 JsUndefined w
           text more); [lia | done].
Qed.

End Primary.
End GenerateBio.
Section Claims.
Context (orc : Oracles) (penv : gmap string string) (this : AIService).
Context (name role : string).

Let request : ChatRequest := openai_request name role.

Lemma providerA_not_configured :
  ~ providerA_configured penv this ->
  truthy (js_and (of_env (penv !! "OPENAI_API_KEY")) (ref (openai this))) = false.
Proof. unfold providerA_configured. now destruct (truthy _). Qed.

(** C7.  With Provider A configured, when its client answers the first
    attempt with a text, [generateBio] returns that text trimmed, and all it
    has done is ask Provider A once: no wait, no call to Provider B. *)
Theorem generateBio_first_attempt_succeeds (client : OpenAIClient) (text : string)
    (more : list (option string)) (w : Trace) :
  name <> "" -> role <> "" ->
  providerA_configured penv this ->
  openai this = Some client ->
  openai_create orc (openai_calls w) client request
  = Resolves {| choices := Some text :: more |} ->
  exists w',
    generateBio orc penv this name role w = (Ok (trim text), w')
    /\ performed w w' [AskA]
    /\ sleeps w' = sleeps w
    /\ gemini_calls w' = gemini_calls w.
Proof.
  intros _ _ HA Hc H1.
  destruct (generateBioWithRetry_first_time orc this name role client Hc text more
              (w ++ [EvLog Info "Attempting bio generation with OpenAI"]))
    as (w' & E & P); [now rewrite openai_calls_log |].
  apply performed_after_log in P.
  exists w'. split_and!; [now apply generateBio_primary_returns | exact P | |].
  - destruct (performed_calls _ _ _ P) as (_ & _ & ->). apply app_nil_r.
  - now apply (gemini_calls_performed _ _ _ P).
Qed.

(** C2.  With Provider A configured and the default parameters, after
    retryable failures of attempts 1 and 2: when attempt 3 succeeds,
    [generateBio] returns its text (trimmed), having waited 1000 ms after
    attempt 1 and 2000 ms after attempt 2, that is
    [baseDelay * 2^(attempt - 1)], and never calling Provider B; when
    attempt 3 fails with a retryable error as well, the loop waits no third
    time and ends with this last error. *)
Theorem generateBio_third_attempt (client : OpenAIClient) (e1 e2 : JsValue) (w : Trace) :
  name <> "" -> role <> "" ->
  providerA_configured penv this ->
  openai this = Some client ->
  openai_create orc (openai_calls w) client request = Rejects e1 -> retryable e1 ->
  openai_create orc (S (openai_calls w)) client request = Rejects e2 -> retryable e2 ->
  (forall text more,
     openai_create orc (S (S (openai_calls w))) client request
     = Resolves {| choices := Some text :: more |} ->
     exists w',
       generateBio orc penv this name role w = (Ok (trim text), w')
       /\ performed w w' [AskA; Wait (1000 * 2 ^ (1 - 1)); AskA; Wait (1000 * 2 ^ (2 - 1)); AskA]
       /\ sleeps w' = sleeps w ++ [1000; 2000]
       /\ gemini_calls w' = gemini_calls w)
  /\ (forall e3,
        openai_create orc (S (S (openai_calls w))) client request = Rejects e3 ->
        retryable e3 ->
        exists w',
          generateBioWithRetry orc this name role 3 1000 w = (Throw e3, w')
          /\ performed w w' [AskA; Wait 1000; AskA; Wait 2000; AskA]).
Proof.
  intros _ _ HA Hc H1 R1 H2 R2. split.
  - intros text more H3.
    destruct (generateBioWithRetry_third_time orc this name role client Hc e1 e2 text more
                (w ++ [EvLog Info "Attempting bio generation with OpenAI"]))
      as (w' & E & P); [rewrite ?openai_calls_log; done .. |].
    apply performed_after_log in P.
    exists w'. split_and!.
    + now apply generateBio_primary_returns.
    + exact P.
    + now destruct (performed_calls _ _ _ P) as (_ & _ & ->).
    + now apply (gemini_calls_performed _ _ _ P).
  - intros e3 H3 R3. now apply (generateBioWithRetry_exhausted orc this name role client Hc e1 e2).
Qed.

(** C1.  With Provider A configured, when its client fails the first
    attempt with an authentication-class error (status 401, status 403 or
    code 'invalid_api_key'), the retry loop throws it at once: one call to
    Provider A and no wait.  [generateBio] then asks Provider B exactly once
    if it is configured (and not at all otherwise). *)
Theorem generateBio_authentication_error (client : OpenAIClient) (e : JsValue) (w : Trace) :
  name <> "" -> role <> "" ->
  providerA_configured penv this ->
  openai this = Some client ->
  openai_create orc (openai_calls w) client request = Rejects e ->
  get e "status" = JsNumber 401 \/ get e "status" = JsNumber 403
  \/ get e "code" = JsString "invalid_api_key" ->
  (exists w', generateBioWithRetry orc this name role 3 1000 w = (Throw e, w')
              /\ performed w w' [AskA])
  /\ (providerB_configured this ->
      exists r w', generateBio orc penv this name role w = (r, w')
                   /\ performed w w' [AskA; AskB])
  /\ (~ providerB_configured this ->
      exists w', generateBio orc penv this name role w = (Throw e, w')
                 /\ performed w w' [AskA]).
Proof.
  intros _ _ HA Hc H1 Hauth. apply is_authentication_error_spec in Hauth.
  pose proof (is_authentication_error_not_nullish _ Hauth) as Hn.
  destruct (generateBioWithRetry_aborts orc this name role client Hc e
              (w ++ [EvLog Info "Attempting bio generation with OpenAI"]))
    as (w1 & E1 & P1); [now rewrite openai_calls_log | done |].
  apply performed_after_log in P1.
  split_and!.
  - now apply (generateBioWithRetry_aborts orc this name role client Hc).
  - intros [gm HB]%providerB_configured_Some.
    destruct (generateBio_primary_throws_fallback orc penv this name role gm e w w1)
      as (w2 & P2 & E2); [done .. |].
    destruct (generateBioWithGemini_once orc this name role gm HB w2) as (r & w3 & E3 & P3).
    pose proof (performed_then _ _ _ _ _ (performed_then _ _ _ _ _ P1 P2) P3) as P.
    rewrite E3 in E2. destruct r as [bio | geminiError].
    + exists (Ok bio), w3. split; [exact E2 | exact P].
    + destruct (nullish geminiError); [eexists _, w3; split; [exact E2 | exact P] |].
      eexists _, _. split; [exact E2 |].
      refine (performed_then _ _ _ [AskA; AskB] [] P _). performed_now.
  - intros HB%providerB_not_configured.
    destruct (generateBio_primary_throws_alone orc penv this name role e w w1)
      as (w2 & E2 & P2); [done .. |].
    exists w2. split; [done |]. exact (performed_then _ _ _ _ _ P1 P2).
Qed.

(** C3.  With both providers configured, when Provider A's three attempts
    fail with retryable errors and Provider B's single call fails too,
    [generateBio] throws a new error whose message is "Bio generation
    failed: OpenAI (mA) and Gemini (mB) both failed", [mA] being the message
    of Provider A's last error and [mB] the message of Provider B's. *)
Theorem generateBio_both_fail (client : OpenAIClient) (gm : GenerativeModel)
    (e1 e2 e3 eB : JsValue) (mA mB : string) (w : Trace) :
  name <> "" -> role <> "" ->
  providerA_configured penv this ->
  openai this = Some client ->
  geminiModel this = Some gm ->
  openai_create orc (openai_calls w) client request = Rejects e1 -> retryable e1 ->
  openai_create orc (S (openai_calls w)) client request = Rejects e2 -> retryable e2 ->
  openai_create orc (S (S (openai_calls w))) client request = Rejects e3 -> retryable e3 ->
  gemini_fails_with
    (gemini_generateContent orc (gemini_calls w) gm (gemini_prompt name role)) eB ->
  get e3 "message" = JsString mA ->
  get eB "message" = JsString mB ->
  exists w',
    generateBio orc penv this name role w
    = (Throw (new_Error (both_failed_message mA mB)), w')
    /\ occurs_in mA (both_failed_message mA mB)
    /\ occurs_in mB (both_failed_message mA mB)
    /\ performed w w' [AskA; Wait 1000; AskA; Wait 2000; AskA; AskB].
Proof.
  intros _ _ HA Hc HB H1 R1 H2 R2 H3 R3 HG HmA HmB.
  destruct (generateBioWithRetry_exhausted orc this name role client Hc e1 e2 e3
              (w ++ [EvLog Info "Attempting bio generation with OpenAI"]))
    as (w1 & E1 & P1); [rewrite ?openai_calls_log; done .. |].
  apply performed_after_log in P1.
  destruct (generateBio_primary_throws_fallback orc penv this name role gm e3 w w1)
    as (w2 & P2 & E2); [done | done | apply R3 | done |].
  pose proof (performed_then _ _ _ _ _ P1 P2) as P12.
  destruct (generateBioWithGemini_fails orc this name role gm HB eB w2) as (w3 & E3 & P3).
  { now rewrite (gemini_calls_performed _ _ _ P12). }
  { exact (has_message_not_nullish _ _ HmB). }
  rewrite E3, (has_message_not_nullish _ _ HmB), HmA, HmB in E2. simpl in E2.
  eexists. split; [exact E2 |].
  destruct (occurs_in_both_failed_message mA mB) as [OA OB]. split_and!; [done | done |].
  refine (performed_then _ _ _ [AskA; Wait 1000; AskA; Wait 2000; AskA; AskB] []
            (performed_then _ _ _ _ _ P12 P3) _).
  performed_now.
Qed.

(** C4.  With Provider A configured and Provider B not, however Provider A
    fails (an authentication-class error on some attempt, or retryable
    errors on all three), [generateBio] throws the very value Provider A's
    client rejected with, and Provider B is not called. *)
Theorem generateBio_propagates_primary_error (client : OpenAIClient) (e : JsValue)
    (w : Trace) :
  name <> "" -> role <> "" ->
  providerA_configured penv this ->
  openai this = Some client ->
  ~ providerB_configured this ->
  primary_fails orc client request (openai_calls w) 3 e ->
  exists w',
    generateBio orc penv this name role w = (Throw e, w')
    /\ gemini_calls w' = gemini_calls w.
Proof.
  intros _ _ HA Hc HB%providerB_not_configured HF.
  pose proof (primary_fails_not_nullish _ _ _ _ _ _ HF) as Hn.
  destruct (generateBioWithRetry_fails orc this name role client Hc e
              (w ++ [EvLog Info "Attempting bio generation with OpenAI"]))
    as (w1 & acts & E1 & P1 & HB1 & _); [now rewrite openai_calls_log |].
  apply performed_after_log in P1.
  destruct (generateBio_primary_throws_alone orc penv this name role e w w1)
    as (w2 & E2 & P2); [done .. |].
  exists w2. split; [done |].
  apply (gemini_calls_performed _ _ _ (performed_then _ _ _ _ _ P1 P2)).
  now rewrite asks_B_app, HB1.
Qed.

(** C5.  With no provider configured, [generateBio] throws the error "No AI
    service is configured. ..." and calls no provider. *)
Theorem generateBio_no_provider (w : Trace) :
  name <> "" -> role <> "" ->
  ~ providerA_configured penv this ->
  ~ providerB_configured this ->
  exists w',
    generateBio orc penv this name role w = (Throw (new_Error no_provider_message), w')
    /\ performed w w' [].
Proof.
  intros _ _ HA%providerA_not_configured HB%providerB_not_configured.
  unfold generateBio. rewrite HA, HB. simpl.
  eexists. split; [reflexivity | performed_now].
Qed.

(** C6.  With Provider A not configured and Provider B configured,
    [generateBio] calls Provider B exactly once, whatever it answers, never
    calls Provider A and never waits; it returns Provider B's text
    (trimmed), or throws the error Provider B failed with. *)
Theorem generateBio_fallback_only (gm : GenerativeModel) (w : Trace) :
  name <> "" -> role <> "" ->
  ~ providerA_configured penv this ->
  geminiModel this = Some gm ->
  (exists r w', generateBio orc penv this name role w = (r, w') /\ performed w w' [AskB])
  /\ (forall text,
        gemini_generateContent orc (gemini_calls w) gm (gemini_prompt name role)
        = Resolves (ResponseText text) ->
        fst (generateBio orc penv this name role w) = Ok (trim text))
  /\ (forall e,
        gemini_fails_with
          (gemini_generateContent orc (gemini_calls w) gm (gemini_prompt name role)) e ->
        nullish e = false ->
        fst (generateBio orc penv this name role w) = Throw e).
Proof.
  intros _ _ HA%providerA_not_configured HB.
  assert (E : generateBio orc penv this name role w
              = generateBioWithGemini orc this name role
                  (w ++ [EvLog Info "OpenAI not configured, using Gemini for bio generation"])).
  { unfold generateBio. rewrite HA, HB. reflexivity. }
  rewrite E. split_and!.
  - destruct (generateBioWithGemini_once orc this name role gm HB
                (w ++ [EvLog Info "OpenAI not configured, using Gemini for bio generation"]))
      as (r & w' & E' & P).
    exists r, w'. split; [done |]. exact (performed_after_log _ _ _ _ _ P).
  - intros text Ho.
    destruct (generateBioWithGemini_text orc this name role gm HB text
                (w ++ [EvLog Info "OpenAI not configured, using Gemini for bio generation"]))
      as (w' & -> & _); [| done].
    rewrite <- Ho. f_equal. now count.
  - intros e Ho Hn.
    destruct (generateBioWithGemini_fails orc this name role gm HB e
                (w ++ [EvLog Info "OpenAI not configured, using Gemini for bio generation"]))
      as (w' & -> & _); [| done | done].
    replace (gemini_calls _) with (gemini_calls w) by now count. exact Ho.
Qed.

End Claims.

Section Witnesses.
Import Scenario.

Lemma generateBio_first_attempt_succeeds_witness :
  exists w',
    generateBio healthy env_both (instance env_both) "Ada" "ENGINEER" []
    = (Ok "Ada builds things.", w')
    /\ performed [] w' [AskA]
    /\ sleeps w' = []
    /\ gemini_calls w' = 0%nat.
Proof.
  apply (generateBio_first_attempt_succeeds healthy env_both (instance env_both)
           "Ada" "ENGINEER" test_client "  Ada builds things.  " [] []);
    [discriminate | discriminate | reflexivity | reflexivity | reflexivity].
Defined.

Lemma generateBio_third_attempt_witness :
  (exists w',
     generateBio third_time_lucky env_both (instance env_both) "Ada" "ENGINEER" []
     = (Ok "Ada builds things.", w')
     /\ performed [] w' [AskA; Wait 1000; AskA; Wait 2000; AskA]
     /\ sleeps w' = [1000; 2000]
     /\ gemini_calls w' = 0%nat)
  /\ (exists w',
        generateBioWithRetry all_down (instance env_both) "Ada" "ENGINEER" 3 1000 []
        = (Throw rate_limited, w')
        /\ performed [] w' [AskA; Wait 1000; AskA; Wait 2000; AskA]).
Proof.
  split.
  - apply (proj1 (generateBio_third_attempt third_time_lucky env_both (instance env_both)
                    "Ada" "ENGINEER" test_client rate_limited overloaded []
                    ltac:(discriminate) ltac:(discriminate) eq_refl eq_refl
                    eq_refl (conj eq_refl eq_refl) eq_refl (conj eq_refl eq_refl))
             "  Ada builds things.  " []).
    reflexivity.
  - apply (proj2 (generateBio_third_attempt all_down env_both (instance env_both)
                    "Ada" "ENGINEER" test_client rate_limited overloaded []
                    ltac:(discriminate) ltac:(discriminate) eq_refl eq_refl
                    eq_refl (conj eq_refl eq_refl) eq_refl (conj eq_refl eq_refl))
             rate_limited); [reflexivity | split; reflexivity].
Defined.

Lemma generateBio_authentication_error_witness :
  (exists w', generateBioWithRetry key_revoked (instance env_both) "Ada" "ENGINEER" 3 1000 []
              = (Throw unauthorized, w')
              /\ performed [] w' [AskA])
  /\ (providerB_configured (instance env_both) ->
      exists r w', generateBio key_revoked env_both (instance env_both) "Ada" "ENGINEER" []
                   = (r, w') /\ performed [] w' [AskA; AskB])
  /\ (~ providerB_configured (instance env_both) ->
      exists w', generateBio key_revoked env_both (instance env_both) "Ada" "ENGINEER" []
                 = (Throw unauthorized, w')
                 /\ performed [] w' [AskA]).
Proof.
  apply (generateBio_authentication_error key_revoked env_both (instance env_both)
           "Ada" "ENGINEER" test_client unauthorized []);
    [discriminate | discriminate | reflexivity | reflexivity | reflexivity
    | left; reflexivity].
Defined.

Lemma generateBio_both_fail_witness :
  exists w',
    generateBio all_down env_both (instance env_both) "Ada" "ENGINEER" []
    = (Throw (new_Error (both_failed_message "Rate limit reached" "Quota exceeded")), w')
    /\ occurs_in "Rate limit reached"
         (both_failed_message "Rate limit reached" "Quota exceeded")
    /\ occurs_in "Quota exceeded"
         (both_failed_message "Rate limit reached" "Quota exceeded")
    /\ performed [] w' [AskA; Wait 1000; AskA; Wait 2000; AskA; AskB].
Proof.
  apply (generateBio_both_fail all_down env_both (instance env_both) "Ada" "ENGINEER"
           test_client test_model rate_limited overloaded rate_limited quota_exhausted
           "Rate limit reached" "Quota exceeded" []);
    [discriminate | discriminate | reflexivity | reflexivity | reflexivity
    | reflexivity | split; reflexivity | reflexivity | split; reflexivity
    | reflexivity | split; reflexivity | left; reflexivity | reflexivity | reflexivity].
Defined.

Lemma generateBio_propagates_primary_error_witness :
  exists w',
    generateBio all_down env_openai_only (instance env_openai_only) "Ada" "ENGINEER" []
    = (Throw rate_limited, w')
    /\ gemini_calls w' = gemini_calls [].
Proof.
  apply (generateBio_propagates_primary_error all_down env_openai_only
           (instance env_openai_only) "Ada" "ENGINEER" test_client rate_limited []);
    [discriminate | discriminate | reflexivity | reflexivity | discriminate |].
  apply (fails_later _ _ _ _ _ rate_limited); [reflexivity | split; reflexivity |].
  apply (fails_later _ _ _ _ _ overloaded); [reflexivity | split; reflexivity |].
  apply fails_exhausted; [reflexivity | split; reflexivity].
Defined.

Lemma generateBio_no_provider_witness :
  exists w',
    generateBio healthy env_none (instance env_none) "Ada" "ENGINEER" []
    = (Throw (new_Error no_provider_message), w')
    /\ performed [] w' [].
Proof.
  apply (generateBio_no_provider healthy env_none (instance env_none) "Ada" "ENGINEER" []);
    [discriminate | discriminate | discriminate | discriminate].
Defined.

Lemma generateBio_fallback_only_witness :
  (exists r w', generateBio healthy env_gemini_only (instance env_gemini_only)
                  "Ada" "ENGINEER" [] = (r, w')
                /\ performed [] w' [AskB])
  /\ fst (generateBio healthy env_gemini_only (instance env_gemini_only) "Ada" "ENGINEER" [])
     = Ok "Ada, by Gemini."
  /\ fst (generateBio all_down env_gemini_only (instance env_gemini_only) "Ada" "ENGINEER" [])
     = Throw quota_exhausted.
Proof.
  split_and!.
  - apply (generateBio_fallback_only healthy env_gemini_only (instance env_gemini_only)
             "Ada" "ENGINEER" test_model []);
      [discriminate | discriminate | discriminate | reflexivity].
  - apply (proj1 (proj2 (generateBio_fallback_only healthy env_gemini_only
                           (instance env_gemini_only) "Ada" "ENGINEER" test_model []
                           ltac:(discriminate) ltac:(discriminate) ltac:(discriminate)
                           eq_refl)) " Ada, by Gemini. ").
    reflexivity.
  - apply (proj2 (proj2 (generateBio_fallback_only all_down env_gemini_only
                           (instance env_gemini_only) "Ada" "ENGINEER" test_model []
                           ltac:(discriminate) ltac:(discriminate) ltac:(discriminate)
                           eq_refl)) quota_exhausted); [left; reflexivity | reflexivity].
Defined.

End Witnesses.
End AIServiceSpec.

(* ===================================================================== *)
(** ** What [generateBio] can throw and what it can touch *)
(* ===================================================================== *)

Module AIServiceFrame.
Import Js Sdk Eff AIService Policy TraceFacts EffFacts AIServiceFacts.

(** A finished run with known events. *)
Ltac finished :=
  split;
  [ intros t; simpl; first [discriminate | intros [= <-]; reflexivity]
  | eexists; split; [simpl; rewrite <- ?app_assoc; reflexivity | reflexivity] ].

Lemma service_run_after {A : Type} (w : Trace) (delta : Trace) (out : Result A * Trace) :
  forallb service_event delta = true ->
  service_run (w ++ delta) out -> service_run w out.
Proof.
  intros Hd [Ht (d & E & Hs)]. split; [exact Ht |].
  exists (delta ++ d). rewrite E, app_assoc, forallb_app, Hd, Hs. done.
Qed.

Lemma service_run_thrown {A : Type} (w w' : Trace) (t : JsValue) :
  service_run w (@Throw A t, w') -> nullish t = false.
Proof. intros [Ht _]. now apply Ht. Qed.

Lemma service_run_trace {A : Type} (w w' : Trace) (r : Result A) :
  service_run w (r, w') -> exists delta, w' = w ++ delta /\ forallb service_event delta = true.
Proof. intros [_ H]. exact H. Qed.

Section Service.
Context (orc : Oracles) (penv : gmap string string) (this : AIService) (name role : string).

Lemma generateBioWithOpenAI_service_run (w : Trace) :
  service_run w (generateBioWithOpenAI orc this name role w).
Proof.
  unfold generateBioWithOpenAI. destruct (openai this) as [client |]; run; [| finished].
  destruct (openai_create orc (openai_calls w) client (openai_request name role))
    as [[[| [text |] more]] | reason]; try finished.
  destruct reason; finished.
Qed.

Lemma generateBioWithGemini_service_run (w : Trace) :
  service_run w (generateBioWithGemini orc this name role w).
Proof.
  unfold generateBioWithGemini. destruct (geminiModel this) as [gm |]; run;
    [| split; [intros t [= <-]; reflexivity | exists []; now rewrite app_nil_r]].
  destruct (gemini_generateContent orc (gemini_calls w) gm (gemini_prompt name role))
    as [[text | reason] | reason]; try destruct reason; finished.
Qed.

Lemma retry_from_service_run (maxRetries baseDelay : Z) (fuel : nat) :
  forall (attempt : Z) (lastError : JsValue) (w : Trace),
    nullish lastError = false \/ (fuel <> 0%nat /\ attempt <= maxRetries) ->
    service_run w (retry_from orc this name role maxRetries baseDelay fuel attempt lastError w).
Proof.
  induction fuel as [| fuel IH]; intros attempt lastError w Hlast.
  - destruct Hlast as [Hlast | [? _]]; [| done]. simpl.
    split; [intros t [= <-]; exact Hlast |].
    eexists. split; [reflexivity | reflexivity].
  - cbn [retry_from]. destruct (attempt <=? maxRetries) eqn:Hle.
    + run.
      match goal with |- context [generateBioWithOpenAI _ _ _ _ ?tr] =>
        pose proof (generateBioWithOpenAI_service_run tr) as Hrun;
        destruct (generateBioWithOpenAI orc this name role tr) as [[bio | error] w1] end.
      * refine (service_run_after w _ _ _ Hrun). reflexivity.
      * pose proof (service_run_thrown _ _ _ Hrun) as Hn.
        destruct (service_run_trace _ _ _ Hrun) as (d1 & -> & Hd1).
        rewrite (read_not_nullish _ _ _ Hn).
        destruct (is_authentication_error error).
        { split; [intros t [= <-]; exact Hn |].
          eexists. split; [simpl; rewrite <- ?app_assoc; reflexivity |].
          simpl. rewrite forallb_app, Hd1. reflexivity. }
        destruct (attempt <? maxRetries).
        { match goal with |- context [retry_from _ _ _ _ _ _ fuel ?a ?l ?tr] =>
            pose proof (IH a l tr (or_introl Hn)) as Hrest;
            destruct (retry_from orc this name role maxRetries baseDelay fuel a l tr)
              as [r w2] end.
          rewrite <- !app_assoc in Hrest.
          refine (service_run_after w _ _ _ Hrest).
          simpl. rewrite forallb_app, Hd1. reflexivity. }
        { match goal with |- context [retry_from _ _ _ _ _ _ fuel ?a ?l ?tr] =>
            pose proof (IH a l tr (or_introl Hn)) as Hrest;
            destruct (retry_from orc this name role maxRetries baseDelay fuel a l tr)
              as [r w2] end.
          rewrite <- !app_assoc in Hrest.
          refine (service_run_after w _ _ _ Hrest).
          simpl. rewrite forallb_app, Hd1. reflexivity. }
    + destruct Hlast as [Hlast | [_ Hlast]]; [| apply Z.leb_gt in Hle; lia].
      split; [intros t [= <-]; exact Hlast |].
      eexists. split; [reflexivity | reflexivity].
Qed.

(** [generateBio] throws error values only and appends events of the
    service only. *)
Lemma generateBio_service_run (w : Trace) :
  service_run w (generateBio orc penv this name role w).
Proof.
  unfold generateBio.
  destruct (truthy (js_and (of_env (penv !! "OPENAI_API_KEY")) (ref (openai this)))).
  - run.
    match goal with |- context [generateBioWithRetry _ _ _ _ ?m ?b ?tr] =>
      pose proof (retry_from_service_run m b (Z.to_nat m) 1 JsUndefined tr) as Hrun;
      fold (generateBioWithRetry orc this name role m b tr) in Hrun;
      destruct (generateBioWithRetry orc this name role m b tr) as [[bio | error] w1] end.
    + refine (service_run_after w _ _ _ (Hrun _)); [reflexivity |]. right. done.
    + assert (Hrun' := Hrun (or_intror (conj (ltac:(done) : Z.to_nat 3 <> 0%nat)
                                             (ltac:(lia) : 1 <= 3)))).
      pose proof (service_run_thrown _ _ _ Hrun') as Hn.
      destruct (service_run_trace _ _ _ Hrun') as (d1 & -> & Hd1).
      rewrite (read_not_nullish _ _ _ Hn).
      destruct (geminiModel this) as [gm |] eqn:Hgm; simpl.
      * match goal with |- context [generateBioWithGemini _ _ _ _ ?tr] =>
          pose proof (generateBioWithGemini_service_run tr) as Hg;
          destruct (generateBioWithGemini orc this name role tr) as [[bio | geminiError] w2] end.
        { rewrite <- !app_assoc in Hg. refine (service_run_after w _ _ _ Hg).
          simpl. rewrite forallb_app, Hd1. reflexivity. }
        { pose proof (service_run_thrown _ _ _ Hg) as Hgn.
          destruct (service_run_trace _ _ _ Hg) as (d2 & -> & Hd2).
          rewrite (read_not_nullish _ _ _ Hn), (read_not_nullish _ _ _ Hgn).
          split; [intros t [= <-]; reflexivity |].
          eexists. split; [simpl; rewrite <- !app_assoc; reflexivity |].
          simpl. rewrite forallb_app, Hd1. simpl. rewrite forallb_app, Hd2. reflexivity. }
      * split; [intros t [= <-]; exact Hn |].
        eexists. split; [simpl; rewrite <- !app_assoc; reflexivity |].
        simpl. rewrite forallb_app, Hd1. reflexivity.
  - destruct (geminiModel this) as [gm |] eqn:Hgm; simpl.
    + run. refine (service_run_after w _ _ _ (generateBioWithGemini_service_run _)).
      reflexivity.
    + finished.
Qed.

End Service.
End AIServiceFrame.

(* ===================================================================== *)
(** ** The status report *)
(* ===================================================================== *)

Module StatusSpec.
Import Js Sdk Eff AIService UserController Policy TraceFacts EffFacts.

Lemma truthy_of_env (setting : option string) :
  truthy (of_env setting) = true <-> credential_present setting.
Proof.
  unfold credential_present. destruct setting as [key |]; simpl.
  - rewrite negb_true_iff, String.eqb_neq. split.
    + intros H. now exists key.
    + now intros (k & [= <-] & H).
  - split; [discriminate | now intros (k & H & _)].
Qed.

Lemma instance_openai (penv : gmap string string) :
  openai (instance penv)
  = if truthy (of_env (penv !! "OPENAI_API_KEY"))
    then Some {| apiKey := default "" (penv !! "OPENAI_API_KEY") |}
    else None.
Proof.
  unfold instance, constructor.
  destruct (truthy (of_env (penv !! "OPENAI_API_KEY")));
    cbv beta iota zeta delta [mbind mret M_bind M_ret log emit];
    destruct (truthy (js_and _ _)); reflexivity.
Qed.

Lemma instance_geminiModel (penv : gmap string string) :
  geminiModel (instance penv)
  = if truthy (js_and (of_env (penv !! "GEMINI_API_KEY"))
                      (JsBool (negb (strict_eq_string (of_env (penv !! "GEMINI_API_KEY"))
                                                      placeholder))))
    then Some {| model_owner := {| gemini_apiKey := default "" (penv !! "GEMINI_API_KEY") |};
                 model_name := "gemini-2.5-flash" |}
    else None.
Proof.
  unfold instance, constructor, placeholder.
  destruct (truthy (of_env (penv !! "OPENAI_API_KEY")));
    cbv beta iota zeta delta [mbind mret M_bind M_ret log emit];
    destruct (truthy (js_and _ _)); reflexivity.
Qed.

(** The four fields of the status object. *)
Lemma getServiceStatus_fields (penv : gmap string string) (this : AIService) :
  let a := truthy (js_and (of_env (penv !! "OPENAI_API_KEY")) (ref (openai this))) in
  let b :=
    truthy (js_and (js_and (of_env (penv !! "GEMINI_API_KEY"))
                           (JsBool (negb (strict_eq_string (of_env (penv !! "GEMINI_API_KEY"))
                                                           placeholder))))
                   (ref (geminiModel this))) in
  get (getServiceStatus penv this) "openai" = JsBool a
  /\ get (getServiceStatus penv this) "gemini" = JsBool b
  /\ get (getServiceStatus penv this) "hasAnyService" = JsBool (a || b)
  /\ get (getServiceStatus penv this) "fallback" = JsBool b
  /\ get (getServiceStatus penv this) "huggingface" = JsUndefined.
Proof.
  intros a b. unfold getServiceStatus, placeholder. fold a. unfold placeholder in b. fold b.
  cbn [get]. split_and!; try reflexivity.
  destruct a, b; reflexivity.
Qed.

(** C8.  The status object of the service built from an environment:
    [openai] is true iff the OpenAI credential is present, [gemini] is true
    iff the Gemini credential is present and is not the placeholder,
    [hasAnyService] is their disjunction and [fallback] equals [gemini]; and
    the object depends on nothing but the two credentials. *)
Theorem getServiceStatus_reflects_configuration (penv : gmap string string) :
  let status := getServiceStatus penv (instance penv) in
  (exists providerA providerB : bool,
     get status "openai" = JsBool providerA
     /\ get status "gemini" = JsBool providerB
     /\ get status "hasAnyService" = JsBool (providerA || providerB)
     /\ get status "fallback" = JsBool providerB
     /\ (providerA = true <-> credential_present (penv !! "OPENAI_API_KEY"))
     /\ (providerB = true <->
         credential_present (penv !! "GEMINI_API_KEY")
         /\ penv !! "GEMINI_API_KEY" <> Some placeholder))
  /\ (forall penv' : gmap string string,
        penv' !! "OPENAI_API_KEY" = penv !! "OPENAI_API_KEY" ->
        penv' !! "GEMINI_API_KEY" = penv !! "GEMINI_API_KEY" ->
        getServiceStatus penv' (instance penv') = status).
Proof.
  intros status. split.
  - destruct (getServiceStatus_fields penv (instance penv)) as (Ha & Hb & Hany & Hf & _).
    eexists _, _. split_and!; [exact Ha | exact Hb | exact Hany | exact Hf | |].
    + rewrite instance_openai, <- truthy_of_env.
      unfold js_and.
      destruct (truthy (of_env (penv !! "OPENAI_API_KEY"))) eqn:Hk; simpl; [done |].
      rewrite Hk. split; discriminate.
    + clear. rewrite instance_geminiModel, <- truthy_of_env. unfold placeholder.
      destruct (penv !! "GEMINI_API_KEY") as [key |]; [| simpl; intuition congruence].
      unfold js_and, of_env, strict_eq_string, truthy, ref.
      destruct (String.eqb_spec key "") as [-> | Hempty];
        [simpl; intuition congruence |].
      destruct (String.eqb_spec key "your_gemini_api_key_here") as [-> | Hp];
        simpl; intuition congruence.
  - intros penv' HA HB. subst status.
    unfold getServiceStatus. rewrite !instance_openai, !instance_geminiModel, HA, HB.
    reflexivity.
Qed.

(** The answer of the handler, for any service object: status 200, the
    status object under [data.services], and [data.configured] computed as
    [status.openai || status.huggingface]. *)
Lemma getAIStatus_responds (penv : gmap string string) (this : AIService) (w : Trace) :
  let status := getServiceStatus penv this in
  exists body,
    getAIStatus penv this w = (Ok tt, w ++ [EvRespond 200 body])
    /\ get (get body "data") "services" = status
    /\ get (get body "data") "configured"
       = js_or (get status "openai") (get status "huggingface").
Proof.
  intros status.
  exists (success_body "AI service status retrieved"
            (JsObject (<["services" := status]>
                      (<["configured" := js_or (get status "openai")
                                               (get status "huggingface")]> ∅)))).
  split_and!; reflexivity.
Qed.

(** The status object is made of the four fields [openai], [gemini],
    [hasAnyService] and [fallback], and of nothing else. *)
Lemma getServiceStatus_shape (penv : gmap string string) (this : AIService) :
  exists providerA providerB : bool,
    getServiceStatus penv this
    = JsObject (<["openai" := JsBool providerA]>
               (<["gemini" := JsBool providerB]>
               (<["hasAnyService" := JsBool (providerA || providerB)]>
               (<["fallback" := JsBool providerB]> ∅)))).
Proof.
  unfold getServiceStatus.
  set (a := truthy (js_and (of_env (penv !! "OPENAI_API_KEY")) (ref (openai this)))).
  set (b := truthy (js_and (js_and _ _) (ref (geminiModel this)))).
  exists a, b. destruct a, b; reflexivity.
Qed.

(** On the instance the constructor builds, Provider A passes the test of
    [generateBio] and [getServiceStatus] exactly when its credential is
    present. *)
Lemma providerA_configured_instance (penv : gmap string string) :
  providerA_configured penv (instance penv) <-> credential_present (penv !! "OPENAI_API_KEY").
Proof.
  unfold providerA_configured. rewrite instance_openai, <- truthy_of_env.
  unfold js_and.
  destruct (truthy (of_env (penv !! "OPENAI_API_KEY"))) eqn:Hk; simpl; [done |].
  rewrite Hk. split; discriminate.
Qed.

(** C10.  For every environment, on the service instance the constructor
    builds from it, the handler answers 200 with the status object under
    [data.services] and with [data.configured] computed as
    [status.openai || status.huggingface].  The status object consists of
    the four fields [openai], [gemini], [hasAnyService] and [fallback] and
    has no [huggingface] field, so [configured] is [true] exactly when the
    OpenAI credential is present, and is [undefined] otherwise.  In
    particular, in a Gemini-only configuration (no OpenAI credential, a
    Gemini credential that is present and is not the placeholder)
    [hasAnyService] is [true] and yet [configured] is [undefined], not
    [true]. *)
Theorem getAIStatus_configured_field (penv : gmap string string) (w : Trace) :
  let this := instance penv in
  let status := getServiceStatus penv this in
  exists body,
    let configured := get (get body "data") "configured" in
    getAIStatus penv this w = (Ok tt, w ++ [EvRespond 200 body])
    /\ get (get body "data") "services" = status
    /\ configured = js_or (get status "openai") (get status "huggingface")
    /\ (exists providerA providerB : bool,
          status = JsObject (<["openai" := JsBool providerA]>
                            (<["gemini" := JsBool providerB]>
                            (<["hasAnyService" := JsBool (providerA || providerB)]>
                            (<["fallback" := JsBool providerB]> ∅)))))
    /\ get status "huggingface" = JsUndefined
    /\ (configured = JsBool true <-> providerA_configured penv this)
    /\ (configured = JsBool true <-> credential_present (penv !! "OPENAI_API_KEY"))
    /\ (~ credential_present (penv !! "OPENAI_API_KEY") -> configured = JsUndefined)
    /\ (~ credential_present (penv !! "OPENAI_API_KEY") ->
        credential_present (penv !! "GEMINI_API_KEY") ->
        penv !! "GEMINI_API_KEY" <> Some placeholder ->
        get status "openai" = JsBool false
        /\ get status "gemini" = JsBool true
        /\ get status "hasAnyService" = JsBool true
        /\ get status "fallback" = JsBool true
        /\ configured = JsUndefined
        /\ configured <> JsBool true).
Proof.
  intros this status.
  destruct (getAIStatus_responds penv this w) as (body & Hrun & Hservices & Hconfigured).
  fold status in Hservices, Hconfigured.
  exists body. intros configured. fold configured in Hconfigured.
  destruct (getServiceStatus_fields penv this) as (Ha & Hb & Hany & Hf & Hh).
  fold status in Ha, Hb, Hany, Hf, Hh.
  assert (HA : configured = JsBool true <-> providerA_configured penv this).
  { rewrite Hconfigured, Ha, Hh. unfold providerA_configured, js_or.
    destruct (truthy (js_and (of_env (penv !! "OPENAI_API_KEY")) (ref (openai this))));
      simpl; split; done. }
  assert (HU : ~ providerA_configured penv this -> configured = JsUndefined).
  { rewrite Hconfigured, Ha, Hh. unfold providerA_configured, js_or.
    destruct (truthy (js_and (of_env (penv !! "OPENAI_API_KEY")) (ref (openai this))));
      simpl; done. }
  assert (HI := providerA_configured_instance penv). fold this in HI.
  split_and!; try done.
  - apply getServiceStatus_shape.
  - now rewrite HA.
  - intros Hno. apply HU. now rewrite HI.
  - intros Hno Hkey Hreal.
    assert (Hnot : ~ providerA_configured penv this) by now rewrite HI.
    assert (HB : truthy (js_and (js_and (of_env (penv !! "GEMINI_API_KEY"))
                   (JsBool (negb (strict_eq_string (of_env (penv !! "GEMINI_API_KEY"))
                                                   placeholder))))
                   (ref (geminiModel this))) = true).
    { unfold this. rewrite instance_geminiModel.
      destruct Hkey as (key & Hsome & Hfull). rewrite Hsome in Hreal |- *.
      unfold js_and, of_env, strict_eq_string, truthy, ref.
      destruct (String.eqb_spec key "") as [-> | _]; [done |].
      destruct (String.eqb_spec key placeholder) as [-> | _]; [done |].
      reflexivity. }
    rewrite Ha, Hb, Hany, Hf, HB. unfold providerA_configured in Hnot.
    apply not_true_is_false in Hnot. rewrite Hnot.
    split_and!; try reflexivity.
    + apply HU. unfold providerA_configured. now rewrite Hnot.
    + rewrite HU; [discriminate |]. unfold providerA_configured. now rewrite Hnot.
Qed.

(** The Gemini-only environment of the scenarios reaches the last case. *)
Lemma getAIStatus_configured_field_witness :
  exists body,
    getAIStatus Scenario.env_gemini_only (instance Scenario.env_gemini_only) []
    = (Ok tt, [EvRespond 200 body])
    /\ get (getServiceStatus Scenario.env_gemini_only (instance Scenario.env_gemini_only))
           "hasAnyService" = JsBool true
    /\ get (get body "data") "configured" = JsUndefined.
Proof.
  destruct (getAIStatus_configured_field Scenario.env_gemini_only [])
    as (body & Hrun & _ & _ & _ & _ & _ & _ & _ & Hgemini).
  exists body. split; [exact Hrun |].
  destruct Hgemini as (_ & _ & Hany & _ & Hconfigured & _).
  - intros (key & Hsome & _). vm_compute in Hsome. discriminate Hsome.
  - exists "g-test". split; [reflexivity | discriminate].
  - vm_compute. discriminate.
  - split; [exact Hany | exact Hconfigured].
Defined.

End StatusSpec.

(* ===================================================================== *)
(** ** The handlers *)
(* ===================================================================== *)

Module UserControllerSpec.
Import Js Sdk Eff AIService UserController Policy TraceFacts EffFacts AIServiceFacts
  AIServiceFrame.

Ltac run_handler :=
  cbv beta iota zeta delta
    [mbind mret M_bind M_ret try_catch throw log emit await attempt
     respond next now answered email_trim].

(** Take the next branching of a run apart. *)
Ltac branch H :=
  match type of H with
  | context [match ?x with _ => _ end] =>
      lazymatch x with
      | context [match _ with _ => _ end] => fail
      | _ => destruct x eqn:?
      end
  end.

Lemma service_events_quiet (delta : Trace) :
  forallb service_event delta = true ->
  user_creations delta = 0%nat /\ user_saves delta = 0%nat
  /\ responses delta = [] /\ passed_to_next delta = [].
Proof.
  induction delta as [| e delta IH]; [done |]. simpl. intros [He Hd]%andb_prop.
  destruct (IH Hd) as (H1 & H2 & H3 & H4).
  destruct e; try discriminate; done.
Qed.

Section Handlers.
Context (orc : Oracles) (penv : gmap string string) (aiService : AIService).

(** The checks of [createUser] let a request through without answering it
    and without writing to the database. *)
Lemma createUser_prepare_quiet (body : gmap string JsValue) (w w1 : Trace)
    (prepared : string * RoleDoc * Z) :
  createUser_prepare orc body w = (Ok (Some prepared), w1) ->
  exists delta, w1 = w ++ delta
    /\ user_creations delta = 0%nat /\ responses delta = [] /\ passed_to_next delta = [].
Proof.
  unfold createUser_prepare. run_handler. intros H.
  repeat (branch H; try discriminate H).
  all: injection H as _ <-; eexists; (split; [rewrite <- ?app_assoc; reflexivity |]); done.
Qed.

(** The lookup of [updateUser] lets a request through without answering
    it and without saving a document. *)
Lemma updateUser_lookup_quiet (id : JsValue) (body : gmap string JsValue) (w w1 : Trace)
    (found : UserDoc * bool * option RoleDoc) :
  updateUser_lookup orc id body w = (Ok (Some found), w1) ->
  exists delta, w1 = w ++ delta
    /\ user_saves delta = 0%nat /\ responses delta = [] /\ passed_to_next delta = [].
Proof.
  unfold updateUser_lookup. run_handler. intros H.
  repeat (branch H; try discriminate H).
  all: injection H as _ <-; eexists; (split; [rewrite <- ?app_assoc; reflexivity |]); done.
Qed.

(** An update that names a role is one that regenerates the bio. *)
Lemma updateUser_lookup_role_change (id : JsValue) (body : gmap string JsValue) (w w1 : Trace)
    (user : UserDoc) (shouldRegenerateBio : bool) (roleInfo : option RoleDoc) :
  updateUser_lookup orc id body w = (Ok (Some (user, shouldRegenerateBio, roleInfo)), w1) ->
  if truthy (field body "role")
  then shouldRegenerateBio = true /\ exists found, roleInfo = Some found
  else shouldRegenerateBio = false /\ roleInfo = None.
Proof.
  unfold updateUser_lookup. run_handler.
  assert (Hrole : field (delete "createdAt" (delete "__v" (delete "_id" body))) "role"
                  = field body "role").
  { unfold field. now rewrite !lookup_delete_ne. }
  rewrite Hrole. intros H.
  repeat (branch H; try discriminate H).
  all: injection H as _ <- <- _; eauto.
Qed.

(** The update that reaches the database never carries [_id], [__v] or
    [createdAt], and always carries [updatedAt]. *)
Lemma updateUser_lookup_update (id : JsValue) (body : gmap string JsValue) (w w1 : Trace)
    (found : UserDoc * bool * option RoleDoc) :
  updateUser_lookup orc id body w = (Ok (Some found), w1) ->
  exists update, In (EvUserFindByIdAndUpdate id update) w1
    /\ update !! "_id" = None /\ update !! "__v" = None /\ update !! "createdAt" = None
    /\ is_Some (update !! "updatedAt").
Proof.
  unfold updateUser_lookup. run_handler. intros H.
  repeat (branch H; try discriminate H).
  all: injection H as _ <-; eexists; (split; [rewrite !in_app_iff; simpl; eauto |]).
  all: rewrite !lookup_insert_ne, ?lookup_delete_eq, ?lookup_delete_ne, ?lookup_delete_eq,
         ?lookup_insert_eq by done.
  all: rewrite ?lookup_delete_ne, ?lookup_delete_eq by done; eauto.
Qed.

(** C9.  When [generateBio] throws inside [createUser], the handler hands
    the error to [next]: it answers nothing and creates no user.  When
    [generateBio] throws inside a role-changing [updateUser], the handler
    logs the warning "Failed to regenerate bio:" and answers 200 with the
    updated document, whose bio is not a regenerated one; nothing is saved
    and nothing is handed to [next]. *)
Theorem bio_failure_policy (body : gmap string JsValue) (id : JsValue) (w w1 w2 : Trace)
    (normalizedEmail : string) (roleInfo : RoleDoc) (bioStartTime : Z) (user : UserDoc)
    (bioError : JsValue) :
  (createUser_prepare orc body w = (Ok (Some (normalizedEmail, roleInfo, bioStartTime)), w1) ->
   generateBio orc penv aiService (to_string (field body "name")) (role_name roleInfo) w1
   = (Throw bioError, w2) ->
   exists w',
     createUser orc penv aiService body w = (Ok tt, w')
     /\ w' = w2 ++ [EvLog Error "AI bio generation failed:";
                    EvLog Error "=== User creation process failed ===";
                    EvNext bioError]
     /\ user_creations w' = user_creations w
     /\ responses w' = responses w
     /\ passed_to_next w' = passed_to_next w ++ [bioError])
  /\ (updateUser_lookup orc id body w = (Ok (Some (user, true, Some roleInfo)), w1) ->
      generateBio orc penv aiService (user_name user) (role_name roleInfo)
        (w1 ++ [EvLog Info ("Regenerating bio for user: " +:+ user_name user +:+ " ("
                            +:+ role_name roleInfo +:+ ")")])
      = (Throw bioError, w2) ->
      exists w',
        updateUser orc penv aiService id body w = (Ok tt, w')
        /\ w' = w2 ++ [EvLog Warn "Failed to regenerate bio:";
                       EvLog Info ("User updated successfully: " +:+ user__id user);
                       EvRespond 200 (success_body "User updated successfully"
                                                   (getPublicProfile user))]
        /\ responses w'
           = responses w ++ [(200, success_body "User updated successfully"
                                                (getPublicProfile user))]
        /\ user_saves w' = user_saves w
        /\ passed_to_next w' = passed_to_next w).
Proof.
  split.
  - intros Hprep Hbio.
    pose proof (generateBio_service_run orc penv aiService (to_string (field body "name"))
                  (role_name roleInfo) w1) as Hrun.
    rewrite Hbio in Hrun.
    pose proof (service_run_thrown _ _ _ Hrun) as Hn.
    destruct (service_run_trace _ _ _ Hrun) as (d2 & -> & Hd2).
    destruct (service_events_quiet _ Hd2) as (Hc2 & _ & Hr2 & Hx2).
    destruct (createUser_prepare_quiet _ _ _ _ Hprep) as (d1 & -> & Hc1 & Hr1 & Hx1).
    eexists. split; [| split; [reflexivity |]].
    + unfold createUser. run_handler. rewrite Hprep.
      unfold createUser_generate_and_store. run_handler. rewrite Hbio.
      rewrite (read_not_nullish _ _ _ Hn). rewrite (read_not_nullish _ _ _ Hn).
      now rewrite <- !app_assoc.
    + rewrite !user_creations_app, !responses_app, !passed_to_next_app, Hc1, Hc2, Hr1, Hr2,
        Hx1, Hx2. simpl. rewrite !app_nil_r.
      match goal with |- context [user_creations (?e :: ?l)] =>
        change (user_creations (e :: l)) with 0%nat end.
      split_and!; [lia | done | done].
  - intros Hlook Hbio.
    match type of Hbio with generateBio _ _ _ ?n ?r ?tr = _ =>
      pose proof (generateBio_service_run orc penv aiService n r tr) as Hrun end.
    rewrite Hbio in Hrun.
    pose proof (service_run_thrown _ _ _ Hrun) as Hn.
    destruct (service_run_trace _ _ _ Hrun) as (d2 & -> & Hd2).
    destruct (service_events_quiet _ Hd2) as (_ & Hs2 & Hr2 & Hx2).
    destruct (updateUser_lookup_quiet _ _ _ _ _ Hlook) as (d1 & -> & Hs1 & Hr1 & Hx1).
    eexists. split; [| split; [reflexivity |]].
    + unfold updateUser. run_handler. rewrite Hlook.
      unfold updateUser_regenerate. run_handler. rewrite Hbio.
      rewrite (read_not_nullish _ _ _ Hn).
      now rewrite <- !app_assoc.
    + rewrite !user_saves_app, !responses_app, !passed_to_next_app, Hs1, Hs2, Hr1, Hr2,
        Hx1, Hx2. simpl. rewrite !app_nil_r.
      repeat match goal with |- context [user_saves (?e :: ?l)] =>
        change (user_saves (e :: l)) with 0%nat end.
      split_and!; [done | lia | done].
Qed.

End Handlers.
Section Witnesses.
Import Scenario.

Lemma bio_failure_policy_witness :
  let bioError := new_Error (both_failed_message "Rate limit reached" "Quota exceeded") in
  let entered := snd (createUser_prepare all_down create_request []) in
  let looked_up := snd (updateUser_lookup all_down update_id update_request []) in
  (exists w',
     createUser all_down env_both (instance env_both) create_request [] = (Ok tt, w')
     /\ w' = snd (generateBio all_down env_both (instance env_both) "Ada" "ENGINEER" entered)
             ++ [EvLog Error "AI bio generation failed:";
                 EvLog Error "=== User creation process failed ===";
                 EvNext bioError]
     /\ user_creations w' = user_creations []
     /\ responses w' = responses []
     /\ passed_to_next w' = passed_to_next [] ++ [bioError])
  /\ (exists w',
        updateUser all_down env_both (instance env_both) update_id update_request []
        = (Ok tt, w')
        /\ w' = snd (generateBio all_down env_both (instance env_both) "Ada" "ENGINEER"
                       (looked_up ++ [EvLog Info "Regenerating bio for user: Ada (ENGINEER)"]))
                ++ [EvLog Warn "Failed to regenerate bio:";
                    EvLog Info "User updated successfully: 64a000000000000000000001";
                    EvRespond 200 (success_body "User updated successfully"
                                                (getPublicProfile ada))]
        /\ responses w'
           = responses [] ++ [(200, success_body "User updated successfully"
                                                 (getPublicProfile ada))]
        /\ user_saves w' = user_saves []
        /\ passed_to_next w' = passed_to_next []).
Proof.
  intros bioError entered looked_up. split.
  - apply (proj1 (bio_failure_policy all_down env_both (instance env_both) create_request
                    update_id [] entered
                    (snd (generateBio all_down env_both (instance env_both) "Ada" "ENGINEER"
                            entered))
                    "ada@example.com" engineer 12 ada bioError)).
    + vm_compute. reflexivity.
    + vm_compute. reflexivity.
  - apply (proj2 (bio_failure_policy all_down env_both (instance env_both) update_request
                    update_id [] looked_up
                    (snd (generateBio all_down env_both (instance env_both) "Ada" "ENGINEER"
                            (looked_up
                             ++ [EvLog Info "Regenerating bio for user: Ada (ENGINEER)"])))
                    "ada@example.com" engineer 12 ada bioError)).
    + vm_compute. reflexivity.
    + vm_compute. reflexivity.
Defined.

End Witnesses.
End UserControllerSpec.

(* ===================================================================== *)
(** ** More about the retry loop *)
(* ===================================================================== *)

Module RetryLoop.
Import Js Sdk Eff AIService Policy Conduct JsFacts TraceFacts EffFacts AIServiceFacts
  AIServiceFrame.

Lemma transient_retryable (answer : Outcome ChatCompletion) (e : JsValue) :
  transient answer e -> retryable e.
Proof.
  intros [[_ H] | [(c & _ & _ & ->) | (c & more & _ & _ & ->)]]; [exact H | |];
    split; reflexivity.
Qed.

Lemma waits_backoff_schedule_0 (baseDelay : Z) (first : nat) :
  waits (backoff_schedule baseDelay first 0) = [].
Proof. reflexivity. Qed.

Lemma waits_backoff_schedule_S (baseDelay : Z) (first n : nat) :
  waits (backoff_schedule baseDelay first (S n))
  = baseDelay * 2 ^ (Z.of_nat first - 1) :: waits (backoff_schedule baseDelay (S first) n).
Proof. reflexivity. Qed.

Lemma waits_backoff_schedule (baseDelay : Z) (n : nat) :
  forall first,
    waits (backoff_schedule baseDelay first n)
    = map (fun attempt => baseDelay * 2 ^ (Z.of_nat attempt - 1)) (seq first n).
Proof.
  induction n as [| n IH]; intros first; [reflexivity |].
  rewrite waits_backoff_schedule_S, IH. reflexivity.
Qed.

Lemma asks_A_backoff_schedule (baseDelay : Z) (n : nat) :
  forall first, asks_A (backoff_schedule baseDelay first n) = S n.
Proof.
  induction n as [| n IH]; intros first; [reflexivity |].
  change (backoff_schedule baseDelay first (S n))
    with ([AskA; Wait (baseDelay * 2 ^ (Z.of_nat first - 1))]
          ++ backoff_schedule baseDelay (S first) n).
  rewrite asks_A_app, IH. reflexivity.
Qed.

Lemma backoff_schedule_S (baseDelay : Z) (first n : nat) :
  backoff_schedule baseDelay first (S n)
  = [AskA; Wait (baseDelay * 2 ^ (Z.of_nat first - 1))]
    ++ backoff_schedule baseDelay (S first) n.
Proof. reflexivity. Qed.

Section Loop.
Context (orc : Oracles) (this : AIService) (name role : string) (client : OpenAIClient).
Hypothesis Hclient : openai this = Some client.
Context (maxRetries baseDelay : Z).

Let request : ChatRequest := openai_request name role.

(** One call of the wrapper that fails transiently. *)
Lemma generateBioWithOpenAI_transient (e : JsValue) (w : Trace) :
  transient (openai_create orc (openai_calls w) client request) e ->
  generateBioWithOpenAI orc this name role w
  = (Throw e, w ++ [EvOpenAICreate client request; EvLog Error "OpenAI bio generation failed:"]).
Proof.
  intros [[Ho [Hn _]] | [(c & Ho & Hc & ->) | (c & more & Ho & Hc & ->)]].
  - now apply generateBioWithOpenAI_rejected.
  - unfold generateBioWithOpenAI. rewrite Hclient. run. fold request. rewrite Ho.
    cbn [choices]. rewrite Hc. simpl. now rewrite <- app_assoc.
  - unfold generateBioWithOpenAI. rewrite Hclient. run. fold request. rewrite Ho.
    cbn [choices]. rewrite Hc. simpl. now rewrite <- app_assoc.
Qed.

(** A transient failure before the last attempt: wait, then go on. *)
Lemma retry_from_transient (fuel : nat) (attempt : Z) (lastError e : JsValue) (w : Trace) :
  attempt < maxRetries ->
  transient (openai_create orc (openai_calls w) client request) e ->
  exists w',
    retry_from orc this name role maxRetries baseDelay (S fuel) attempt lastError w
    = retry_from orc this name role maxRetries baseDelay fuel (attempt + 1) e w'
    /\ performed w w' [AskA; Wait (baseDelay * 2 ^ (attempt - 1))].
Proof.
  intros Hlt Ho. destruct (transient_retryable _ _ Ho) as [Hn Ha]. cbn [retry_from].
  assert (Hle : (attempt <=? maxRetries) = true) by (apply Z.leb_le; lia).
  apply Z.ltb_lt in Hlt. rewrite Hle. run.
  erewrite generateBioWithOpenAI_transient by (count; eassumption).
  rewrite (read_not_nullish _ _ _ Hn). rewrite Ha, Hlt.
  eexists. split; [reflexivity | performed_now].
Qed.

(** A transient failure on the last attempt ends the loop. *)
Lemma retry_from_transient_last (fuel : nat) (lastError e : JsValue) (w : Trace) :
  transient (openai_create orc (openai_calls w) client request) e ->
  exists w',
    retry_from orc this name role maxRetries baseDelay (S fuel) maxRetries lastError w
    = (Throw e, w') /\ performed w w' [AskA].
Proof.
  intros Ho. destruct (transient_retryable _ _ Ho) as [Hn Ha]. cbn [retry_from].
  rewrite Z.leb_refl. run.
  erewrite generateBioWithOpenAI_transient by (count; eassumption).
  rewrite (read_not_nullish _ _ _ Hn). rewrite Ha, Z.ltb_irrefl.
  match goal with |- context [retry_from _ _ _ _ _ _ fuel ?a ?l ?tr] =>
    destruct (retry_from_over orc this name role maxRetries baseDelay fuel a l tr)
      as (w' & -> & Hp); [left; lia |] end.
  exists w'. split; [reflexivity |].
  refine (performed_then _ _ _ [AskA] [] _ Hp). performed_now.
Qed.

(** [k] transient failures in a row, none of them on the last attempt: the
    loop has waited after each and stands before attempt [first + k]. *)
Lemma retry_from_retries (k : nat) :
  forall (first fuel : nat) (lastError : JsValue) (w : Trace),
    (k <= fuel)%nat ->
    Z.of_nat (first + k) <= maxRetries ->
    (forall j, (j < k)%nat ->
       exists e, transient (openai_create orc (openai_calls w + j) client request) e) ->
    exists lastError' w',
      retry_from orc this name role maxRetries baseDelay fuel (Z.of_nat first) lastError w
      = retry_from orc this name role maxRetries baseDelay (fuel - k)
          (Z.of_nat (first + k)) lastError' w'
      /\ performed w w'
           (flat_map (fun attempt => [AskA; Wait (baseDelay * 2 ^ (Z.of_nat attempt - 1))])
                     (seq first k))
      /\ openai_calls w' = (openai_calls w + k)%nat.
Proof.
  induction k as [| k IH]; intros first fuel lastError w Hfuel Hmax Hall.
  - exists lastError, w. rewrite Nat.sub_0_r, !Nat.add_0_r.
    split_and!; [reflexivity | apply performed_nothing | reflexivity].
  - destruct fuel as [| fuel]; [lia |].
    destruct (Hall 0%nat) as (e & Ho); [lia |]. rewrite Nat.add_0_r in Ho.
    destruct (retry_from_transient fuel (Z.of_nat first) lastError e w) as (w1 & E1 & P1);
      [lia | done |].
    destruct (performed_calls _ _ _ P1) as (Hc1 & _ & _).
    change (asks_A [AskA; Wait _]) with 1%nat in Hc1.
    destruct (IH (S first) fuel e w1) as (last' & w' & E & P & Hc); [lia | lia | |].
    { intros j Hj. destruct (Hall (S j)) as (ej & Hej); [lia |].
      exists ej. rewrite Hc1.
      now replace (openai_calls w + 1 + j)%nat with (openai_calls w + S j)%nat by lia. }
    exists last', w'. split_and!.
    + rewrite E1. replace (Z.of_nat first + 1) with (Z.of_nat (S first)) by lia.
      rewrite E. now replace (S first + k)%nat with (first + S k)%nat by lia.
    + exact (performed_then _ _ _ _ _ P1 P).
    + lia.
Qed.

End Loop.

Section Parameters.
Context (orc : Oracles) (this : AIService) (name role : string).

Let request : ChatRequest := openai_request name role.

(** X1.  For any number of attempts and any base delay: when the first [k]
    attempts fail transiently (a retryable rejection or an unreadable
    completion) and the next one, still within [maxRetries], is answered
    with a text, [generateBioWithRetry] returns the trimmed text, having
    waited [baseDelay * 2^(attempt - 1)] after each failed attempt. *)
Theorem generateBioWithRetry_succeeds_after (client : OpenAIClient) (attempts k : nat)
    (baseDelay : Z) (text : string) (more : list (option string)) (w : Trace) :
  openai this = Some client ->
  (k < attempts)%nat ->
  (forall j, (j < k)%nat ->
     exists e, transient (openai_create orc (openai_calls w + j) client request) e) ->
  openai_create orc (openai_calls w + k) client request
  = Resolves {| choices := Some text :: more |} ->
  exists w',
    generateBioWithRetry orc this name role (Z.of_nat attempts) baseDelay w
    = (Ok (trim text), w')
    /\ performed w w' (backoff_schedule baseDelay 1 k)
    /\ sleeps w'
       = sleeps w ++ map (fun attempt => baseDelay * 2 ^ (Z.of_nat attempt - 1)) (seq 1 k).
Proof.
  intros Hc Hk Hall Ho. rewrite generateBioWithRetry_unfold, Nat2Z.id.
  destruct (retry_from_retries orc this name role client Hc (Z.of_nat attempts) baseDelay
              k 1 attempts JsUndefined w) as (last' & w1 & E1 & P1 & C1); [lia | lia | done |].
  destruct (attempts - k)%nat as [| fuel] eqn:Hfuel; [lia |].
  destruct (retry_from_succeeds orc this name role client Hc (Z.of_nat attempts) baseDelay
              fuel (Z.of_nat (1 + k)) last' w1 text more) as (w' & E & P);
    [lia | now rewrite C1 |].
  assert (Pall : performed w w' (backoff_schedule baseDelay 1 k))
    by exact (performed_then _ _ _ _ _ P1 P).
  change (Z.of_nat 1) with 1 in E1.
  exists w'. split_and!; [rewrite E1; exact E | exact Pall |].
  destruct (performed_calls _ _ _ Pall) as (_ & _ & ->).
  now rewrite waits_backoff_schedule.
Qed.

(** X2.  For any number of attempts and any base delay: when the first [k]
    attempts fail transiently and the next one is rejected with an
    authentication-class error, [generateBioWithRetry] throws that error at
    once; the attempts that are left are not made. *)
Theorem generateBioWithRetry_aborts_after (client : OpenAIClient) (attempts k : nat)
    (baseDelay : Z) (e : JsValue) (w : Trace) :
  openai this = Some client ->
  (k < attempts)%nat ->
  (forall j, (j < k)%nat ->
     exists e', transient (openai_create orc (openai_calls w + j) client request) e') ->
  openai_create orc (openai_calls w + k) client request = Rejects e ->
  is_authentication_error e = true ->
  exists w',
    generateBioWithRetry orc this name role (Z.of_nat attempts) baseDelay w = (Throw e, w')
    /\ performed w w' (backoff_schedule baseDelay 1 k)
    /\ openai_calls w' = (openai_calls w + S k)%nat.
Proof.
  intros Hc Hk Hall Ho Ha. rewrite generateBioWithRetry_unfold, Nat2Z.id.
  destruct (retry_from_retries orc this name role client Hc (Z.of_nat attempts) baseDelay
              k 1 attempts JsUndefined w) as (last' & w1 & E1 & P1 & C1); [lia | lia | done |].
  destruct (attempts - k)%nat as [| fuel] eqn:Hfuel; [lia |].
  destruct (retry_from_aborts orc this name role client Hc (Z.of_nat attempts) baseDelay
              fuel (Z.of_nat (1 + k)) last' e w1) as (w' & E & P);
    [lia | now rewrite C1 | done |].
  assert (Pall : performed w w' (backoff_schedule baseDelay 1 k))
    by exact (performed_then _ _ _ _ _ P1 P).
  change (Z.of_nat 1) with 1 in E1.
  exists w'. split_and!; [rewrite E1; exact E | exact Pall |].
  destruct (performed_calls _ _ _ Pall) as (-> & _ & _).
  now rewrite asks_A_backoff_schedule.
Qed.

(** X3.  For any number of attempts, at least one, and any base delay: when
    every attempt fails transiently, [generateBioWithRetry] makes them all,
    waits [baseDelay * 2^(attempt - 1)] after each but the last, and throws
    the error of the last attempt. *)
Theorem generateBioWithRetry_exhausts (client : OpenAIClient) (attempts : nat)
    (baseDelay : Z) (w : Trace) :
  openai this = Some client ->
  (1 <= attempts)%nat ->
  (forall j, (j < attempts)%nat ->
     exists e, transient (openai_create orc (openai_calls w + j) client request) e) ->
  exists e w',
    generateBioWithRetry orc this name role (Z.of_nat attempts) baseDelay w = (Throw e, w')
    /\ transient (openai_create orc (openai_calls w + (attempts - 1)) client request) e
    /\ performed w w' (backoff_schedule baseDelay 1 (attempts - 1))
    /\ sleeps w'
       = sleeps w
         ++ map (fun attempt => baseDelay * 2 ^ (Z.of_nat attempt - 1)) (seq 1 (attempts - 1)).
Proof.
  intros Hc Hpos Hall. rewrite generateBioWithRetry_unfold, Nat2Z.id.
  destruct (retry_from_retries orc this name role client Hc (Z.of_nat attempts) baseDelay
              (attempts - 1) 1 attempts JsUndefined w) as (last' & w1 & E1 & P1 & C1);
    [lia | lia | intros j Hj; apply Hall; lia |].
  destruct (Hall (attempts - 1)%nat) as (e & He); [lia |].
  destruct (attempts - (attempts - 1))%nat as [| fuel] eqn:Hfuel; [lia |].
  replace (Z.of_nat (1 + (attempts - 1))) with (Z.of_nat attempts) in E1 by lia.
  destruct (retry_from_transient_last orc this name role client Hc (Z.of_nat attempts)
              baseDelay fuel last' e w1) as (w' & E & P); [now rewrite C1 |].
  assert (Pall : performed w w' (backoff_schedule baseDelay 1 (attempts - 1)))
    by exact (performed_then _ _ _ _ _ P1 P).
  change (Z.of_nat 1) with 1 in E1.
  exists e, w'. split_and!; [rewrite E1; exact E | exact He | exact Pall |].
  destruct (performed_calls _ _ _ Pall) as (_ & _ & ->).
  now rewrite waits_backoff_schedule.
Qed.

(** X4.  With [maxRetries] zero or negative the loop makes no attempt:
    [generateBioWithRetry] calls nobody and throws its initial [lastError],
    which is [undefined]. *)
Theorem generateBioWithRetry_without_attempts (maxRetries baseDelay : Z) (w : Trace) :
  maxRetries <= 0 ->
  exists w',
    generateBioWithRetry orc this name role maxRetries baseDelay w = (Throw JsUndefined, w')
    /\ performed w w' [].
Proof.
  intros H. rewrite (generateBioWithRetry_no_attempts orc this name role _ _ _ H).
  eexists. split; [reflexivity | performed_now].
Qed.

End Parameters.

Section Witnesses.
Import Scenario Outages.

Lemma generateBioWithRetry_succeeds_after_witness :
  exists w',
    generateBioWithRetry garbled_then_fine (instance env_both) "Ada" "ENGINEER" 5 500 []
    = (Ok "Ada builds things.", w')
    /\ performed [] w' [AskA; Wait 500; AskA; Wait 1000; AskA; Wait 2000; AskA]
    /\ sleeps w' = [500; 1000; 2000].
Proof.
  apply (generateBioWithRetry_succeeds_after garbled_then_fine (instance env_both)
           "Ada" "ENGINEER" test_client 5 3 500 "  Ada builds things.  " [] []);
    [reflexivity | lia | | reflexivity].
  intros [| [| [| j]]] Hj; [| | | lia].
  - eexists. right. left. eexists. split_and!; reflexivity.
  - eexists. right. right. eexists _, _. split_and!; reflexivity.
  - exists overloaded. left. split; [reflexivity | split; reflexivity].
Defined.

Lemma generateBioWithRetry_aborts_after_witness :
  exists w',
    generateBioWithRetry revoked_midway (instance env_both) "Ada" "ENGINEER" 4 250 []
    = (Throw unauthorized, w')
    /\ performed [] w' [AskA; Wait 250; AskA]
    /\ openai_calls w' = 2%nat.
Proof.
  apply (generateBioWithRetry_aborts_after revoked_midway (instance env_both)
           "Ada" "ENGINEER" test_client 4 1 250 unauthorized []);
    [reflexivity | lia | | reflexivity | reflexivity].
  intros [| j] Hj; [| lia].
  exists rate_limited. left. split; [reflexivity | split; reflexivity].
Defined.

Lemma generateBioWithRetry_exhausts_witness :
  exists e w',
    generateBioWithRetry all_down (instance env_both) "Ada" "ENGINEER" 4 100 [] = (Throw e, w')
    /\ transient (openai_create all_down 3 test_client (openai_request "Ada" "ENGINEER")) e
    /\ performed [] w' [AskA; Wait 100; AskA; Wait 200; AskA; Wait 400; AskA]
    /\ sleeps w' = [100; 200; 400].
Proof.
  apply (generateBioWithRetry_exhausts all_down (instance env_both) "Ada" "ENGINEER"
           test_client 4 100 []); [reflexivity | lia |].
  intros [| [| [| [| j]]]] Hj; [| | | | lia].
  - exists rate_limited. left. split; [reflexivity | split; reflexivity].
  - exists overloaded. left. split; [reflexivity | split; reflexivity].
  - exists rate_limited. left. split; [reflexivity | split; reflexivity].
  - exists rate_limited. left. split; [reflexivity | split; reflexivity].
Defined.

Lemma generateBioWithRetry_without_attempts_witness :
  exists w',
    generateBioWithRetry healthy (instance env_both) "Ada" "ENGINEER" 0 1000 []
    = (Throw JsUndefined, w')
    /\ performed [] w' [].
Proof.
  apply (generateBioWithRetry_without_attempts healthy (instance env_both) "Ada" "ENGINEER"
           0 1000 []).
  lia.
Defined.

End Witnesses.
End RetryLoop.

(* ===================================================================== *)
(** ** What every run of the service keeps to *)
(* ===================================================================== *)

Module ServiceConduct.
Import Js Sdk Eff AIService Policy Conduct JsFacts TraceFacts EffFacts AIServiceFacts
  AIServiceSpec AIServiceFrame StatusSpec RetryLoop.

Lemma waits_app (a b : list Action) : waits (a ++ b) = waits a ++ waits b.
Proof. apply omap_app. Qed.

Lemma performed_quiet (w w1 delta : Trace) (acts : list Action) :
  performed w w1 acts -> actions delta = [] -> performed w (w1 ++ delta) acts.
Proof.
  intros P H. rewrite <- (app_nil_r acts).
  refine (performed_then _ _ _ _ _ P _). now exists delta.
Qed.

Lemma performed_unique (w w' : Trace) (acts acts' : list Action) :
  performed w w' acts -> performed w w' acts' -> acts = acts'.
Proof.
  intros (d & -> & <-) (d' & E & <-). apply app_inv_head in E. now subst.
Qed.

Lemma new_Error_retryable (message : string) : retryable (new_Error message).
Proof. split; reflexivity. Qed.

Section Service.
Context (orc : Oracles) (penv : gmap string string) (this : AIService) (name role : string).

(** Whatever the provider answers, the wrapper asks it at most once. *)
Lemma generateBioWithOpenAI_acts (w : Trace) :
  exists acts,
    performed w (snd (generateBioWithOpenAI orc this name role w)) acts
    /\ (acts = [] \/ acts = [AskA]).
Proof.
  unfold generateBioWithOpenAI. destruct (openai this) as [client |]; run.
  - exists [AskA]. split; [| now right].
    destruct (openai_create orc (openai_calls w) client (openai_request name role))
      as [[[| [text |] more]] | reason]; try destruct reason; simpl; performed_now.
  - exists []. split; [| now left]. simpl. performed_now.
Qed.

(** With a client, the wrapper asks the provider exactly once. *)
Lemma generateBioWithOpenAI_asks_once (client : OpenAIClient) (w : Trace) :
  openai this = Some client ->
  performed w (snd (generateBioWithOpenAI orc this name role w)) [AskA].
Proof.
  intros Hc. unfold generateBioWithOpenAI. rewrite Hc. run.
  destruct (openai_create orc (openai_calls w) client (openai_request name role))
    as [[[| [text |] more]] | reason]; try destruct reason; simpl; performed_now.
Qed.

(** The wrapper without a client: it throws before calling anybody. *)
Lemma generateBioWithOpenAI_without_client (w : Trace) :
  openai this = None ->
  generateBioWithOpenAI orc this name role w
  = (Throw (new_Error "OpenAI client not initialized"),
     w ++ [EvLog Error "OpenAI bio generation failed:"]).
Proof. intros H. unfold generateBioWithOpenAI. rewrite H. reflexivity. Qed.

Section Loop.
Context (maxRetries baseDelay : Z).

Lemma retry_from_without_client (remaining : nat) :
  forall (first fuel : nat) (lastError : JsValue) (w : Trace),
    openai this = None ->
    maxRetries = Z.of_nat (first + remaining) ->
    (S remaining <= fuel)%nat ->
    exists w',
      retry_from orc this name role maxRetries baseDelay fuel (Z.of_nat first) lastError w
      = (Throw (new_Error "OpenAI client not initialized"), w')
      /\ performed w w'
           (map (fun attempt => Wait (baseDelay * 2 ^ (Z.of_nat attempt - 1)))
                (seq first remaining)).
Proof.
  destruct (new_Error_retryable "OpenAI client not initialized") as [Hn Ha].
  induction remaining as [| remaining IH]; intros first fuel lastError w Hnone Hmax Hfuel;
    (destruct fuel as [| fuel]; [lia |]); cbn [retry_from].
  - assert (Z.of_nat first = maxRetries) as -> by lia.
    rewrite Z.leb_refl. run. rewrite generateBioWithOpenAI_without_client by done.
    rewrite (read_not_nullish _ _ _ Hn), Ha, Z.ltb_irrefl.
    match goal with |- context [retry_from _ _ _ _ _ _ fuel ?a ?l ?tr] =>
      destruct (retry_from_over orc this name role maxRetries baseDelay fuel a l tr)
        as (w' & -> & Hp); [left; lia |] end.
    exists w'. split; [reflexivity |].
    refine (performed_then _ _ _ [] [] _ Hp). performed_now.
  - assert (Hle : (Z.of_nat first <=? maxRetries) = true) by (apply Z.leb_le; lia).
    assert (Hlt : (Z.of_nat first <? maxRetries) = true) by (apply Z.ltb_lt; lia).
    rewrite Hle. run. rewrite generateBioWithOpenAI_without_client by done.
    rewrite (read_not_nullish _ _ _ Hn), Ha, Hlt.
    replace (Z.of_nat first + 1) with (Z.of_nat (S first)) by lia.
    match goal with |- context [retry_from _ _ _ _ _ _ fuel _ ?l ?tr] =>
      destruct (IH (S first) fuel l tr) as (w' & -> & Hp); [done | lia | lia |] end.
    exists w'. split; [reflexivity |].
    refine (performed_then _ _ _ [Wait _] _ _ Hp). performed_now.
Qed.

(** Every run of the loop: Provider B is not asked, Provider A is asked at
    most once per iteration, and the waits are those of the backoff, in
    order, for attempts that are not the last. *)
Lemma retry_from_bounded (fuel : nat) :
  forall (first : nat) (lastError : JsValue) (w : Trace),
    exists acts n,
      performed w
        (snd (retry_from orc this name role maxRetries baseDelay fuel (Z.of_nat first)
                lastError w)) acts
      /\ asks_B acts = 0%nat
      /\ (asks_A acts <= fuel)%nat
      /\ waits acts = map (fun attempt => baseDelay * 2 ^ (Z.of_nat attempt - 1)) (seq first n)
      /\ (n = 0%nat \/ Z.of_nat (first + n) <= maxRetries).
Proof.
  induction fuel as [| fuel IH]; intros first lastError w.
  - exists [], 0%nat. split_and!; [simpl; performed_now | done | done | done | now left].
  - cbn [retry_from]. destruct (Z.of_nat first <=? maxRetries) eqn:Hle.
    2:{ exists [], 0%nat.
        split_and!; [simpl; performed_now | done | apply Nat.le_0_l | done | now left]. }
    apply Z.leb_le in Hle. run.
    match goal with |- context [generateBioWithOpenAI _ _ _ _ ?tr] =>
      destruct (generateBioWithOpenAI_acts tr) as (a0 & P0 & Ha0);
      pose proof (generateBioWithOpenAI_service_run orc this name role tr) as Hrun;
      destruct (generateBioWithOpenAI orc this name role tr) as [[bio | error] w1] end;
      simpl in P0.
    all: assert (Pw : performed w w1 a0)
      by (refine (performed_then _ _ _ [] a0 _ P0); performed_now).
    all: assert (HB0 : asks_B a0 = 0%nat) by (destruct Ha0 as [-> | ->]; reflexivity).
    all: assert (HA0 : (asks_A a0 <= 1)%nat)
      by (destruct Ha0 as [-> | ->]; [apply Nat.le_0_l | apply Nat.le_refl]).
    all: assert (HW0 : waits a0 = []) by (destruct Ha0 as [-> | ->]; reflexivity).
    + exists a0, 0%nat. split_and!; [exact Pw | done | lia | done | now left].
    + pose proof (service_run_thrown _ _ _ Hrun) as Hn.
      rewrite (read_not_nullish _ _ _ Hn).
      destruct (is_authentication_error error).
      { exists a0, 0%nat. split_and!; [| done | lia | done | now left].
        simpl. rewrite <- ?app_assoc. now apply performed_quiet. }
      destruct (Z.of_nat first <? maxRetries) eqn:Hlt.
      * apply Z.ltb_lt in Hlt.
        replace (Z.of_nat first + 1) with (Z.of_nat (S first)) by lia.
        match goal with |- context [retry_from _ _ _ _ _ _ fuel _ ?l ?tr] =>
          destruct (IH (S first) l tr) as (acts & n & P & HB & HA & HW & Hn') end.
        exists (a0 ++ [Wait (baseDelay * 2 ^ (Z.of_nat first - 1))] ++ acts), (S n).
        split_and!.
        -- refine (performed_then _ _ _ _ _ Pw (performed_then _ _ _ _ _ _ P)). performed_now.
        -- rewrite !asks_B_app, HB0, HB. reflexivity.
        -- rewrite !asks_A_app. change (asks_A [Wait _]) with 0%nat. lia.
        -- rewrite !waits_app, HW0, HW. reflexivity.
        -- right. destruct Hn' as [-> | Hn']; lia.
      * apply Z.ltb_ge in Hlt.
        replace (Z.of_nat first + 1) with (Z.of_nat (S first)) by lia.
        match goal with |- context [retry_from _ _ _ _ _ _ fuel _ ?l ?tr] =>
          destruct (IH (S first) l tr) as (acts & n & P & HB & HA & HW & Hn') end.
        assert (n = 0%nat) as -> by (destruct Hn' as [-> | Hn']; lia).
        exists (a0 ++ acts), 0%nat. split_and!.
        -- refine (performed_then _ _ _ _ _ Pw _).
           rewrite <- (app_nil_l acts).
           refine (performed_then _ _ _ [] _ _ P). performed_now.
        -- rewrite asks_B_app, HB0, HB. reflexivity.
        -- rewrite asks_A_app. lia.
        -- rewrite waits_app, HW0, HW. reflexivity.
        -- now left.
Qed.

(** With a client, the first iteration of the loop asks Provider A. *)
Lemma retry_from_asks_first (client : OpenAIClient) (fuel first : nat) (lastError : JsValue)
    (w : Trace) :
  openai this = Some client ->
  Z.of_nat first <= maxRetries ->
  exists acts,
    performed w
      (snd (retry_from orc this name role maxRetries baseDelay (S fuel) (Z.of_nat first)
              lastError w)) (AskA :: acts).
Proof.
  intros Hc Hle. cbn [retry_from]. apply Z.leb_le in Hle. rewrite Hle. run.
  match goal with |- context [generateBioWithOpenAI _ _ _ _ ?tr] =>
    pose proof (generateBioWithOpenAI_asks_once client tr Hc) as P0;
    pose proof (generateBioWithOpenAI_service_run orc this name role tr) as Hrun;
    destruct (generateBioWithOpenAI orc this name role tr) as [[bio | error] w1] end;
    simpl in P0.
  all: assert (Pw : performed w w1 [AskA])
    by (refine (performed_then _ _ _ [] [AskA] _ P0); performed_now).
  - exists []. exact Pw.
  - pose proof (service_run_thrown _ _ _ Hrun) as Hn.
    rewrite (read_not_nullish _ _ _ Hn).
    destruct (is_authentication_error error).
    { exists []. simpl. rewrite <- ?app_assoc. now apply performed_quiet. }
    destruct (Z.of_nat first <? maxRetries).
    + replace (Z.of_nat first + 1) with (Z.of_nat (S first)) by lia.
      match goal with |- context [retry_from _ _ _ _ _ _ fuel _ ?l ?tr] =>
        destruct (retry_from_bounded fuel (S first) l tr) as (acts & n & P & _) end.
      exists ([Wait (baseDelay * 2 ^ (Z.of_nat first - 1))] ++ acts).
      refine (performed_then _ _ _ [AskA] _ Pw (performed_then _ _ _ _ _ _ P)).
      performed_now.
    + replace (Z.of_nat first + 1) with (Z.of_nat (S first)) by lia.
      match goal with |- context [retry_from _ _ _ _ _ _ fuel _ ?l ?tr] =>
        destruct (retry_from_bounded fuel (S first) l tr) as (acts & n & P & _) end.
      exists acts.
      refine (performed_then _ _ _ [AskA] _ Pw _).
      rewrite <- (app_nil_l acts).
      refine (performed_then _ _ _ [] _ _ P). performed_now.
Qed.

End Loop.

(** X5.  On a service that holds no OpenAI client, [generateBioWithRetry]
    never calls the provider, yet goes through all its attempts and all the
    waits of the backoff before it throws "OpenAI client not
    initialized". *)
Theorem generateBioWithRetry_without_client (attempts : nat) (baseDelay : Z) (w : Trace) :
  openai this = None ->
  (1 <= attempts)%nat ->
  exists w',
    generateBioWithRetry orc this name role (Z.of_nat attempts) baseDelay w
    = (Throw (new_Error "OpenAI client not initialized"), w')
    /\ performed w w'
         (map (fun attempt => Wait (baseDelay * 2 ^ (Z.of_nat attempt - 1)))
              (seq 1 (attempts - 1)))
    /\ openai_calls w' = openai_calls w.
Proof.
  intros Hnone Hpos. rewrite generateBioWithRetry_unfold, Nat2Z.id.
  destruct (retry_from_without_client (Z.of_nat attempts) baseDelay (attempts - 1) 1 attempts
              JsUndefined w) as (w' & E & P); [done | lia | lia |].
  exists w'. split_and!; [exact E | exact P |].
  destruct (performed_calls _ _ _ P) as (-> & _ & _).
  assert (H : forall l : list nat,
            asks_A (map (fun attempt => Wait (baseDelay * 2 ^ (Z.of_nat attempt - 1))) l)
            = 0%nat) by (induction l; [reflexivity | assumption]).
  rewrite H. lia.
Qed.

(** The route of one run of [generateBio]: first what the retry loop does
    with Provider A, if Provider A passes the test of line 187, and then at
    most one call of Provider B, made only if [this.geminiModel] is set. *)
Lemma generateBio_route (w : Trace) :
  exists primary fallback,
    performed w (snd (generateBio orc penv this name role w)) (primary ++ fallback)
    /\ asks_B primary = 0%nat
    /\ (asks_A primary <= 3)%nat
    /\ waits primary `prefix_of` [1000; 2000]
    /\ (fallback = [] \/ fallback = [AskB])
    /\ (fallback = [AskB] -> providerB_configured this)
    /\ (providerA_configured penv this -> exists rest, primary = AskA :: rest)
    /\ (~ providerA_configured penv this ->
        primary = [] /\ (providerB_configured this -> fallback = [AskB])).
Proof.
  unfold generateBio, providerA_configured, providerB_configured.
  destruct (truthy (js_and (of_env (penv !! "OPENAI_API_KEY")) (ref (openai this)))) eqn:HA.
  - assert (Hclient : exists client, openai this = Some client).
    { destruct (openai this) as [client |]; [now exists client |].
      unfold js_and in HA. destruct (truthy (of_env (penv !! "OPENAI_API_KEY"))) eqn:Hk;
        simpl in HA; congruence. }
    destruct Hclient as (client & Hclient).
    run.
    match goal with |- context [generateBioWithRetry _ _ _ _ ?m ?b ?tr] =>
      destruct (retry_from_bounded m b 3 1 JsUndefined tr) as (acts & n & P & HB & HA' & HW & Hn);
      destruct (retry_from_asks_first m b client 2 1 JsUndefined tr Hclient ltac:(lia))
        as (rest & Pfirst);
      pose proof (retry_from_service_run orc this name role m b 3 1 JsUndefined tr
                    (or_intror (conj (ltac:(done) : 3%nat <> 0%nat) (ltac:(lia) : 1 <= 3))))
        as Hrun;
      change (retry_from orc this name role m b 3 (Z.of_nat 1) JsUndefined tr)
        with (generateBioWithRetry orc this name role m b tr) in P, Pfirst;
      change (retry_from orc this name role m b 3 1 JsUndefined tr)
        with (generateBioWithRetry orc this name role m b tr) in Hrun;
      destruct (generateBioWithRetry orc this name role m b tr) as [[bio | error] w1] end;
      simpl in P, Pfirst.
    all: pose proof (performed_unique _ _ _ _ P Pfirst) as Hacts.
    all: assert (Pw : performed w w1 acts)
      by (refine (performed_then _ _ _ [] acts _ P); performed_now).
    all: assert (Hprefix : waits acts `prefix_of` [1000; 2000]).
    1,3: rewrite HW; destruct n as [| [| [| n]]];
         [ now exists [1000; 2000] | now exists [2000] | now exists []
         | destruct Hn as [Hn | Hn]; [discriminate | lia] ].
    + exists acts, []. rewrite app_nil_r.
      split_and!; [exact Pw | done | done | done | now left | done | eauto | done].
    + pose proof (service_run_thrown _ _ _ Hrun) as Hnull.
      rewrite (read_not_nullish _ _ _ Hnull).
      destruct (geminiModel this) as [gm |] eqn:Hgm; simpl.
      * exists acts, [AskB].
        split_and!; [| done | done | done | now right | done | eauto | done].
        match goal with |- context [generateBioWithGemini _ _ _ _ ?tr] =>
          destruct (generateBioWithGemini_once orc this name role gm Hgm tr)
            as (r & w2 & E & P2);
          pose proof (generateBioWithGemini_service_run orc this name role tr) as Hg;
          rewrite E in Hg |- * end.
        assert (P12 : performed w w2 (acts ++ [AskB])).
        { refine (performed_then _ _ _ _ _ Pw _). rewrite <- !app_assoc in P2.
          refine (performed_then _ _ _ [] [AskB] _ P2). performed_now. }
        destruct r as [bio | geminiError]; [exact P12 |].
        pose proof (service_run_thrown _ _ _ Hg) as Hgn.
        rewrite (read_not_nullish _ _ _ Hnull), (read_not_nullish _ _ _ Hgn). simpl.
        now apply performed_quiet.
      * exists acts, []. rewrite app_nil_r.
        split_and!; [| done | done | done | now left | done | eauto | done].
        rewrite <- ?app_assoc. now apply performed_quiet.
  - destruct (geminiModel this) as [gm |] eqn:Hgm; simpl.
    + exists [], [AskB].
      split_and!; [| done | apply Nat.le_0_l | now exists [1000; 2000] | now right | done
                   | done | done].
      run.
      match goal with |- context [generateBioWithGemini _ _ _ _ ?tr] =>
        destruct (generateBioWithGemini_once orc this name role gm Hgm tr)
          as (r & w2 & E & P2); rewrite E end.
      simpl. refine (performed_then _ _ _ [] [AskB] _ P2). performed_now.
    + exists [], [].
      split_and!; [performed_now | done | apply Nat.le_0_l | now exists [1000; 2000]
                   | now left | done | done | done].
Qed.

(** X6.  Whatever the providers answer, one run of [generateBio] asks
    Provider A at most three times, waits for nothing but 1000 ms and then
    2000 ms, and asks Provider B at most once and after everything else. *)
Theorem generateBio_bounded (w : Trace) :
  exists primary fallback,
    performed w (snd (generateBio orc penv this name role w)) (primary ++ fallback)
    /\ asks_B primary = 0%nat
    /\ (asks_A primary <= 3)%nat
    /\ waits primary `prefix_of` [1000; 2000]
    /\ (fallback = [] \/ fallback = [AskB]).
Proof.
  destruct (generateBio_route w) as (primary & fallback & P & HB & HA & HW & HF & _).
  now exists primary, fallback.
Qed.

(** X7.  Whatever the providers answer, [generateBio] appends to the trace
    nothing but log records, provider calls and waits: it never reads or
    writes the database and never answers the request; and what it throws
    is never [undefined] or [null], so that a caller may read the
    [message] of what it catches. *)
Theorem generateBio_stays_in_service (w : Trace) :
  (exists delta,
     snd (generateBio orc penv this name role w) = w ++ delta
     /\ forallb service_event delta = true)
  /\ (forall t, fst (generateBio orc penv this name role w) = Throw t ->
      exists message, Js.prop t "message" = inl message).
Proof.
  destruct (generateBio_service_run orc penv this name role w) as [Ht Hd].
  split; [exact Hd |].
  intros t H. specialize (Ht t H). destruct t; try discriminate; simpl; eauto.
Qed.

(** X8.  With both providers configured, however Provider A fails within
    its three attempts, when Provider B then answers its single call with a
    text, [generateBio] returns that text, trimmed. *)
Theorem generateBio_fallback_succeeds (client : OpenAIClient) (gm : GenerativeModel)
    (e : JsValue) (text : string) (w : Trace) :
  providerA_configured penv this ->
  openai this = Some client ->
  geminiModel this = Some gm ->
  primary_fails orc client (openai_request name role) (openai_calls w) 3 e ->
  gemini_generateContent orc (gemini_calls w) gm (gemini_prompt name role)
  = Resolves (ResponseText text) ->
  exists w' primary,
    generateBio orc penv this name role w = (Ok (trim text), w')
    /\ performed w w' (primary ++ [AskB])
    /\ asks_B primary = 0%nat
    /\ (1 <= asks_A primary <= 3)%nat.
Proof.
  intros HA Hc HB HF HG.
  pose proof (primary_fails_not_nullish _ _ _ _ _ _ HF) as Hn.
  destruct (generateBioWithRetry_fails orc this name role client Hc e
              (w ++ [EvLog Info "Attempting bio generation with OpenAI"]))
    as (w1 & acts & E1 & P1 & HB1 & HA1); [now rewrite openai_calls_log |].
  apply performed_after_log in P1.
  destruct (generateBio_primary_throws_fallback orc penv this name role gm e w w1)
    as (w2 & P2 & E2); [done .. |].
  pose proof (performed_then _ _ _ _ _ P1 P2) as P12. rewrite app_nil_r in P12.
  destruct (generateBioWithGemini_text orc this name role gm HB text w2) as (w3 & E3 & P3).
  { now rewrite (gemini_calls_performed _ _ _ P12). }
  rewrite E3 in E2.
  exists w3, acts.
  split_and!; [exact E2 | exact (performed_then _ _ _ _ _ P12 P3) | exact HB1 | lia | lia].
Qed.

End Service.

(** X9.  For the service built from an environment, the status report and
    the policy agree: [openai] is true exactly when [generateBio] starts
    with Provider A, and [gemini] and [fallback] are true exactly when
    [generateBio] would use Provider B. *)
Theorem status_agrees_with_policy (penv : gmap string string) :
  let status := getServiceStatus penv (instance penv) in
  (get status "openai" = JsBool true <-> providerA_configured penv (instance penv))
  /\ (get status "gemini" = JsBool true <-> providerB_configured (instance penv))
  /\ (get status "fallback" = JsBool true <-> providerB_configured (instance penv))
  /\ (get status "hasAnyService" = JsBool true <->
      providerA_configured penv (instance penv) \/ providerB_configured (instance penv)).
Proof.
  intros status.
  destruct (getServiceStatus_fields penv (instance penv)) as (Ha & Hb & Hany & Hf & _).
  fold status in Ha, Hb, Hany, Hf. rewrite Ha, Hb, Hany, Hf.
  unfold providerA_configured, providerB_configured.
  assert (HB : truthy (js_and (js_and (of_env (penv !! "GEMINI_API_KEY"))
                 (JsBool (negb (strict_eq_string (of_env (penv !! "GEMINI_API_KEY"))
                                                 placeholder))))
                 (ref (geminiModel (instance penv))))
               = truthy (ref (geminiModel (instance penv)))).
  { rewrite instance_geminiModel. unfold js_and at 1.
    destruct (truthy (js_and (of_env (penv !! "GEMINI_API_KEY")) _)) eqn:Hk; [reflexivity |].
    simpl. exact Hk. }
  rewrite HB.
  destruct (truthy (js_and (of_env (penv !! "OPENAI_API_KEY")) (ref (openai (instance penv))))),
    (truthy (ref (geminiModel (instance penv)))); simpl; intuition congruence.
Qed.

(** The test of the constructor on the Gemini key: present, and not the
    placeholder. *)
Lemma gemini_key_usable (setting : option string) :
  truthy (js_and (of_env setting)
                 (JsBool (negb (strict_eq_string (of_env setting) placeholder)))) = true
  <-> credential_present setting /\ setting <> Some placeholder.
Proof.
  rewrite <- truthy_of_env. unfold placeholder.
  destruct setting as [key |]; [| simpl; intuition congruence].
  unfold js_and, of_env, strict_eq_string, truthy.
  destruct (String.eqb_spec key "") as [-> | Hempty]; [simpl; intuition congruence |].
  destruct (String.eqb_spec key "your_gemini_api_key_here") as [-> | Hp];
    simpl; intuition congruence.
Qed.

Lemma providerB_configured_instance (penv : gmap string string) :
  providerB_configured (instance penv)
  <-> credential_present (penv !! "GEMINI_API_KEY")
      /\ penv !! "GEMINI_API_KEY" <> Some placeholder.
Proof.
  unfold providerB_configured. rewrite instance_geminiModel, <- gemini_key_usable.
  destruct (truthy (js_and _ _)); simpl; intuition congruence.
Qed.

(** X17.  For the service built from an environment, the environment alone
    decides whom [generateBio] asks: Provider A is asked, at least once,
    exactly when its credential is present; Provider B is asked only when
    its credential is present and is not the placeholder; with the
    credential of Provider B alone, the run is one call of Provider B; and
    with neither credential, or with the placeholder alone, nobody is
    asked. *)
Theorem generateBio_follows_environment (orc : Oracles) (penv : gmap string string)
    (name role : string) (w : Trace) :
  exists acts,
    performed w (snd (generateBio orc penv (instance penv) name role w)) acts
    /\ (credential_present (penv !! "OPENAI_API_KEY") <-> (1 <= asks_A acts)%nat)
    /\ ((1 <= asks_B acts)%nat ->
        credential_present (penv !! "GEMINI_API_KEY")
        /\ penv !! "GEMINI_API_KEY" <> Some placeholder)
    /\ (~ credential_present (penv !! "OPENAI_API_KEY") ->
        credential_present (penv !! "GEMINI_API_KEY") ->
        penv !! "GEMINI_API_KEY" <> Some placeholder ->
        acts = [AskB])
    /\ (~ credential_present (penv !! "OPENAI_API_KEY") ->
        ~ (credential_present (penv !! "GEMINI_API_KEY")
           /\ penv !! "GEMINI_API_KEY" <> Some placeholder) ->
        acts = []).
Proof.
  destruct (generateBio_route orc penv (instance penv) name role w)
    as (primary & fallback & P & HB & HA & HW & HF & HFB & HPA & HPN).
  rewrite providerA_configured_instance in HPA, HPN.
  rewrite providerB_configured_instance in HFB, HPN.
  assert (HAF : asks_A fallback = 0%nat) by (destruct HF as [-> | ->]; reflexivity).
  exists (primary ++ fallback). rewrite asks_A_app, asks_B_app, HAF, HB.
  split_and!; [exact P | | | |].
  - split.
    + intros Hk. destruct (HPA Hk) as (rest & ->).
      change (asks_A (AskA :: rest)) with (S (asks_A rest)). lia.
    + intros Hasked.
      destruct (penv !! "OPENAI_API_KEY") as [key |] eqn:Hkey.
      * destruct (String.eqb_spec key "") as [-> | Hfull]; [| now exists key].
        destruct HPN as [-> _]; [now intros (k & [= <-] & Hk) |].
        change (asks_A []) with 0%nat in Hasked. lia.
      * destruct HPN as [-> _]; [now intros (k & [=] & _) |].
        change (asks_A []) with 0%nat in Hasked. lia.
  - intros Hasked. apply HFB. destruct HF as [-> | ->]; [| reflexivity].
    change (asks_B []) with 0%nat in Hasked. lia.
  - intros HnoA HkB HrealB. destruct (HPN HnoA) as [-> Hfallback].
    now rewrite Hfallback.
  - intros HnoA HnoB. destruct (HPN HnoA) as [-> _].
    destruct HF as [-> | ->]; [reflexivity |]. now destruct HnoB; apply HFB.
Qed.

(** X18.  The constructor never fails and calls nobody.  It holds an
    OpenAI client, made with the key of the environment, exactly when that
    key is present; it holds a Gemini client and a model of it, named
    "gemini-2.5-flash" and made with the key of the environment, exactly
    when that key is present and is not the placeholder; and it logs one
    warning for each provider it leaves disabled, and nothing else. *)
Theorem constructor_by_environment (penv : gmap string string) (w : Trace) :
  exists this delta,
    constructor penv w = (Ok this, w ++ delta)
    /\ actions delta = []
    /\ (is_Some (openai this) <-> credential_present (penv !! "OPENAI_API_KEY"))
    /\ (forall client, openai this = Some client ->
        penv !! "OPENAI_API_KEY" = Some (apiKey client))
    /\ (is_Some (geminiModel this)
        <-> credential_present (penv !! "GEMINI_API_KEY")
            /\ penv !! "GEMINI_API_KEY" <> Some placeholder)
    /\ (forall gm, geminiModel this = Some gm ->
        model_name gm = "gemini-2.5-flash"
        /\ gemini this = Some (model_owner gm)
        /\ penv !! "GEMINI_API_KEY" = Some (gemini_apiKey (model_owner gm)))
    /\ (geminiModel this = None -> gemini this = None)
    /\ delta
       = match openai this with
         | Some _ => []
         | None =>
             [EvLog Warn "OpenAI API key not provided. OpenAI features will be disabled."]
         end
         ++ match geminiModel this with
            | Some _ => []
            | None =>
                [EvLog Warn "Gemini API key not provided. Gemini features will be disabled."]
            end.
Proof.
  pose proof (truthy_of_env (penv !! "OPENAI_API_KEY")) as HA.
  pose proof (gemini_key_usable (penv !! "GEMINI_API_KEY")) as HB.
  unfold constructor. fold placeholder.
  cbv beta iota zeta delta [mbind mret M_bind M_ret log emit].
  destruct (truthy (of_env (penv !! "OPENAI_API_KEY")));
    destruct (truthy (js_and (of_env (penv !! "GEMINI_API_KEY")) _)).
  all: eexists _, _;
    (split; [first [ exact (f_equal (pair _) (eq_sym (app_nil_r w)))
                   | rewrite <- ?app_assoc; reflexivity ] |]).
  all: cbn [openai gemini geminiModel].
  all: assert (HkB : credential_present (penv !! "GEMINI_API_KEY") ->
                     penv !! "GEMINI_API_KEY" = Some (default "" (penv !! "GEMINI_API_KEY")))
         by (intros (key & -> & _); reflexivity).
  all: split_and!; try reflexivity.
  all: try discriminate.
  all: try (intros ? H; discriminate H).
  all: try (intros ? [= <-]; cbn [apiKey model_name model_owner gemini_apiKey]).
  all: try (split; [intros _; now apply HA | intros _; now eexists]).
  all: try (split; [intros [? [=]] | intros H; apply HA in H; discriminate H]).
  all: try (split; [intros _; now apply HB | intros _; now eexists]).
  all: try (split; [intros [? [=]] | intros H; apply HB in H; discriminate H]).
  all: try (destruct (proj1 HA eq_refl) as (key & -> & _); reflexivity).
  all: try (split_and!; [reflexivity | reflexivity | apply HkB, HB; reflexivity]).
Qed.

Section Witnesses.
Import Scenario.

Lemma generateBioWithRetry_without_client_witness :
  exists w',
    generateBioWithRetry healthy (instance env_gemini_only) "Ada" "ENGINEER" 3 1000 []
    = (Throw (new_Error "OpenAI client not initialized"), w')
    /\ performed [] w' [Wait 1000; Wait 2000]
    /\ openai_calls w' = 0%nat.
Proof.
  apply (generateBioWithRetry_without_client healthy (instance env_gemini_only)
           "Ada" "ENGINEER" 3 1000 []); [reflexivity | lia].
Defined.

Lemma generateBio_fallback_succeeds_witness :
  exists w' primary,
    generateBio key_revoked env_both (instance env_both) "Ada" "ENGINEER" []
    = (Ok "Ada, by Gemini.", w')
    /\ performed [] w' (primary ++ [AskB])
    /\ asks_B primary = 0%nat
    /\ (1 <= asks_A primary <= 3)%nat.
Proof.
  apply (generateBio_fallback_succeeds key_revoked env_both (instance env_both)
           "Ada" "ENGINEER" test_client test_model unauthorized " Ada, by Gemini. " []);
    [reflexivity | reflexivity | reflexivity | | reflexivity].
  apply fails_non_retryable; reflexivity.
Defined.

End Witnesses.
End ServiceConduct.

(* ===================================================================== *)
(** ** What every run of a handler keeps to *)
(* ===================================================================== *)

Module HandlerConduct.
Import Js Sdk Eff AIService UserController UserControllerRest Policy Conduct JsFacts TraceFacts
  EffFacts AIServiceFacts AIServiceFrame UserControllerSpec.

Lemma created_app (tr1 tr2 : Trace) : created (tr1 ++ tr2) = created tr1 ++ created tr2.
Proof. apply omap_app. Qed.


Lemma service_events_silent (delta : Trace) :
  forallb service_event delta = true ->
  created delta = [] /\ updates_sent delta = [] /\ responses delta = []
  /\ passed_to_next delta = [] /\ user_saves delta = 0%nat.
Proof.
  induction delta as [| e delta IH]; [done |]. simpl. intros [He Hd]%andb_prop.
  destruct (IH Hd) as (H1 & H2 & H3 & H4 & H5).
  destruct e; try discriminate; done.
Qed.

(** Take the next branching of the run in the goal apart. *)
Ltac branch_goal :=
  match goal with
  | |- context [match ?x with _ => _ end] =>
      lazymatch x with
      | context [match _ with _ => _ end] => fail
      | _ => destruct x eqn:?
      end
  end.

(** Run the handler's combinators in a hypothesis. *)
Ltac run_handler_in H :=
  cbv beta iota zeta delta
    [mbind mret M_bind M_ret try_catch throw log emit await attempt
     respond next now answered email_trim] in H.

(** Take a run apart: a read of [message] by the value it reads, every
    other branching by the answer at that point. *)
Ltac read_or_branch H :=
  first
    [ match type of H with
      | context [read ?v _ _] =>
          is_var v; destruct v; cbn [read Js.prop] in H; run_handler_in H
      end
    | branch H ].

Ltac read_or_branch_goal :=
  first
    [ match goal with
      | |- context [read ?v _ _] => is_var v; destruct v; cbn [read Js.prop]; run_handler
      end
    | branch_goal ].

(** A finished run whose events are known. *)
Ltac known_events :=
  eexists; split; [simpl; rewrite <- ?app_assoc; reflexivity |].

Section Handlers.
Context (orc : Oracles) (penv : gmap string string) (aiService : AIService).

(** The checks of [createUser]: a request that is let through has an email
    that is a string, and what goes on is its trimmed and lowered form,
    well formed, not too long and not found in the database, together with
    the role the database holds under the given id. *)
Lemma createUser_prepare_checked (body : gmap string JsValue) (w w1 : Trace)
    (normalizedEmail : string) (roleInfo : RoleDoc) (bioStartTime : Z) :
  createUser_prepare orc body w = (Ok (Some (normalizedEmail, roleInfo, bioStartTime)), w1) ->
  (exists s, field body "email" = JsString s /\ normalizedEmail = toLowerCase (trim s))
  /\ emailRegex_test normalizedEmail = true
  /\ (String.length normalizedEmail <= 254)%nat
  /\ (exists tr, User_findOne orc tr ("^" +:+ escapeRegExp normalizedEmail +:+ "$") "i"
                 = Resolves None)
  /\ (exists tr, Role_findById orc tr (field body "role") = Resolves (Some roleInfo)).
Proof.
  unfold createUser_prepare. run_handler. intros H.
  repeat (branch H; try discriminate H).
  all: injection H as <- <- _ _.
  all: repeat match goal with
         | H : negb _ = false |- _ => apply negb_false_iff in H
         | H : (_ || _) = false |- _ => apply orb_false_iff in H; destruct H
         | H : (_ <? _)%nat = false |- _ => apply Nat.ltb_ge in H
         | H : (Ok _, _) = (Ok _, _) |- _ => injection H as <- <-
         end.
  all: split_and!; eauto.
Qed.

(** How the checks of [createUser] can end: with one answer, 400 or 409,
    or with the request let through, or with something thrown; in every
    case without a provider call, without a user created and without a call
    of [next]. *)
Lemma createUser_prepare_outcomes (body : gmap string JsValue) (w w1 : Trace)
    (r : Result (option (string * RoleDoc * Z))) :
  createUser_prepare orc body w = (r, w1) ->
  exists delta,
    w1 = w ++ delta
    /\ created delta = [] /\ actions delta = [] /\ passed_to_next delta = []
    /\ match r with
       | Ok None => exists status answer,
           responses delta = [(status, answer)] /\ (status = 400 \/ status = 409)
       | Ok (Some _) => responses delta = []
       | Throw t => responses delta = [] /\ (errors_only orc -> nullish t = false)
       end.
Proof.
  unfold createUser_prepare. run_handler. intros H.
  repeat branch H.
  all: injection H as <- <-.
  all: known_events.
  all: split_and!; try reflexivity.
  all: try (intros (Hrole & Hfind & _); eauto).
  all: eauto 6.
Qed.

(** The inner [try] of [createUser]: it creates at most one user, with the
    name of the request, the checked email, the id of the role found, and a
    bio that [generateBio] returned; it ends with the answer 201 after one
    creation, or throws an error value. *)
Lemma createUser_generate_and_store_outcomes (name : JsValue) (normalizedEmail : string)
    (roleInfo : RoleDoc) (bioStartTime : Z) (w w1 : Trace) (r : Result unit) :
  createUser_generate_and_store orc penv aiService name normalizedEmail roleInfo bioStartTime w
  = (r, w1) ->
  exists delta,
    w1 = w ++ delta /\ passed_to_next delta = []
    /\ (created delta = []
        \/ exists bio,
             created delta = [(name, normalizedEmail, role__id roleInfo, bio)]
             /\ fst (generateBio orc penv aiService (to_string name) (role_name roleInfo) w)
                = Ok bio)
    /\ match r with
       | Ok _ => exists answer, responses delta = [(201, answer)] /\ created delta <> []
       | Throw t => responses delta = [] /\ nullish t = false
       end.
Proof.
  unfold createUser_generate_and_store. run_handler.
  pose proof (generateBio_service_run orc penv aiService (to_string name) (role_name roleInfo) w)
    as Hrun.
  destruct (generateBio orc penv aiService (to_string name) (role_name roleInfo) w)
    as [[bio | t] w0] eqn:Hbio.
  - destruct (service_run_trace _ _ _ Hrun) as (d & -> & Hd).
    destruct (service_events_silent _ Hd) as (Hc & _ & Hr & Hx & _).
    intros H. repeat read_or_branch H.
    all: injection H as <- <-.
    all: known_events.
    all: rewrite ?created_app, ?responses_app, ?passed_to_next_app, Hc, Hr, Hx.
    all: split_and!; try reflexivity; eauto.
  - pose proof (service_run_thrown _ _ _ Hrun) as Hn.
    destruct (service_run_trace _ _ _ Hrun) as (d & -> & Hd).
    destruct (service_events_silent _ Hd) as (Hc & _ & Hr & Hx & _).
    rewrite (read_not_nullish _ _ _ Hn). intros H. injection H as <- <-.
    known_events.
    rewrite ?created_app, ?responses_app, ?passed_to_next_app, Hc, Hr, Hx.
    split_and!; try reflexivity; eauto.
Qed.

(** X10.  When the database fails with error values only, [createUser]
    settles every request exactly once: it answers once and hands nothing
    to [next], or it hands one error value to [next] and answers nothing.
    The answer is 201 after exactly one user was created, or it is 400 or
    409 and then no user was created and no provider was asked. *)
Theorem createUser_settles_once (body : gmap string JsValue) (w : Trace) :
  errors_only orc ->
  exists delta how,
    createUser orc penv aiService body w = (Ok tt, w ++ delta)
    /\ settled delta how
    /\ match how with
       | Answered status =>
           (status = 201 /\ exists entry, created delta = [entry])
           \/ ((status = 400 \/ status = 409) /\ created delta = [] /\ actions delta = [])
       | Forwarded error => nullish error = false
       end.
Proof.
  intros Herrors. unfold createUser. run_handler.
  destruct (createUser_prepare orc body w) as [r w1] eqn:E1.
  destruct (createUser_prepare_outcomes _ _ _ _ E1) as (d1 & -> & Hc1 & Ha1 & Hx1 & Hr1).
  destruct r as [[[[normalizedEmail roleInfo] bioStartTime] |] | t].
  - destruct (createUser_generate_and_store orc penv aiService (field body "name")
                normalizedEmail roleInfo bioStartTime (w ++ d1)) as [r2 w2] eqn:E2.
    destruct (createUser_generate_and_store_outcomes _ _ _ _ _ _ _ E2)
      as (d2 & -> & Hx2 & Hc2 & Hr2).
    destruct r2 as [[] | t].
    + destruct Hr2 as (answer & Hr2 & Hsome).
      exists (d1 ++ d2), (Answered 201). rewrite app_assoc. split; [reflexivity |].
      split.
      * cbn [settled]. exists answer. rewrite responses_app, passed_to_next_app, Hr1, Hr2, Hx1, Hx2. done.
      * left. split; [reflexivity |]. rewrite created_app, Hc1.
        destruct Hc2 as [Hc2 | (bio & Hc2 & _)]; [done | eauto].
    + destruct Hr2 as (Hr2 & Hn).
      rewrite (read_not_nullish _ _ _ Hn).
      exists (d1 ++ d2 ++ [EvLog Error "=== User creation process failed ==="; EvNext t]),
             (Forwarded t).
      split; [now rewrite <- !app_assoc |]. split; [| exact Hn]. cbn [settled].
      rewrite !responses_app, !passed_to_next_app, Hr1, Hr2, Hx1, Hx2. done.
  - destruct Hr1 as (status & answer & Hr1 & Hstatus).
    exists d1, (Answered status). split; [reflexivity |]. split; [now exists answer |].
    now right.
  - destruct Hr1 as (Hr1 & Hn). specialize (Hn Herrors).
    rewrite (read_not_nullish _ _ _ Hn).
    exists (d1 ++ [EvLog Error "=== User creation process failed ==="; EvNext t]),
           (Forwarded t).
    split; [now rewrite <- !app_assoc |]. split; [| exact Hn]. cbn [settled].
    rewrite !responses_app, !passed_to_next_app, Hr1, Hx1. done.
Qed.

(** X11.  Whatever the database and the providers answer, [createUser]
    creates at most one user, and only one that went through every check:
    the email it stores is the trimmed and lowered email of the request, it
    matches the email pattern, has at most 254 characters and was not found
    in the database; the role it stores is the id of a role the database
    holds under the role id of the request; and the bio it stores is one
    that [generateBio] returned for the name of the request and the name of
    that role. *)
Theorem createUser_creates_checked (body : gmap string JsValue) (w : Trace) :
  exists delta,
    snd (createUser orc penv aiService body w) = w ++ delta
    /\ (created delta = []
        \/ exists s roleInfo bio,
             created delta
             = [(field body "name", toLowerCase (trim s), role__id roleInfo, bio)]
             /\ field body "email" = JsString s
             /\ emailRegex_test (toLowerCase (trim s)) = true
             /\ (String.length (toLowerCase (trim s)) <= 254)%nat
             /\ (exists tr,
                   User_findOne orc tr ("^" +:+ escapeRegExp (toLowerCase (trim s)) +:+ "$") "i"
                   = Resolves None)
             /\ (exists tr,
                   Role_findById orc tr (field body "role") = Resolves (Some roleInfo))
             /\ (exists tr,
                   fst (generateBio orc penv aiService (to_string (field body "name"))
                          (role_name roleInfo) tr) = Ok bio)).
Proof.
  unfold createUser. run_handler.
  destruct (createUser_prepare orc body w) as [r w1] eqn:E1.
  destruct (createUser_prepare_outcomes _ _ _ _ E1) as (d1 & -> & Hc1 & Ha1 & Hx1 & Hr1).
  destruct r as [[[[normalizedEmail roleInfo] bioStartTime] |] | t].
  - destruct (createUser_prepare_checked _ _ _ _ _ _ E1)
      as ((s & Hemail & ->) & Hregex & Hlength & Hfree & Hrole).
    destruct (createUser_generate_and_store orc penv aiService (field body "name")
                (toLowerCase (trim s)) roleInfo bioStartTime (w ++ d1)) as [r2 w2] eqn:E2.
    destruct (createUser_generate_and_store_outcomes _ _ _ _ _ _ _ E2)
      as (d2 & -> & Hx2 & Hc2 & Hr2).
    assert (Hcreated : created (d1 ++ d2) = []
              \/ exists bio,
                   created (d1 ++ d2)
                   = [(field body "name", toLowerCase (trim s), role__id roleInfo, bio)]
                   /\ exists tr,
                        fst (generateBio orc penv aiService (to_string (field body "name"))
                               (role_name roleInfo) tr) = Ok bio).
    { rewrite created_app, Hc1. destruct Hc2 as [Hc2 | (bio & Hc2 & Hbio)]; [now left |].
      right. exists bio. split; [exact Hc2 | now exists (w ++ d1)]. }
    assert (Hgoal : forall d3, created d3 = [] ->
              created ((d1 ++ d2) ++ d3) = []
              \/ exists s' roleInfo' bio,
                   created ((d1 ++ d2) ++ d3)
                   = [(field body "name", toLowerCase (trim s'), role__id roleInfo', bio)]
                   /\ field body "email" = JsString s'
                   /\ emailRegex_test (toLowerCase (trim s')) = true
                   /\ (String.length (toLowerCase (trim s')) <= 254)%nat
                   /\ (exists tr,
                         User_findOne orc tr
                           ("^" +:+ escapeRegExp (toLowerCase (trim s')) +:+ "$") "i"
                         = Resolves None)
                   /\ (exists tr,
                         Role_findById orc tr (field body "role") = Resolves (Some roleInfo'))
                   /\ (exists tr,
                         fst (generateBio orc penv aiService (to_string (field body "name"))
                                (role_name roleInfo') tr) = Ok bio)).
    { intros d3 H3. rewrite (created_app (d1 ++ d2)), H3, app_nil_r.
      destruct Hcreated as [-> | (bio & -> & Hbio)]; [now left |].
      right. exists s, roleInfo, bio. split_and!; done. }
    destruct r2 as [[] | t].
    + exists (d1 ++ d2). split; [simpl; now rewrite app_assoc |].
      rewrite <- (app_nil_r (d1 ++ d2)). now apply Hgoal.
    + destruct Hr2 as (_ & Hn). rewrite (read_not_nullish _ _ _ Hn).
      exists ((d1 ++ d2) ++ [EvLog Error "=== User creation process failed ==="; EvNext t]).
      split; [simpl; now rewrite <- !app_assoc |]. now apply Hgoal.
  - exists d1. split; [reflexivity | now left].
  - destruct t; cbn [read Js.prop]; run_handler.
    all: eexists; split; [simpl; rewrite <- ?app_assoc; reflexivity |].
    all: left; rewrite ?created_app, Hc1; reflexivity.
Qed.






(** X14.  An update whose body names no role asks no provider, looks up no
    role and saves no document: the bio is regenerated only on a role
    change. *)
Theorem updateUser_without_role (id : JsValue) (body : gmap string JsValue) (w : Trace) :
  truthy (field body "role") = false ->
  exists delta,
    snd (updateUser orc penv aiService id body w) = w ++ delta
    /\ actions delta = [] /\ user_saves delta = 0%nat
    /\ (forall role, ~ In (EvRoleFindById role) delta).
Proof.
  intros Hrole. unfold updateUser, updateUser_lookup, updateUser_regenerate. run_handler.
  assert (Hfield : field (delete "createdAt" (delete "__v" (delete "_id" body))) "role"
                   = field body "role").
  { unfold field. now rewrite !lookup_delete_ne. }
  rewrite Hfield, Hrole.
  repeat read_or_branch_goal.
  all: known_events.
  all: split_and!; try reflexivity.
  all: intros role; simpl; intuition discriminate.
Qed.

(** X15.  After a role change, when [generateBio] returns a new bio, the
    handler answers 200 with that bio in the profile, after exactly one
    [user.save()], whether the save succeeds or fails with an error value:
    a bio that could not be saved is still the one the answer shows. *)
Theorem updateUser_shows_new_bio (id : JsValue) (body : gmap string JsValue) (w w1 w2 : Trace)
    (user : UserDoc) (roleInfo : RoleDoc) (newBio : string) :
  updateUser_lookup orc id body w = (Ok (Some (user, true, Some roleInfo)), w1) ->
  generateBio orc penv aiService (user_name user) (role_name roleInfo)
    (w1 ++ [EvLog Info ("Regenerating bio for user: " +:+ user_name user +:+ " ("
                        +:+ role_name roleInfo +:+ ")")])
  = (Ok newBio, w2) ->
  (forall reason, user_save orc w2 (set_bio user newBio) = Rejects reason ->
                  nullish reason = false) ->
  exists w' answer,
    updateUser orc penv aiService id body w = (Ok tt, w')
    /\ responses w' = responses w ++ [(200, answer)]
    /\ get (get answer "data") "bio" = JsString newBio
    /\ user_saves w' = S (user_saves w)
    /\ passed_to_next w' = passed_to_next w.
Proof.
  intros Hlook Hbio Hsave.
  match type of Hbio with generateBio _ _ _ ?n ?ro ?tr = _ =>
    pose proof (generateBio_service_run orc penv aiService n ro tr) as Hrun end.
  rewrite Hbio in Hrun.
  destruct (service_run_trace _ _ _ Hrun) as (d2 & -> & Hd2).
  destruct (service_events_quiet _ Hd2) as (_ & Hs2 & Hr2 & Hx2).
  destruct (updateUser_lookup_quiet _ _ _ _ _ _ Hlook) as (d1 & -> & Hs1 & Hr1 & Hx1).
  unfold updateUser. run_handler. rewrite Hlook.
  unfold updateUser_regenerate. run_handler. rewrite Hbio.
  destruct (user_save orc _ (set_bio user newBio)) as [[] | reason] eqn:Hs.
  - eexists _, _. split; [reflexivity |].
    rewrite !user_saves_app, !responses_app, !passed_to_next_app, Hs1, Hs2, Hr1, Hr2,
      Hx1, Hx2.
    repeat match goal with |- context [user_saves [?e]] =>
      first [ change (user_saves [e]) with 0%nat | change (user_saves [e]) with 1%nat ] end.
    simpl. rewrite ?app_nil_r.
    split_and!; [reflexivity | reflexivity | lia | reflexivity].
  - rewrite (read_not_nullish _ _ _ (Hsave _ eq_refl)).
    eexists _, _. split; [reflexivity |].
    rewrite !user_saves_app, !responses_app, !passed_to_next_app, Hs1, Hs2, Hr1, Hr2,
      Hx1, Hx2.
    repeat match goal with |- context [user_saves [?e]] =>
      first [ change (user_saves [e]) with 0%nat | change (user_saves [e]) with 1%nat ] end.
    simpl. rewrite ?app_nil_r.
    split_and!; [reflexivity | reflexivity | lia | reflexivity].
Qed.


End Handlers.

Section Witnesses.
Import Scenario Outages.

Lemma errors_only_storage_refuses : errors_only storage_refuses.
Proof.
  unfold errors_only, storage_refuses. cbn.
  split_and!; intros; try discriminate.
  all: match goal with H : Rejects _ = Rejects _ |- _ => injection H as <- end; reflexivity.
Defined.

Lemma createUser_settles_once_witness :
  exists delta how,
    createUser storage_refuses env_both (instance env_both) create_request []
    = (Ok tt, [] ++ delta)
    /\ settled delta how
    /\ match how with
       | Answered status =>
           (status = 201 /\ exists entry, created delta = [entry])
           \/ ((status = 400 \/ status = 409) /\ created delta = [] /\ actions delta = [])
       | Forwarded error => nullish error = false
       end.
Proof.
  apply (createUser_settles_once storage_refuses env_both (instance env_both)
           create_request []).
  exact errors_only_storage_refuses.
Defined.


Lemma updateUser_without_role_witness :
  exists delta,
    snd (updateUser healthy env_both (instance env_both) update_id rename_request [])
    = [] ++ delta
    /\ actions delta = [] /\ user_saves delta = 0%nat
    /\ (forall role, ~ In (EvRoleFindById role) delta).
Proof.
  apply (updateUser_without_role healthy env_both (instance env_both) update_id
           rename_request []).
  reflexivity.
Defined.

Lemma updateUser_shows_new_bio_witness :
  exists w' answer,
    updateUser storage_refuses env_both (instance env_both) update_id update_request []
    = (Ok tt, w')
    /\ responses w' = responses [] ++ [(200, answer)]
    /\ get (get answer "data") "bio" = JsString "Ada builds things."
    /\ user_saves w' = S (user_saves [])
    /\ passed_to_next w' = passed_to_next [].
Proof.
  apply (updateUser_shows_new_bio storage_refuses env_both (instance env_both) update_id
           update_request []
           (snd (updateUser_lookup storage_refuses update_id update_request []))
           (snd (generateBio storage_refuses env_both (instance env_both) "Ada" "ENGINEER"
                   (snd (updateUser_lookup storage_refuses update_id update_request [])
                    ++ [EvLog Info "Regenerating bio for user: Ada (ENGINEER)"])))
           ada engineer "Ada builds things.").
  - vm_compute. reflexivity.
  - vm_compute. reflexivity.
  - intros reason H. injection H as <-. reflexivity.
Defined.

End Witnesses.
End HandlerConduct.
